(** * Search-O-Bar: retrieval orchestration, sessions and reference resolution

    A shallow embedding of [app.py], [summarizer.py] and [search.py] and
    the proofs of the properties stated about them.

    Conventions of the embedding.
    - Python [str] is [string]; the text is taken to be ASCII, so a
      character is one [ascii] and [len] is [String.length].  The character
      classes ([str.isspace], [str.isdigit], [\s], [\d], [\w], [\b]) are the
      ones CPython uses on the ASCII range.
    - Python [int] is [Z].
    - A [dict] is a [gmap string val]; [d.get(k)] is a lookup.
    - The module-level dicts [SESSIONS] and [SOURCES] are part of the
      program state.  A transcript is a Python list that is appended to in
      place, so [SESSIONS] maps a session id to the address of a list
      object and the state carries the heap of those objects.
    - Calls that leave the process (the Ollama HTTP endpoint, trafilatura,
      the search provider, [uuid.uuid4]) are oracles on an abstract world;
      each may raise.
    - [print] calls and the Flask routing are left out; a handler takes
      the JSON body of the request and returns the body and status of
      the response. *)

From Stdlib Require Import ZArith Ascii String List Bool Lia DecimalString.
From stdpp Require Import gmap strings list.

Open Scope string_scope.
Open Scope Z_scope.

(* ================================================================== *)
(** * Python string primitives *)
(* ================================================================== *)

Module Py.

Definition code (c : ascii) : nat := nat_of_ascii c.

(** [str.isspace] / [\s] on ASCII: TAB..CR, FS..US and the blank. *)
Definition is_space (c : ascii) : bool :=
  ((9 <=? code c) && (code c <=? 13) || (28 <=? code c) && (code c <=? 32))%nat.

(** [str.isdigit] / [\d] on ASCII. *)
Definition is_digit (c : ascii) : bool :=
  ((48 <=? code c) && (code c <=? 57))%nat.

Definition is_upper (c : ascii) : bool :=
  ((65 <=? code c) && (code c <=? 90))%nat.

Definition is_lower (c : ascii) : bool :=
  ((97 <=? code c) && (code c <=? 122))%nat.

(** [\w] on ASCII: letters, digits and the underscore. *)
Definition is_word (c : ascii) : bool :=
  is_upper c || is_lower c || is_digit c || (code c =? 95)%nat.

Definition lower_char (c : ascii) : ascii :=
  if is_upper c then ascii_of_nat (code c + 32) else c.

(** [s.lower()] *)
Fixpoint lower (s : string) : string :=
  match s with
  | EmptyString => EmptyString
  | String c s' => String (lower_char c) (lower s')
  end.

Definition is_empty (s : string) : bool :=
  match s with EmptyString => true | _ => false end.

(** [s.lstrip()] *)
Fixpoint lstrip (s : string) : string :=
  match s with
  | EmptyString => EmptyString
  | String c s' => if is_space c then lstrip s' else s
  end.

(** [s.rstrip()] *)
Fixpoint rstrip (s : string) : string :=
  match s with
  | EmptyString => EmptyString
  | String c s' =>
      let r := rstrip s' in
      if is_space c && is_empty r then EmptyString else String c r
  end.

(** [s.strip()] *)
Definition strip (s : string) : string := rstrip (lstrip s).

(** [s.startswith(p)] *)
Fixpoint startswith (s p : string) : bool :=
  match p, s with
  | EmptyString, _ => true
  | String a p', String b s' => Ascii.eqb a b && startswith s' p'
  | String _ _, EmptyString => false
  end.

(** [sub in s] *)
Fixpoint contains (sub s : string) : bool :=
  startswith s sub ||
  match s with
  | EmptyString => false
  | String _ s' => contains sub s'
  end.

(** [any(pred(ch) for ch in s)] *)
Fixpoint any_char (p : ascii -> bool) (s : string) : bool :=
  match s with
  | EmptyString => false
  | String c s' => p c || any_char p s'
  end.

Fixpoint all_char (p : ascii -> bool) (s : string) : bool :=
  match s with
  | EmptyString => true
  | String c s' => p c && all_char p s'
  end.

(** [s.isdigit()]: non-empty and made of digits. *)
Definition isdigit (s : string) : bool := negb (is_empty s) && all_char is_digit s.

(** [s.split()]: the maximal runs of non-blank characters.  [tok] is
    the token being read. *)
Fixpoint split_from (tok s : string) : list string :=
  match s with
  | EmptyString => if is_empty tok then [] else [tok]
  | String c s' =>
      if is_space c
      then (if is_empty tok then split_from EmptyString s' else tok :: split_from EmptyString s')
      else split_from (tok ++ String c EmptyString) s'
  end.

Definition split (s : string) : list string := split_from EmptyString s.

(** [len(s)] *)
Definition len (s : string) : Z := Z.of_nat (String.length s).

(** [s[:n]] *)
Fixpoint slice_to (n : nat) (s : string) : string :=
  match n, s with
  | S n', String c s' => String c (slice_to n' s')
  | _, _ => EmptyString
  end.

Fixpoint slice_from (n : nat) (s : string) : string :=
  match n, s with
  | S n', String _ s' => slice_from n' s'
  | _, _ => s
  end.

(** [s.replace(old, new)] for a non-empty [old]: the occurrences are
    found left to right and do not overlap.  [skip] counts the characters
    of the occurrence just replaced that are still to be passed over. *)
Fixpoint replace_from (old new : string) (skip : nat) (s : string) : string :=
  match s with
  | EmptyString => EmptyString
  | String c s' =>
      match skip with
      | S k => replace_from old new k s'
      | O =>
          if startswith s old
          then new ++ replace_from old new (String.length old - 1) s'
          else String c (replace_from old new 0 s')
      end
  end.

(** [s.replace(old, new)]; with an empty [old] Python puts [new] before
    every character and at the end. *)
Fixpoint replace_empty (new s : string) : string :=
  match s with
  | EmptyString => new
  | String c s' => new ++ String c (replace_empty new s')
  end.

Definition replace (s old new : string) : string :=
  if is_empty old then replace_empty new s else replace_from old new 0 s.

(** [int(s)] on a string of digits. *)
Definition digit_val (c : ascii) : Z := Z.of_nat (code c) - 48.

Fixpoint int_from (acc : Z) (s : string) : Z :=
  match s with
  | EmptyString => acc
  | String c s' => int_from (10 * acc + digit_val c) s'
  end.

Definition int (s : string) : Z := int_from 0 s.

(** [str(n)] *)
Definition str (n : Z) : string := NilZero.string_of_int (Z.to_int n).

(** [re.sub(r"\s+", " ", s)]: every run of blanks becomes one blank. *)
Fixpoint collapse_ws (s : string) : string :=
  match s with
  | EmptyString => EmptyString
  | String c s' =>
      if is_space c
      then match s' with
           | String c' _ => if is_space c' then collapse_ws s' else String " " (collapse_ws s')
           | EmptyString => String " " EmptyString
           end
      else String c (collapse_ws s')
  end.

(** ** Shapes of strings used to state facts about [strip] *)

(** A string that does not begin with a blank. *)
Definition no_lead (s : string) : bool :=
  match s with
  | EmptyString => true
  | String c _ => negb (is_space c)
  end.

(** A non-empty string whose first character is not a blank. *)
Definition starts_solid (m : string) : bool :=
  match m with
  | EmptyString => false
  | String a _ => negb (is_space a)
  end.

(** A string that is empty or whose last character is not a blank. *)
Fixpoint ends_solid (m : string) : bool :=
  match m with
  | EmptyString => true
  | String a EmptyString => negb (is_space a)
  | String _ m' => ends_solid m'
  end.

(** The first character is a blank. *)
Definition starts_blank (s : string) : bool :=
  match s with
  | EmptyString => false
  | String c _ => is_space c
  end.

(** Every blank is the space character and is not followed by a blank. *)
Fixpoint single_spaced (s : string) : bool :=
  match s with
  | EmptyString => true
  | String c s' =>
      (negb (is_space c) || (Ascii.eqb c " " && negb (starts_blank s')))
      && single_spaced s'
  end.

(** [p] holds of the first character. *)
Definition head_is (p : ascii -> bool) (s : string) : bool :=
  match s with
  | EmptyString => false
  | String c _ => p c
  end.

End Py.

(* ================================================================== *)
(** * Regular expressions: the fragment of [re] the resolver uses *)
(* ================================================================== *)

Module Re.

(** Abstract syntax.  Repetition is only ever applied to a character
    class (\s+, \s*, \d+, \w+); [Rep lo p] is the greedy [p{lo,}].
    [Grp n r] is the capturing group number [n]; every other
    parenthesis of the source patterns is non-capturing. *)
Inductive re : Type :=
| Lit (s : string)
| Rep (lo : nat) (p : ascii -> bool)
| Opt (r : re)
| Alt (r1 r2 : re)
| Cat (r1 r2 : re)
| Grp (n : nat) (r : re)
| WordB.

Fixpoint cat (rs : list re) : re :=
  match rs with
  | [] => Lit EmptyString
  | [r] => r
  | r :: rs' => Cat r (cat rs')
  end.

Fixpoint alt (r : re) (rs : list re) : re :=
  match rs with
  | [] => r
  | r' :: rs' => Alt r (alt r' rs')
  end.

(** The captures made so far, most recent first. *)
Definition caps := list (nat * string).

(** [m.group(n)] *)
Fixpoint group (c : caps) (n : nat) : option string :=
  match c with
  | [] => None
  | (k, s) :: c' => if (k =? n)%nat then Some s else group c' n
  end.

(** The character before the current position, after passing over [l]. *)
Fixpoint last_of (l : string) (prev : option ascii) : option ascii :=
  match l with
  | EmptyString => prev
  | String c l' => last_of l' (Some c)
  end.

Definition word_before (prev : option ascii) : bool :=
  match prev with Some c => Py.is_word c | None => false end.

Definition word_at (s : string) : bool :=
  match s with String c _ => Py.is_word c | EmptyString => false end.

Section Matcher.
Context {A : Type}.

(** Greedy repetition of a class: the longest run is tried first and is
    given back one character at a time while the rest of the pattern
    fails. *)
Fixpoint rep (p : ascii -> bool) (lo : nat) (prev : option ascii) (s : string)
    (k : option ascii -> string -> option A) : option A :=
  let stop := if (lo =? 0)%nat then k prev s else None in
  match s with
  | String c s' =>
      if p c
      then match rep p (Nat.pred lo) (Some c) s' k with
           | Some x => Some x
           | None => stop
           end
      else stop
  | EmptyString => stop
  end.

(** Backtracking matcher in continuation-passing style: [k] is the rest
    of the pattern. Alternatives are tried left to right, an optional
    part is tried present first. *)
Fixpoint run (r : re) (prev : option ascii) (s : string) (c : caps)
    (k : option ascii -> string -> caps -> option A) : option A :=
  match r with
  | Lit l =>
      if Py.startswith s l
      then k (last_of l prev) (Py.slice_from (String.length l) s) c
      else None
  | Rep lo p => rep p lo prev s (fun pv s' => k pv s' c)
  | Opt r1 =>
      match run r1 prev s c k with
      | Some x => Some x
      | None => k prev s c
      end
  | Alt r1 r2 =>
      match run r1 prev s c k with
      | Some x => Some x
      | None => run r2 prev s c k
      end
  | Cat r1 r2 => run r1 prev s c (fun pv s' c' => run r2 pv s' c' k)
  | Grp n r1 =>
      run r1 prev s c
        (fun pv s' c' =>
           k pv s' ((n, Py.slice_to (String.length s - String.length s') s) :: c'))
  | WordB => if xorb (word_before prev) (word_at s) then k prev s c else None
  end.

End Matcher.

(** [re.search(r, s)]: the match at the leftmost position that has one. *)
Fixpoint search_from (r : re) (prev : option ascii) (s : string) : option caps :=
  match run r prev s [] (fun _ _ c => Some c) with
  | Some c => Some c
  | None =>
      match s with
      | String a s' => search_from r (Some a) s'
      | EmptyString => None
      end
  end.

Definition search (r : re) (s : string) : option caps := search_from r None s.

(** ** What it means for a pattern to match

    The relation below says it without reference to the matcher. *)

(** [matches r prev t rest c c']: [r] matches the text [t] at a place
    where the character before is [prev] and the text after is [rest];
    the captures go from [c] to [c']. *)
Inductive matches : re -> option ascii -> string -> string -> caps -> caps -> Prop :=
| M_lit l prev rest c :
    matches (Lit l) prev l rest c c
| M_rep lo p prev t rest c :
    Py.all_char p t = true -> (lo <= String.length t)%nat ->
    matches (Rep lo p) prev t rest c c
| M_opt_some r prev t rest c c' :
    matches r prev t rest c c' -> matches (Opt r) prev t rest c c'
| M_opt_none r prev rest c :
    matches (Opt r) prev EmptyString rest c c
| M_alt_l r1 r2 prev t rest c c' :
    matches r1 prev t rest c c' -> matches (Alt r1 r2) prev t rest c c'
| M_alt_r r1 r2 prev t rest c c' :
    matches r2 prev t rest c c' -> matches (Alt r1 r2) prev t rest c c'
| M_cat r1 r2 prev t1 t2 rest c c1 c2 :
    matches r1 prev t1 (t2 ++ rest) c c1 ->
    matches r2 (last_of t1 prev) t2 rest c1 c2 ->
    matches (Cat r1 r2) prev (t1 ++ t2) rest c c2
| M_grp n r prev t rest c c' :
    matches r prev t rest c c' -> matches (Grp n r) prev t rest c ((n, t) :: c')
| M_wordb prev rest c :
    xorb (word_before prev) (word_at rest) = true ->
    matches WordB prev EmptyString rest c c.

Definition ws1 : re := Rep 1 Py.is_space.   (* \s+ *)
Definition ws0 : re := Rep 0 Py.is_space.   (* \s* *)
Definition digits : re := Rep 1 Py.is_digit. (* \d+ *)
Definition word : re := Rep 1 Py.is_word.   (* \w+ *)

End Re.

(* ================================================================== *)
(** * app.py: query classifier and reference resolver *)
(* ================================================================== *)

Module Resolver.
Import Py Re.

Definition arithmetic_keywords : list string :=
  ["+"; "-"; "*"; "/"; "x"; "what is"; "calculate"; "solve"].

(** [is_simple_logical_query]; the [or] in its first statement only
    matters when [query] is [None], and [query] is a [str]. *)
Definition is_simple_logical_query (query : string) : bool :=
  let normalized := strip (lower query) in
  let has_op := existsb (fun op => contains op normalized) arithmetic_keywords in
  let has_num := any_char is_digit normalized in
  has_op && has_num && (Z.of_nat (length (split normalized)) <? 7).

(** [ORDINAL_TO_INDEX]; a Python dict iterates in insertion order, and
    both loops over it depend on that order. *)
Definition ORDINAL_TO_INDEX : list (string * Z) :=
  [ ("first", 1); ("1st", 1);
    ("second", 2); ("2nd", 2);
    ("third", 3); ("3rd", 3);
    ("fourth", 4); ("4th", 4);
    ("fifth", 5); ("5th", 5);
    ("sixth", 6); ("6th", 6);
    ("seventh", 7); ("7th", 7);
    ("eighth", 8); ("8th", 8);
    ("ninth", 9); ("9th", 9);
    ("tenth", 10); ("10th", 10) ].

(** [ORDINAL_TO_INDEX[g]] when [g in ORDINAL_TO_INDEX]. *)
Fixpoint ordinal_of (table : list (string * Z)) (g : string) : option Z :=
  match table with
  | [] => None
  | (w, i) :: table' => if String.eqb w g then Some i else ordinal_of table' g
  end.

(** (?: summarize | summary | details | more \s+ details | explain | about ) *)
Definition verb : re :=
  alt (Lit "summarize")
    [Lit "summary"; Lit "details"; cat [Lit "more"; ws1; Lit "details"];
     Lit "explain"; Lit "about"].

Definition link_or_one : re := Alt (Lit "link") (Lit "one").

(** The four patterns of [LINK_PATTERNS]; the comments give each
    source pattern with its tokens spaced out. *)

(* verb \s+ (?: link \s* )? #? (\d+) *)
Definition verb_number : re :=
  cat [verb; ws1; Opt (Cat (Lit "link") ws0); Opt (Lit "#"); Grp 1 digits].

(* verb \s+ the \s+ (\w+) \s+ (?: link | one ) *)
Definition verb_the_word : re :=
  cat [verb; ws1; Lit "the"; ws1; Grp 1 word; ws1; link_or_one].

(* (?: link | # ) \s* (\d+) *)
Definition link_number : re :=
  cat [Alt (Lit "link") (Lit "#"); ws0; Grp 1 digits].

(* \b (\w+) \s+ link \b *)
Definition word_link : re :=
  cat [WordB; Grp 1 word; ws1; Lit "link"; WordB].

Definition LINK_PATTERNS : list re :=
  [verb_number; verb_the_word; link_number; word_link].

(** The [for pat in LINK_PATTERNS] loop. [Some r] is [return r]; [None]
    is the loop running to its end. *)
Fixpoint link_patterns_loop (text : string) (pats : list re) : option (option Z) :=
  match pats with
  | [] => None
  | pat :: pats' =>
      match search pat text with
      | Some m =>
          match group m 1 with
          | Some g =>
              if negb (is_empty g) && isdigit g
              then let idx := int g in
                   Some (if 1 <=? idx then Some idx else None)
              else match ordinal_of ORDINAL_TO_INDEX g with
                   | Some i => Some (Some i)
                   | None => link_patterns_loop text pats'
                   end
          | None => link_patterns_loop text pats'
          end
      | None => link_patterns_loop text pats'
      end
  end.

(** The [for word, idx in ORDINAL_TO_INDEX.items()] loop, with the
    pattern \b {word} \s+ (?: link | one ) \b. *)
Fixpoint ordinal_words_loop (text : string) (table : list (string * Z)) : option Z :=
  match table with
  | [] => None
  | (w, idx) :: table' =>
      match search (cat [WordB; Lit w; ws1; link_or_one; WordB]) text with
      | Some _ => Some idx
      | None => ordinal_words_loop text table'
      end
  end.

Definition detect_link_index (user_text : string) : option Z :=
  if is_empty user_text then None
  else
    let text := strip (lower user_text) in
    match link_patterns_loop text LINK_PATTERNS with
    | Some r => r
    | None => ordinal_words_loop text ORDINAL_TO_INDEX
    end.

(** ** Shapes of text used to say what the resolver finds *)

(** A run of one or more blanks. *)
Definition blanks (w : string) : Prop :=
  is_empty w = false /\ all_char is_space w = true.

(** A run of one or more word characters. *)
Definition word_run (g : string) : Prop :=
  is_empty g = false /\ all_char is_word g = true.

(** The texts that the first alternation of the patterns matches. *)
Definition is_verb (v : string) : Prop :=
  In v ["summarize"; "summary"; "details"; "explain"; "about"]
  \/ exists w, v = "more" ++ w ++ "details" /\ blanks w.

(** \b {word} \s+ (?: link | one ) \b, the pattern that
    [ordinal_words_loop] searches for. *)
Definition ordinal_phrase (w : string) : re :=
  cat [WordB; Lit w; ws1; link_or_one; WordB].

(** The loop over [LINK_PATTERNS] goes on to the next pattern: [pat]
    is not found in the text, or what its group captured is neither a
    number nor a word of the table. *)
Definition falls_through (pat : re) (text : string) : Prop :=
  forall m g, search pat text = Some m -> group m 1 = Some g ->
    isdigit g = false /\ ordinal_of ORDINAL_TO_INDEX g = None.

(** The loop over [LINK_PATTERNS] returns [r] at [pat]: the pattern is
    found and its group captured a number, which is the answer unless
    it is below 1, or a word of the table, whose index is the answer. *)
Definition settles (pat : re) (text : string) (r : option Z) : Prop :=
  exists m g,
    search pat text = Some m /\ group m 1 = Some g
    /\ ((isdigit g = true /\ r = (if 1 <=? int g then Some (int g) else None))
        \/ (isdigit g = false
            /\ exists i, ordinal_of ORDINAL_TO_INDEX g = Some i /\ r = Some i)).

(** The [for word, num in ORDINAL_TO_INDEX.items()] loop of
    [detect_two_links]: [text = text.replace(word, str(num))]. *)
Fixpoint normalize_ordinals (text : string) (table : list (string * Z)) : string :=
  match table with
  | [] => text
  | (w, num) :: table' => normalize_ordinals (replace text w (str num)) table'
  end.

Definition connectors : list string := ["and"; "&"; ","; "vs"; "versus"].

Definition connector : re :=
  alt (Lit "and") [Lit "&"; Lit ","; Lit "vs"; Lit "versus"].

(** (\d+) \s* (?: and | & | , | vs | versus ) \s* (\d+) *)
Definition PAIR_PATTERN : re :=
  cat [Grp 1 digits; ws0; connector; ws0; Grp 2 digits].

(** The text holds two runs of digits with a connector between them,
    blanks allowed on either side of the connector. *)
Definition pair_occurs (s : string) : Prop :=
  exists before d1 w1 cn w2 d2 rest,
    s = before ++ d1 ++ w1 ++ cn ++ w2 ++ d2 ++ rest
    /\ isdigit d1 = true /\ all_char is_space w1 = true /\ In cn connectors
    /\ all_char is_space w2 = true /\ isdigit d2 = true.

(** The text begins with a run of digits [d1], a connector and a run
    of digits [d2], blanks allowed on either side of the connector, and
    goes on with [rest]. *)
Definition pair_at (s d1 d2 rest : string) : Prop :=
  exists w1 cn w2,
    s = d1 ++ w1 ++ cn ++ w2 ++ d2 ++ rest
    /\ isdigit d1 = true /\ all_char is_space w1 = true /\ In cn connectors
    /\ all_char is_space w2 = true /\ isdigit d2 = true.

(** [detect_two_links]; both groups take part in every match of the
    pattern. *)
Definition detect_two_links (user_text : string) : option (Z * Z) :=
  if is_empty user_text then None
  else
    let text := normalize_ordinals (strip (lower user_text)) ORDINAL_TO_INDEX in
    match search PAIR_PATTERN text with
    | Some m =>
        match group m 1, group m 2 with
        | Some g1, Some g2 =>
            let idx1 := int g1 in
            let idx2 := int g2 in
            if (1 <=? idx1) && (1 <=? idx2) then Some (idx1, idx2) else None
        | _, _ => None
        end
    | None => None
    end.

End Resolver.


(* ================================================================== *)
(** * Values, effects and the collaborators' interface *)
(* ================================================================== *)

(** A value held in a dict read by the program: [None] or a [str]. *)
Inductive val : Type :=
| VNone
| VStr (s : string).

(** Truth value of a [str]: non-empty. *)
Definition nonempty (s : string) : bool := negb (Py.is_empty s).

(** [bool(v)] *)
Definition truthy (v : val) : bool :=
  match v with
  | VNone => false
  | VStr s => nonempty s
  end.

(** [a or b] *)
Definition py_or (a b : val) : val := if truthy a then a else b.

(** [v or s] with [s] a [str]: the result is a [str]. *)
Definition or_str (v : val) (s : string) : string :=
  match v with
  | VStr t => if nonempty t then t else s
  | VNone => s
  end.

(** A value inside an f-string. *)
Definition fmt (v : val) : string :=
  match v with
  | VNone => "None"
  | VStr s => s
  end.

(** [d.get(k)] and [d.get(k, dflt)] *)
Definition get (d : gmap string val) (k : string) : val := default VNone (d !! k).
Definition get_or (d : gmap string val) (k : string) (dflt : val) : val :=
  default dflt (d !! k).

(** An element of a list handed around as "sources" or "results": a
    dict, or something that is not a dict. *)
Inductive item : Type :=
| IDict (d : gmap string val)
| IOther.

(** A chat message, {"role": ..., "content": ...}. *)
Record Message : Type := mkMessage { role : string; content : string }.

Definition nl : string := String (ascii_of_nat 10) EmptyString.

Definition is_empty_list {A} (l : list A) : bool :=
  match l with [] => true | _ => false end.

(** ["sep".join(xs)] *)
Fixpoint join (sep : string) (xs : list string) : string :=
  match xs with
  | [] => EmptyString
  | [x] => x
  | x :: xs' => x ++ sep ++ join sep xs'
  end.

(** The result of a call that may raise: [Raise e] carries [str(e)]. *)
Inductive outcome (A : Type) : Type :=
| Ok (a : A)
| Raise (e : string).
Arguments Ok {A} a.
Arguments Raise {A} e.

(** ** State and exceptions *)

Module Eff.
Section Monad.
Context {S : Type}.

Definition M (A : Type) : Type := S -> outcome A * S.

Definition ret {A} (a : A) : M A := fun s => (Ok a, s).

Definition bind {A B} (c : M A) (k : A -> M B) : M B :=
  fun s =>
    match c s with
    | (Ok a, s') => k a s'
    | (Raise e, s') => (Raise e, s')
    end.

Definition raise {A} (e : string) : M A := fun s => (Raise e, s).

(** [try: c  except Exception as e: h(e)].  What [c] did to the state
    before it raised stays done. *)
Definition try_except {A} (c : M A) (h : string -> M A) : M A :=
  fun s =>
    match c s with
    | (Ok a, s') => (Ok a, s')
    | (Raise e, s') => h e s'
    end.

Definition gets {A} (f : S -> A) : M A := fun s => (Ok (f s), s).
Definition modify (f : S -> S) : M unit := fun s => (Ok tt, f s).

End Monad.
Arguments M : clear implicits.
End Eff.

Notation "'let*' x ':=' c 'in' k" := (Eff.bind c (fun x => k))
  (at level 10, x name, c at level 100, k at level 200).
Notation "'let*' ' pat ':=' c 'in' k" :=
  (Eff.bind c (fun x => match x with pat => k end))
  (at level 10, pat pattern, c at level 100, k at level 200).

Definition RAG_FAILURE_CODE : string := "RAG_CONTEXT_INSUFFICIENT".

(* ================================================================== *)
(** * summarizer.py *)
(* ================================================================== *)

Module Summarizer.
Import Py Eff.

Section Backend.
Context {W : Type}.

(** The HTTP exchange of [_ollama_chat]: [_post_json("/api/chat", data)]
    and the reading of [message.content] from the reply, which is all
    the [try] block does before [.strip()].  [Ok c] is a reply whose
    content is the string [c] (empty when the reply has no message or
    no content); [Raise e] is any exception inside the block: a refused
    or timed-out connection, an HTTP error status, a reply that is not
    JSON.  The oracle acts on the world outside the process. *)
Variable post_chat : list Message -> W -> outcome string * W.

(** The network as the process sees it: the outside world and the list
    of chat requests sent so far, oldest first. *)
Record Net : Type := mkNet { ext : W; sent : list (list Message) }.

Definition _post_json (messages : list Message) : M Net string :=
  fun n =>
    let '(r, w) := post_chat messages (ext n) in
    (r, {| ext := w; sent := (sent n ++ [messages])%list |}).

Definition _ollama_chat (messages : list Message) : M Net string :=
  try_except
    (let* c := _post_json messages in ret (strip c))
    (fun e => ret ("[ERROR] Failed to call Ollama chat: " ++ e)).

(** An entry of [norm]. *)
Record norm_source : Type := mkNorm {
  n_title : string; n_url : string; n_snippet : string; n_content : string }.

(** The first loop of [generate_answer_from_sources]. *)
Fixpoint normalize (sources : list item) : list norm_source :=
  match sources with
  | [] => []
  | IOther :: rest => normalize rest
  | IDict s :: rest =>
      {| n_title := or_str (get s "title") EmptyString;
         n_url := or_str (py_or (get s "url") (get s "link")) EmptyString;
         n_snippet := or_str (get s "snippet") EmptyString;
         n_content := or_str (get s "content") EmptyString |} :: normalize rest
  end.

(** The second loop, [for i, s in enumerate(norm, start=1)]. *)
Fixpoint blocks_from (i : Z) (norm : list norm_source) : list string :=
  match norm with
  | [] => []
  | s :: rest =>
      let body := if nonempty (n_content s) then n_content s else n_snippet s in
      if nonempty body
      then ("[" ++ str i ++ "] " ++ n_title s ++ nl ++ "URL: " ++ n_url s ++ nl ++ body)
             :: blocks_from (i + 1) rest
      else blocks_from (i + 1) rest
  end.

Definition grounded_system_msg : string :=
  "You are a helpful research assistant. Use ONLY the provided sources to answer. "
  ++ "Cite like [1], [2] in the text when using a source. If sources are insufficient, "
  ++ "reply exactly: RAG_CONTEXT_INSUFFICIENT.".

Definition generate_answer_from_sources (query : string) (sources : list item)
  : M Net string :=
  let norm := normalize sources in
  if is_empty_list norm then ret RAG_FAILURE_CODE
  else
    let blocks := blocks_from 1 norm in
    if is_empty_list blocks then ret RAG_FAILURE_CODE
    else
      let user_msg :=
        "Question: " ++ query ++ nl ++ nl ++ "Sources:" ++ nl
        ++ join (nl ++ nl) blocks
        ++ nl ++ nl ++ "Write a concise answer with citations." in
      let* out := _ollama_chat
               [ {| role := "system"; content := grounded_system_msg |};
                 {| role := "user"; content := user_msg |} ] in
      if is_empty out then ret RAG_FAILURE_CODE
      else if contains "RAG_CONTEXT_INSUFFICIENT" out then ret RAG_FAILURE_CODE
      else ret (strip out).

Definition generate_general_answer (query : string) : M Net string :=
  let* out := _ollama_chat
           [ {| role := "system"; content := "You are a concise, friendly assistant." |};
             {| role := "user"; content := query |} ] in
  ret (if nonempty out then strip out else "I couldn't generate an answer.").

(** [ChatBot().chat(history=history)]; [initial_history] is [[]]. *)
Definition ChatBot_chat (history : list Message) : M Net string :=
  let msgs := history in
  let msgs :=
    match msgs with
    | [] => [ {| role := "system"; content := "You are a helpful assistant." |} ]
    | m0 :: _ =>
        if String.eqb (role m0) "system" then msgs
        else {| role := "system"; content := "You are a helpful assistant." |} :: msgs
    end in
  _ollama_chat msgs.

(** The HTTP exchange of [_ollama_generate]:
    [_post_json("/api/generate", data)] and the reading of [response]
    from the reply; [Ok c] and [Raise e] as for [post_chat]. *)
Variable post_generate : string -> W -> outcome string * W.

Definition _ollama_generate (prompt : string) : M Net string :=
  try_except
    (let* c := (fun n => let '(r, w) := post_generate prompt (ext n) in
                         (r, {| ext := w; sent := sent n |})) in
     ret (strip c))
    (fun e => ret ("[ERROR] Failed to call Ollama generate: " ++ e)).

End Backend.
Arguments Net : clear implicits.



(** An entry of its result, {"title", "url", "snippet"}. *)
Record plain_source : Type := mkPlain {
  p_title : string; p_url : string; p_snippet : string }.

Definition plain_of_text (s : string) : list plain_source :=
  let s := strip s in
  if nonempty s
  then [ {| p_title := EmptyString; p_url := EmptyString; p_snippet := s |} ]
  else [].



(** An element of a source list that yields no block: not a dict, or a
    dict whose content and snippet are both missing, [None] or empty. *)
Definition no_body (it : item) : Prop :=
  match it with
  | IDict d => truthy (get d "content") = false /\ truthy (get d "snippet") = false
  | IOther => True
  end.

End Summarizer.

(* ================================================================== *)
(** * app.py: sources, sessions and the two request handlers *)
(* ================================================================== *)

(** What [app.py] imports and calls but does not define.  Every call
    acts on the world [W] outside the process and may raise.  A
    collaborator reads the lists and dicts it is given and does not
    update them in place ([summarizer.py] builds new lists and only
    reads the source dicts), so its arguments are values. *)
Class Collaborators (W : Type) : Type := {
  (** [search.web_search(query, count)] *)
  web_search : string -> Z -> W -> outcome (list item) * W;
  (** [trafilatura.fetch_url(url)]; [None] when nothing was downloaded *)
  fetch_url : string -> W -> outcome (option string) * W;
  (** [trafilatura.extract(downloaded)]; [None] when nothing was extracted *)
  extract : string -> W -> outcome (option string) * W;
  (** [str(uuid.uuid4())] *)
  uuid4 : W -> string * W;
  (** [summarizer.generate_answer_from_sources(query, sources)] *)
  generate_answer_from_sources : string -> list item -> W -> outcome string * W;
  (** [summarizer.generate_general_answer(query)] *)
  generate_general_answer : string -> W -> outcome string * W;
  (** [summarizer.ChatBot().chat(history=history)] *)
  ChatBot_chat : list Message -> W -> outcome string * W
}.

Module App.
Import Py Eff Resolver.

(** Address of a list object. *)
Definition loc := positive.

(** What a handler returns: the JSON body and the status. *)
Inductive response : Type :=
| AskOk (answer : string) (sources : list item) (session_id : option string)
| ChatOk (session_id : string) (answer : string)
| Error (status : Z) (error : string).

Definition MAX_CHARS_PER_SOURCE : Z := 6000.

(** U+2026, as the bytes of its UTF-8 encoding. *)
Definition ellipsis : string :=
  String (ascii_of_nat 226) (String (ascii_of_nat 128) (String (ascii_of_nat 166) EmptyString)).

(** An entry of the history the chat page shows. *)
Record ui_message : Type := mkUi { sender : string; text : string }.

(** What [api_chat_history] returns. *)
Inductive history_response : Type :=
| HistoryOk (history : list ui_message)
| HistoryError (status : Z) (error : string).

(** A member of a JSON body, as far as the handlers can tell one from
    another: they test it for truth and call [strip] on it, which only
    a [str] has.  A number is falsy when it is zero, an array or an
    object when it is empty. *)
Inductive json : Type :=
| JNull
| JBool (b : bool)
| JNumber (zero : bool)
| JString (s : string)
| JArray (empty : bool)
| JObject (empty : bool).

(** [bool(v)] *)
Definition json_truthy (v : json) : bool :=
  match v with
  | JNull => false
  | JBool b => b
  | JNumber zero => negb zero
  | JString s => nonempty s
  | JArray empty => negb empty
  | JObject empty => negb empty
  end.

(** What [request.get_json(force=True)] returns: an object with its
    members, or a value that is not an object, of which the handlers
    only see whether it is truthy. *)
Inductive body : Type :=
| BObject (members : gmap string json)
| BValue (truthy : bool).

(** [data = request.get_json(force=True) or {}] and the look-up of
    [get] on it: a falsy body is replaced by the empty dict, and a
    truthy body that is not an object has no [get]. *)
Definition body_members (b : body) : outcome (gmap string json) :=
  match b with
  | BObject members => Ok members
  | BValue true => Raise "AttributeError"
  | BValue false => Ok ∅
  end.

(** [(data.get(key) or "").strip()]: a truthy member that is not a
    [str] has no [strip]. *)
Definition text_member (data : gmap string json) (key : string) : outcome string :=
  match data !! key with
  | Some (JString s) => Ok (strip s)
  | Some v => if json_truthy v then Raise "AttributeError" else Ok EmptyString
  | None => Ok EmptyString
  end.

Section Handlers.
Context {W : Type} {collab : Collaborators W}.

(** The program state: the two module-level dicts, the heap of the
    list objects that [SESSIONS] refers to, and the outside world.  A
    stored source list is never updated in place (the program only
    reads it with [get] and indexing), so [SOURCES] holds the lists
    themselves. *)
Record State : Type := mkState {
  SESSIONS : gmap string loc;
  SOURCES : gmap string (list (gmap string val));
  heap : gmap loc (list Message);
  world : W
}.

Definition set_SESSIONS (f : gmap string loc -> gmap string loc) (st : State) : State :=
  {| SESSIONS := f (SESSIONS st); SOURCES := SOURCES st; heap := heap st; world := world st |}.
Definition set_SOURCES
    (f : gmap string (list (gmap string val)) -> gmap string (list (gmap string val)))
    (st : State) : State :=
  {| SESSIONS := SESSIONS st; SOURCES := f (SOURCES st); heap := heap st; world := world st |}.
Definition set_heap (f : gmap loc (list Message) -> gmap loc (list Message)) (st : State) : State :=
  {| SESSIONS := SESSIONS st; SOURCES := SOURCES st; heap := f (heap st); world := world st |}.
Definition set_world (w : W) (st : State) : State :=
  {| SESSIONS := SESSIONS st; SOURCES := SOURCES st; heap := heap st; world := w |}.

(** A call to a collaborator. *)
Definition call {A} (f : W -> outcome A * W) : M State A :=
  fun st => let '(r, w) := f (world st) in (r, set_world w st).

(** A new list object. *)
Definition new_list (xs : list Message) : M State loc :=
  fun st =>
    let l := fresh (dom (heap st)) in
    (Ok l, set_heap <[l := xs]> st).

(** [lst.append(x)], in place. *)
Definition list_append (l : loc) (x : Message) : M State unit :=
  modify (set_heap (fun h => <[l := (default [] (h !! l) ++ [x])%list]> h)).

(** The elements of a list object. *)
Definition list_read (l : loc) : M State (list Message) :=
  gets (fun st => default [] (heap st !! l)).

(** The transcript stored for a session id, if any. *)
Definition history_of (st : State) (session_id : string) : option (list Message) :=
  l ← SESSIONS st !! session_id; heap st !! l.

Definition _clean_text (txt : string) : string :=
  if is_empty txt then EmptyString else strip (collapse_ws txt).

Definition fetch_full_article (url : val) : M State string :=
  match url with
  | VStr u =>
      if nonempty u then
        try_except
          (let* downloaded := call (fetch_url u) in
           match downloaded with
           | Some d =>
               if nonempty d then
                 let* text := call (extract d) in
                 ret (_clean_text (default EmptyString text))
               else ret EmptyString
           | None => ret EmptyString
           end)
          (fun _ => ret EmptyString)
      else ret EmptyString
  | VNone => ret EmptyString
  end.

Definition source_dict (title url snippet content : val) : gmap string val :=
  <["title" := title]> (<["url" := url]> (<["snippet" := snippet]>
    (<["content" := content]> ∅))).

Fixpoint build_full_sources (results : list item) : M State (list (gmap string val)) :=
  match results with
  | [] => ret []
  | r :: results' =>
      let '(title, url, snippet) :=
        match r with
        | IDict d =>
            (get_or d "title" (VStr EmptyString),
             or_str (py_or (get d "url") (get d "link")) EmptyString,
             get_or d "snippet" (VStr EmptyString))
        | IOther => (VStr EmptyString, EmptyString, VStr EmptyString)
        end in
      let* content :=
        (if nonempty url then fetch_full_article (VStr url) else ret EmptyString) in
      let content := if nonempty content then slice_to (Z.to_nat MAX_CHARS_PER_SOURCE) content else content in
      let* rest := build_full_sources results' in
      ret (source_dict title (VStr url) snippet (VStr content) :: rest)
  end.

(** The loop of [_sources_as_system_block], [enumerate(sources, start=1)]. *)
Fixpoint source_lines (i : Z) (sources : list (gmap string val)) : list string :=
  match sources with
  | [] => []
  | s :: rest =>
      let title := get_or s "title" (VStr EmptyString) in
      let url := get_or s "url" (VStr EmptyString) in
      let body := or_str (py_or (get s "content") (get s "snippet")) EmptyString in
      let excerpt :=
        if 500 <? len body then slice_to 500 body ++ ellipsis else body in
      ("[" ++ str i ++ "] " ++ fmt title ++ nl ++ "URL: " ++ fmt url ++ nl ++ excerpt)
        :: source_lines (i + 1) rest
  end.

Definition _sources_as_system_block (sources : list (gmap string val)) : string :=
  join (nl ++ nl) (source_lines 1 sources).

Definition _new_session_id : M State string :=
  fun st => let '(u, w) := uuid4 (world st) in (Ok u, set_world w st).

Definition instruction : string :=
  "You are allowed to use the following RAG sources in all future responses. "
  ++ "When the user says 'first link' or 'second link', refer to the numbered list below.".

Definition _create_initial_session
    (user_q bot_answer_plain : string) (sources : list (gmap string val)) : M State string :=
  let* session_id := _new_session_id in
  let sys_sources_block := _sources_as_system_block sources in
  let* l := new_list
    [ {| role := "system"; content := instruction |};
      {| role := "system"; content := "RAG_SOURCES:" ++ nl ++ sys_sources_block |};
      {| role := "user"; content := user_q |};
      {| role := "assistant"; content := bot_answer_plain |} ] in
  let* _ := modify (set_SESSIONS <[session_id := l]>) in
  let* _ := modify (set_SOURCES <[session_id := sources]>) in
  ret session_id.

(** [SESSIONS.get(session_id, [])]: the stored list object itself, or a
    new empty list when the id is unknown. *)
Definition SESSIONS_get (session_id : string) : M State loc :=
  let* found := gets (fun st => SESSIONS st !! session_id) in
  match found with
  | Some l => ret l
  | None => new_list []
  end.

Definition _append_and_get_reply (session_id user_text : string) : M State string :=
  let* history := SESSIONS_get session_id in
  let* _ := list_append history {| role := "user"; content := user_text |} in
  let* msgs := list_read history in
  let* reply := call (ChatBot_chat msgs) in
  let* _ := list_append history {| role := "assistant"; content := reply |} in
  let* _ := modify (set_SESSIONS <[session_id := history]>) in
  ret reply.

(** [api_ask]; [data] is the JSON body of the request. *)
Definition api_ask (data : gmap string val) : M State response :=
  let query := strip (or_str (get data "query") EmptyString) in
  if is_empty query then ret (Error 400 "Query parameter is required.")
  else
    let* '(answer, results, full_sources) :=
      (if is_simple_logical_query query then
         let* answer := call (generate_general_answer query) in
         ret (answer, [], [])
       else
         let* results := call (web_search query 6) in
         let* full_sources := build_full_sources results in
         if negb (is_empty_list full_sources) && (0 <? Z.of_nat (length results)) then
           let* answer := call (generate_answer_from_sources query (map IDict full_sources)) in
           if String.eqb answer RAG_FAILURE_CODE then
             let* answer := call (generate_general_answer query) in
             ret (answer, [], [])
           else ret (answer, results, full_sources)
         else
           let* answer := call (generate_general_answer query) in
           ret (answer, [], [])) in
    let* session_id :=
      (if nonempty answer && negb (startswith answer "ERROR:") then
         let plain_answer := replace answer "<br>" nl in
         let* sid := _create_initial_session query plain_answer full_sources in
         ret (Some sid)
       else ret None) in
    ret (AskOk (replace answer nl "<br>") results session_id).

(** [SOURCES.get(session_id) or []] *)
Definition stored_sources (session_id : string) : M State (list (gmap string val)) :=
  gets (fun st => default [] (SOURCES st !! session_id)).

(** [xs[i]] for [0 <= i]. *)
Definition index {A} (xs : list A) (i : Z) : M State A :=
  match xs !! Z.to_nat i with
  | Some x => ret x
  | None => raise "list index out of range"
  end.

(** The four statements that close both fast paths:
    [history = SESSIONS.get(session_id, [])], the two [append]s and
    [SESSIONS[session_id] = history]. *)
Definition record_turn (session_id user_msg reply : string) : M State unit :=
  let* history := SESSIONS_get session_id in
  let* _ := list_append history {| role := "user"; content := user_msg |} in
  let* _ := list_append history {| role := "assistant"; content := reply |} in
  modify (set_SESSIONS <[session_id := history]>).

(** The dict literal built from a stored source. *)
Definition copy_source (s : gmap string val) (content : val) : gmap string val :=
  source_dict (get_or s "title" (VStr EmptyString)) (get_or s "url" (VStr EmptyString))
              (get_or s "snippet" (VStr EmptyString)) content.

(** [reply = generate_answer_from_sources(question, sources)] and the
    fall-back to [generate_general_answer(user_msg)] on the sentinel. *)
Definition grounded_or_general (question user_msg : string) (sources : list (gmap string val))
  : M State string :=
  let* reply := call (generate_answer_from_sources question (map IDict sources)) in
  if String.eqb reply RAG_FAILURE_CODE
  then call (generate_general_answer user_msg)
  else ret reply.

(** The "compare X and Y" block of [api_chat]; [None] when control
    leaves the block without returning. *)
Definition compare_fast_path (session_id user_msg : string) : M State (option response) :=
  match detect_two_links user_msg with
  | Some (idx1, idx2) =>
      let* srcs := stored_sources session_id in
      let n := Z.of_nat (length srcs) in
      if (1 <=? idx1) && (idx1 <=? n) && (1 <=? idx2) && (idx2 <=? n) then
        let* s1 := index srcs (idx1 - 1) in
        let* s2 := index srcs (idx2 - 1) in
        let sources_for_model :=
          [ copy_source s1 (get_or s1 "content" (VStr EmptyString));
            copy_source s2 (get_or s2 "content" (VStr EmptyString)) ] in
        let question :=
          "Compare ONLY these two sources (# " ++ str idx1 ++ " and # " ++ str idx2 ++ "). "
          ++ "Highlight similarities, differences, main arguments, tone, and key insights. "
          ++ "User request: " ++ user_msg in
        let* reply := grounded_or_general question user_msg sources_for_model in
        let* _ := record_turn session_id user_msg reply in
        ret (Some (ChatOk session_id (replace reply nl "<br>")))
      else ret None
  | None => ret None
  end.

(** The source handed to the model on the single-index path: the
    stored dict, or, when it has neither content nor snippet, a new dict
    with the text fetched now. *)
Definition summarize_target (target : gmap string val) : M State (gmap string val) :=
  let body := strip (or_str (py_or (get target "content") (get target "snippet")) EmptyString) in
  if is_empty body then
    let* body := fetch_full_article (get_or target "url" (VStr EmptyString)) in
    ret (copy_source target (VStr body))
  else ret target.

(** The "summarize #N" block of [api_chat]. *)
Definition summarize_fast_path (session_id user_msg : string) : M State (option response) :=
  match detect_link_index user_msg with
  | Some idx =>
      let* srcs := stored_sources session_id in
      if (1 <=? idx) && (idx <=? Z.of_nat (length srcs)) then
        let* target := index srcs (idx - 1) in
        let* target := summarize_target target in
        let question := "Summarize ONLY the selected source (#" ++ str idx ++ "). " ++ user_msg in
        let* reply := grounded_or_general question user_msg [target] in
        let* _ := record_turn session_id user_msg reply in
        ret (Some (ChatOk session_id (replace reply nl "<br>")))
      else ret None
  | None => ret None
  end.

Definition api_chat (data : gmap string val) : M State response :=
  let session_id := strip (or_str (get data "session_id") EmptyString) in
  let user_msg := strip (or_str (get data "query") EmptyString) in
  if is_empty session_id || is_empty user_msg
  then ret (Error 400 "session_id and query are required")
  else
    let* known := gets (fun st => bool_decide (is_Some (SESSIONS st !! session_id))) in
    if negb known then ret (Error 404 "Invalid or expired chat session ID.")
    else
      try_except
        (let* fast := compare_fast_path session_id user_msg in
         match fast with
         | Some resp => ret resp
         | None =>
             let* fast := summarize_fast_path session_id user_msg in
             match fast with
             | Some resp => ret resp
             | None =>
                 let* reply := _append_and_get_reply session_id user_msg in
                 ret (ChatOk session_id (replace reply nl "<br>"))
             end
         end)
        (fun e =>
           ret (Error 500
                  ("An error occurred while communicating with the model. Details: " ++ e))).

(** The loop body of [api_chat_history]. *)
Definition ui_of (msg : Message) : ui_message :=
  let role := lower (role msg) in
  {| sender := if String.eqb role "user" then "user" else "bot";
     text := replace (content msg) nl "<br>" |}.

(** [api_chat_history]; [arg] is [request.args.get("session_id")]. *)
Definition api_chat_history (arg : val) : M State history_response :=
  let session_id := strip (or_str arg EmptyString) in
  if is_empty session_id then ret (HistoryError 400 "session_id is required")
  else
    let* found := gets (fun st => SESSIONS st !! session_id) in
    match found with
    | None => ret (HistoryError 400 "Invalid or missing chat session ID.")
    | Some history =>
        let* msgs := list_read history in
        ret (HistoryOk (map ui_of msgs))
    end.

(** ** The handlers on the body as it arrives *)

(** An outcome as a computation that leaves the state alone. *)
Definition of_outcome {A} (o : outcome A) : M State A := fun st => (o, st).

(** [api_chat] on the body as it arrives.  Its first three statements,
    [data = request.get_json(force=True) or {}] and the two
    [(data.get(...) or "").strip()], come before the [try] and may
    raise.  What follows them uses the body no more: it is [api_chat]
    on the two texts read, which [api_chat] reads back unchanged. *)
Definition api_chat_request (b : body) : M State response :=
  let* data := of_outcome (body_members b) in
  let* session_id := of_outcome (text_member data "session_id") in
  let* user_msg := of_outcome (text_member data "query") in
  api_chat (<["session_id" := VStr session_id]> (<["query" := VStr user_msg]> ∅)).

(** [api_ask] on the body as it arrives: [data = ... or {}] and
    [query = (data.get("query") or "").strip()], then [api_ask] on the
    text read.  The handler has no [try]. *)
Definition api_ask_request (b : body) : M State response :=
  let* data := of_outcome (body_members b) in
  let* query := of_outcome (text_member data "query") in
  api_ask (<["query" := VStr query]> ∅).

(** ** Properties of sources and computations *)

(** A source dict whose content is a string of at most
    [MAX_CHARS_PER_SOURCE] characters. *)
Definition capped (d : gmap string val) : Prop :=
  exists c, d !! "content" = Some (VStr c) /\ len c <= MAX_CHARS_PER_SOURCE.

(** The fields of a response. *)
Definition answer_of (r : response) : option string :=
  match r with
  | AskOk answer _ _ => Some answer
  | ChatOk _ answer => Some answer
  | Error _ _ => None
  end.

Definition session_id_of (r : response) : option string :=
  match r with
  | AskOk _ _ session_id => session_id
  | ChatOk session_id _ => Some session_id
  | Error _ _ => None
  end.

Definition status_of (r : response) : Z :=
  match r with
  | Error status _ => status
  | _ => 200
  end.

(** What a computation returned, if it did not raise. *)
Definition returned {A} (o : outcome A) : option A :=
  match o with
  | Ok a => Some a
  | Raise _ => None
  end.

(** [len(d["content"])] *)
Definition content_length (d : gmap string val) : option Z :=
  match d !! "content" with
  | Some (VStr c) => Some (len c)
  | _ => None
  end.

(** A computation that leaves [SOURCES] as it found it, whatever it
    returns or raises. *)
Definition keeps_sources {A} (c : M State A) : Prop :=
  forall st, SOURCES (snd (c st)) = SOURCES st.

(** A computation that changes nothing but the outside world. *)
Definition world_only {A} (c : M State A) : Prop :=
  forall st, exists w, snd (c st) = set_world w st.

(** The shape the store keeps: every session has a transcript object of
    its own and a source list. *)
Definition well_formed (st : State) : Prop :=
  (forall sid l, SESSIONS st !! sid = Some l -> is_Some (heap st !! l))
  /\ (forall sid1 sid2 l,
        SESSIONS st !! sid1 = Some l -> SESSIONS st !! sid2 = Some l -> sid1 = sid2)
  /\ (forall sid, is_Some (SESSIONS st !! sid) <-> is_Some (SOURCES st !! sid)).

(** ** What a handler does to the store *)

(** [st'] has the dicts and the list objects of [st]. *)
Definition same_store (st st' : State) : Prop :=
  SESSIONS st' = SESSIONS st /\ SOURCES st' = SOURCES st /\ heap st' = heap st.

(** [st'] is [st] with [extra] appended to the list object [l]. *)
Definition appended (l : loc) (extra : list Message) (st st' : State) : Prop :=
  SESSIONS st' = SESSIONS st /\ SOURCES st' = SOURCES st
  /\ heap st' = <[l := (default [] (heap st !! l) ++ extra)%list]> (heap st).

(** The pair that the first fast path of [api_chat] acts on. *)
Definition pair_selected (srcs : list (gmap string val)) (user_msg : string) : option (Z * Z) :=
  match detect_two_links user_msg with
  | Some (idx1, idx2) =>
      let n := Z.of_nat (length srcs) in
      if (1 <=? idx1) && (idx1 <=? n) && (1 <=? idx2) && (idx2 <=? n)
      then Some (idx1, idx2) else None
  | None => None
  end.

(** The index that the second fast path of [api_chat] acts on. *)
Definition index_selected (srcs : list (gmap string val)) (user_msg : string) : option Z :=
  match detect_link_index user_msg with
  | Some idx =>
      if (1 <=? idx) && (idx <=? Z.of_nat (length srcs)) then Some idx else None
  | None => None
  end.

(** The transcript a new session starts with. *)
Definition initial_transcript (user_q bot_answer_plain : string)
    (sources : list (gmap string val)) : list Message :=
  [ {| role := "system"; content := instruction |};
    {| role := "system"; content := "RAG_SOURCES:" ++ nl ++ _sources_as_system_block sources |};
    {| role := "user"; content := user_q |};
    {| role := "assistant"; content := bot_answer_plain |} ].

(** The two messages a follow-up adds to a transcript. *)
Definition user_turn (u : string) : Message := {| role := "user"; content := u |}.
Definition assistant_turn (r : string) : Message := {| role := "assistant"; content := r |}.

(** The fields [build_full_sources] reads from a search result. *)
Definition result_fields (r : item) : val * string * val :=
  match r with
  | IDict d =>
      (get_or d "title" (VStr EmptyString),
       or_str (py_or (get d "url") (get d "link")) EmptyString,
       get_or d "snippet" (VStr EmptyString))
  | IOther => (VStr EmptyString, EmptyString, VStr EmptyString)
  end.

(** An entry that [build_full_sources] may make of the result [r]. *)
Definition built_from (r : item) (s : gmap string val) : Prop :=
  let '(title, url, snippet) := result_fields r in
  exists content,
    s = source_dict title (VStr url) snippet (VStr content)
    /\ len content <= MAX_CHARS_PER_SOURCE
    /\ (is_empty url = true -> content = EmptyString).


End Handlers.
Arguments State : clear implicits.
End App.

(* ================================================================== *)
(** * The program: app.py on top of summarizer.py *)
(* ================================================================== *)

Module Program.
Section Oracles.
Context {W : Type}.
Variable post_chat : list Message -> W -> outcome string * W.
Variable search : string -> Z -> W -> outcome (list item) * W.
Variable download : string -> W -> outcome (option string) * W.
Variable extract_text : string -> W -> outcome (option string) * W.
Variable new_uuid : W -> string * W.

(** A call that does not go through [_post_json]. *)
Definition outside {A} (f : W -> A * W) (n : Summarizer.Net W) : A * Summarizer.Net W :=
  let '(a, w) := f (Summarizer.ext n) in
  (a, {| Summarizer.ext := w; Summarizer.sent := Summarizer.sent n |}).

Definition collaborators : Collaborators (Summarizer.Net W) := {|
  web_search q count := outside (search q count);
  fetch_url u := outside (download u);
  extract d := outside (extract_text d);
  uuid4 := outside new_uuid;
  generate_answer_from_sources := Summarizer.generate_answer_from_sources post_chat;
  generate_general_answer := Summarizer.generate_general_answer post_chat;
  ChatBot_chat := Summarizer.ChatBot_chat post_chat
|}.

End Oracles.
End Program.

(* ================================================================== *)
(** * search.py *)
(* ================================================================== *)

Module Search.

(** What [GoogleSearch(params).get_dict()] returns, as far as
    [web_search] reads it: whether the key "error" is there, and the
    list under "organic_results" if that key is there. *)
Record serp_reply : Type := mkReply {
  has_error : bool;
  organic_results : option (list item)
}.

Definition result_dict (title url snippet : val) : gmap string val :=
  <["title" := title]> (<["url" := url]> (<["snippet" := snippet]> ∅)).

Definition mock_results : list item :=
  [ IDict (result_dict (VStr "Mock Result 1") (VStr "https://example.com/1")
             (VStr "Mock snippet from mock search results."));
    IDict (result_dict (VStr "Mock Result 2") (VStr "https://example.com/2")
             (VStr "Another mock snippet from mock search results.")) ].

(** The [for item in ...] loop; [None] when an element has no [get]
    and the loop raises. *)
Fixpoint extract_results (items : list item) : option (list item) :=
  match items with
  | [] => Some []
  | IDict d :: rest =>
      match extract_results rest with
      | Some rs => Some (IDict (result_dict (get d "title") (get d "link") (get d "snippet")) :: rs)
      | None => None
      end
  | IOther :: _ => None
  end.

Section Provider.
Context {W : Type}.

(** [os.getenv("SERPAPI_API_KEY")] *)
Variable SERPAPI_API_KEY : val.

(** [GoogleSearch(params).get_dict()] for the query and the count. *)
Variable get_dict : string -> Z -> W -> outcome serp_reply * W.

Definition web_search (query : string) (count : Z) (w : W) : outcome (list item) * W :=
  if negb (truthy SERPAPI_API_KEY) then (Ok mock_results, w)
  else
    match get_dict query count w with
    | (Ok results, w') =>
        if has_error results then (Ok [], w')
        else
          match extract_results (default [] (organic_results results)) with
          | Some extracted_results => (Ok extracted_results, w')
          | None => (Ok [], w')
          end
    | (Raise _, w') => (Ok [], w')
    end.

End Provider.

End Search.

(* ================================================================== *)
(** * The three files together *)
(* ================================================================== *)

Module Assembly.
Section Parts.
Context {W : Type}.
Variable post_chat : list Message -> W -> outcome string * W.
Variable SERPAPI_API_KEY : val.
Variable get_dict : string -> Z -> W -> outcome Search.serp_reply * W.
Variable download : string -> W -> outcome (option string) * W.
Variable extract_text : string -> W -> outcome (option string) * W.
Variable new_uuid : W -> string * W.

(** [app.py] with the search of [search.py] and the generators of
    [summarizer.py]. *)
Definition whole : Collaborators (Summarizer.Net W) :=
  Program.collaborators post_chat (Search.web_search SERPAPI_API_KEY get_dict)
    download extract_text new_uuid.

End Parts.
End Assembly.

(* ================================================================== *)
(** * Concrete worlds *)
(* ================================================================== *)

Module Scenario.
Import App.

(** The outside world: how many pages have been requested and how many
    chat requests have been posted. *)
Record env : Type := mkEnv { downloads : nat; posts : nat }.

(** An Ollama server that answers [up_for] requests and then times out. *)
Definition post_chat (up_for : nat) (_ : list Message) (w : env) : outcome string * env :=
  (if (posts w <? up_for)%nat then Ok "An answer [2]." else Raise "timed out",
   {| downloads := downloads w; posts := S (posts w) |}).

(** Two results; the first has a URL and no snippet, the second a
    snippet and no URL. *)
Definition results : list item :=
  [ IDict (<["title" := VStr "A"]> (<["url" := VStr "http://a"]>
            (<["snippet" := VStr EmptyString]> ∅)));
    IDict (<["title" := VStr "B"]> (<["url" := VStr EmptyString]>
            (<["snippet" := VStr "B in brief"]> ∅))) ].

Definition search (_ : string) (_ : Z) (w : env) : outcome (list item) * env :=
  (Ok results, w).

(** The first download fails, the later ones succeed. *)
Definition download (_ : string) (w : env) : outcome (option string) * env :=
  (if (downloads w =? 0)%nat then Raise "unreachable" else Ok (Some "<html>"),
   {| downloads := S (downloads w); posts := posts w |}).

Fixpoint letters (n : nat) : string :=
  match n with
  | O => EmptyString
  | S n' => String "a" (letters n')
  end.

(** The page holds 6001 characters of text. *)
Definition extract_text (_ : string) (w : env) : outcome (option string) * env :=
  (Ok (Some (letters (Z.to_nat 6001))), w).

Definition new_uuid (w : env) : string * env := ("sid-1", w).

(** An Ollama server that finds the sources insufficient when first
    asked and answers every later request. *)
Definition post_chat_insufficient (_ : list Message) (w : env) : outcome string * env :=
  (if (posts w =? 0)%nat then Ok "RAG_CONTEXT_INSUFFICIENT" else Ok "Paris.",
   {| downloads := downloads w; posts := S (posts w) |}).

Definition program_insufficient : Collaborators (Summarizer.Net env) :=
  Program.collaborators post_chat_insufficient search download extract_text new_uuid.

Definition program (up_for : nat) : Collaborators (Summarizer.Net env) :=
  Program.collaborators (post_chat up_for) search download extract_text new_uuid.

(** A program whose chat collaborator raises instead of returning. *)
Definition raising_chat : Collaborators (Summarizer.Net env) := {|
  web_search := @web_search _ (program 1);
  fetch_url := @fetch_url _ (program 1);
  extract := @extract _ (program 1);
  uuid4 := @uuid4 _ (program 1);
  generate_answer_from_sources := @generate_answer_from_sources _ (program 1);
  generate_general_answer := @generate_general_answer _ (program 1);
  ChatBot_chat _ n := (Raise "timed out", n)
|}.

(** A program whose grounded-answer collaborator raises. *)
Definition raising_grounded : Collaborators (Summarizer.Net env) := {|
  web_search := @web_search _ (program 1);
  fetch_url := @fetch_url _ (program 1);
  extract := @extract _ (program 1);
  uuid4 := @uuid4 _ (program 1);
  generate_answer_from_sources _ _ n := (Raise "timed out", n);
  generate_general_answer := @generate_general_answer _ (program 1);
  ChatBot_chat := @ChatBot_chat _ (program 1)
|}.

Definition start : State (Summarizer.Net env) :=
  {| SESSIONS := ∅; SOURCES := ∅; heap := ∅;
     world := {| Summarizer.ext := {| downloads := 0; posts := 0 |};
                 Summarizer.sent := [] |} |}.

Definition ask (query : string) : gmap string val := <["query" := VStr query]> ∅.

Definition follow_up (session_id query : string) : gmap string val :=
  <["session_id" := VStr session_id]> (<["query" := VStr query]> ∅).

Definition user_says (text : string) : Message := {| role := "user"; content := text |}.
Definition assistant_says (text : string) : Message :=
  {| role := "assistant"; content := text |}.

(** The state after a first request has been answered. *)
Definition after_ask (up_for : nat) : State (Summarizer.Net env) :=
  snd (@api_ask _ (program up_for) (ask "latest news on chip exports") start).

(** Session ids that differ from one request to the next: the id is
    numbered by the chat requests posted so far. *)
Definition numbered_uuid (w : env) : string * env :=
  ("sid-" ++ Py.str (Z.of_nat (posts w)), w).

Definition program_numbered (up_for : nat) : Collaborators (Summarizer.Net env) :=
  Program.collaborators (post_chat up_for) search download extract_text numbered_uuid.

(** The state after two first requests: the sessions "sid-1" and
    "sid-2", each with a transcript of its own. *)
Definition two_sessions : State (Summarizer.Net env) :=
  snd (@api_ask _ (program_numbered 3) (ask "3+3")
         (snd (@api_ask _ (program_numbered 3) (ask "2+2") start))).

End Scenario.

(* ================================================================== *)
(** * Facts about the string primitives *)
(* ================================================================== *)

Module PyFacts.
Import Py.

Ltac by_cases_on_char c :=
  destruct c as [[] [] [] [] [] [] [] []]; vm_compute; reflexivity.

Lemma is_space_lower_char c : is_space (lower_char c) = is_space c.
Proof. by_cases_on_char c. Qed.

Lemma is_digit_lower_char c : is_digit (lower_char c) = is_digit c.
Proof. by_cases_on_char c. Qed.

Lemma lower_char_idem c : lower_char (lower_char c) = lower_char c.
Proof. by_cases_on_char c. Qed.

Lemma digit_not_space c : is_digit c = true -> is_space c = false.
Proof. destruct c as [[] [] [] [] [] [] [] []]; vm_compute; congruence. Qed.

Lemma eqb_space_mismatch a c :
  is_space a = false -> is_space c = true -> Ascii.eqb a c = false.
Proof.
  intros Ha Hc. destruct (Ascii.eqb a c) eqn:E; [|reflexivity].
  apply Ascii.eqb_eq in E. subst. congruence.
Qed.

Lemma lower_idem s : lower (lower s) = lower s.
Proof. induction s as [|c s IH]; simpl; [reflexivity|]. now rewrite lower_char_idem, IH. Qed.

Lemma is_empty_lower s : is_empty (lower s) = is_empty s.
Proof. now destruct s. Qed.

Lemma is_empty_true s : is_empty s = true -> s = EmptyString.
Proof. now destruct s. Qed.

Lemma lower_lstrip s : lower (lstrip s) = lstrip (lower s).
Proof.
  induction s as [|c s IH]; simpl; [reflexivity|].
  rewrite is_space_lower_char. now destruct (is_space c).
Qed.

Lemma lower_rstrip s : lower (rstrip s) = rstrip (lower s).
Proof.
  induction s as [|c s IH]; simpl; [reflexivity|].
  rewrite is_space_lower_char, <- IH, is_empty_lower.
  now destruct (is_space c && is_empty (rstrip s)).
Qed.

Lemma lower_strip s : lower (strip s) = strip (lower s).
Proof. unfold strip. now rewrite lower_rstrip, lower_lstrip. Qed.

(** ** Blank strings and stripping *)

Lemma rstrip_empty_blank s : rstrip s = EmptyString -> all_char is_space s = true.
Proof.
  induction s as [|c s IH]; simpl; [reflexivity|].
  destruct (is_space c); simpl; [|discriminate].
  destruct (rstrip s); simpl; [auto|discriminate].
Qed.

Lemma rstrip_idem s : rstrip (rstrip s) = rstrip s.
Proof.
  induction s as [|c s IH]; simpl; [reflexivity|].
  destruct (is_space c && is_empty (rstrip s)) eqn:E; simpl; [reflexivity|].
  now rewrite IH, E.
Qed.

Lemma lstrip_no_lead s : no_lead (lstrip s) = true.
Proof.
  induction s as [|c s IH]; simpl; [reflexivity|].
  destruct (is_space c) eqn:E; [assumption|]. simpl. now rewrite E.
Qed.

Lemma lstrip_fixed s : no_lead s = true -> lstrip s = s.
Proof. destruct s as [|c s]; simpl; [reflexivity|]. now destruct (is_space c). Qed.

Lemma rstrip_no_lead s : no_lead s = true -> no_lead (rstrip s) = true.
Proof.
  destruct s as [|c s]; simpl; [reflexivity|].
  destruct (is_space c) eqn:E; simpl; [discriminate|]. now rewrite E.
Qed.

Lemma strip_idem s : strip (strip s) = strip s.
Proof.
  unfold strip.
  rewrite (lstrip_fixed (rstrip (lstrip s))).
  - apply rstrip_idem.
  - apply rstrip_no_lead, lstrip_no_lead.
Qed.

Lemma strip_lower_idem s : strip (lower (strip (lower s))) = strip (lower s).
Proof. now rewrite <- lower_strip, strip_idem, lower_strip, lower_idem. Qed.

(** ** Characters, tokens and substrings under [strip] and [lower] *)

Section AnyChar.
Variable p : ascii -> bool.
Hypothesis p_not_space : forall c, p c = true -> is_space c = false.

Lemma any_char_blank s : all_char is_space s = true -> any_char p s = false.
Proof using p_not_space.
  induction s as [|c s IH]; simpl; [reflexivity|].
  intros H. apply andb_prop in H as [Hc Hs].
  destruct (p c) eqn:E; [apply p_not_space in E; congruence|]. now apply IH.
Qed.

Lemma any_char_lstrip s : any_char p (lstrip s) = any_char p s.
Proof using p_not_space.
  induction s as [|c s IH]; simpl; [reflexivity|].
  destruct (is_space c) eqn:E; [|reflexivity].
  destruct (p c) eqn:Ep; [apply p_not_space in Ep; congruence|]. exact IH.
Qed.

Lemma any_char_rstrip s : any_char p (rstrip s) = any_char p s.
Proof using p_not_space.
  induction s as [|c s IH]; simpl; [reflexivity|].
  destruct (is_space c && is_empty (rstrip s)) eqn:E; simpl; [|now rewrite IH].
  apply andb_prop in E as [Hc Hr]. apply is_empty_true in Hr.
  destruct (p c) eqn:Ep; [apply p_not_space in Ep; congruence|].
  simpl. symmetry. now apply any_char_blank, rstrip_empty_blank.
Qed.

Lemma any_char_strip s : any_char p (strip s) = any_char p s.
Proof using p_not_space. unfold strip. now rewrite any_char_rstrip, any_char_lstrip. Qed.

End AnyChar.

Lemma any_digit_lower s : any_char is_digit (lower s) = any_char is_digit s.
Proof. induction s as [|c s IH]; simpl; [reflexivity|]. now rewrite is_digit_lower_char, IH. Qed.

Lemma split_from_lower_length s : forall t1 t2,
  is_empty t1 = is_empty t2 ->
  length (split_from t1 (lower s)) = length (split_from t2 s).
Proof.
  induction s as [|c s IH]; simpl; intros t1 t2 E.
  - rewrite E. now destruct (is_empty t2).
  - rewrite is_space_lower_char. destruct (is_space c).
    + rewrite E. destruct (is_empty t2); simpl; now rewrite (IH EmptyString EmptyString).
    + apply IH. now destruct t1, t2.
Qed.

Lemma split_lstrip s : split (lstrip s) = split s.
Proof.
  unfold split. induction s as [|c s IH]; simpl; [reflexivity|].
  destruct (is_space c) eqn:E; simpl; [exact IH|now rewrite E].
Qed.

Lemma split_from_rstrip s : forall tok, split_from tok (rstrip s) = split_from tok s.
Proof.
  induction s as [|c s IH]; simpl; intros tok; [reflexivity|].
  destruct (is_space c && is_empty (rstrip s)) eqn:E; simpl.
  - apply andb_prop in E as [Hc Hr]. apply is_empty_true in Hr.
    rewrite Hc. specialize (IH EmptyString). rewrite Hr in IH. simpl in IH.
    rewrite <- IH. reflexivity.
  - destruct (is_space c); now rewrite IH.
Qed.

Lemma split_strip s : split (strip s) = split s.
Proof. unfold strip, split. rewrite split_from_rstrip. apply split_lstrip. Qed.

Lemma ends_solid_tail a m : ends_solid (String a m) = true -> ends_solid m = true.
Proof. destruct m; simpl; auto. Qed.

Lemma startswith_blank s m :
  all_char is_space s = true -> ends_solid m = true -> is_empty m = false ->
  startswith s m = false.
Proof.
  revert m. induction s as [|c s IH]; intros [|a m] Hs Hm Hne; simpl in *; try congruence.
  apply andb_prop in Hs as [Hc Hs].
  destruct m as [|b m].
  - apply negb_true_iff in Hm. rewrite (eqb_space_mismatch a c); auto.
  - rewrite (IH (String b m)); auto. apply andb_false_r.
Qed.

Lemma contains_blank s m :
  all_char is_space s = true -> starts_solid m = true -> contains m s = false.
Proof.
  intros Hs Hm. destruct m as [|a m]; [discriminate|]. simpl in Hm.
  apply negb_true_iff in Hm.
  induction s as [|c s IH]; simpl in *; [reflexivity|].
  apply andb_prop in Hs as [Hc Hs].
  rewrite (eqb_space_mismatch a c); auto.
Qed.

Lemma startswith_rstrip s : forall m,
  ends_solid m = true -> startswith (rstrip s) m = startswith s m.
Proof.
  induction s as [|c s IH]; intros m Hm; simpl; [reflexivity|].
  destruct (is_space c && is_empty (rstrip s)) eqn:E.
  - apply andb_prop in E as [Hc Hr]. apply is_empty_true in Hr.
    destruct m as [|a m]; [now destruct (rstrip s)|].
    symmetry. apply (startswith_blank (String c s) (String a m)); auto.
    simpl. rewrite Hc. now apply rstrip_empty_blank.
  - destruct m as [|a m]; simpl; [reflexivity|].
    rewrite IH; [reflexivity|]. eapply ends_solid_tail; eauto.
Qed.

Lemma contains_lstrip s m : starts_solid m = true -> contains m (lstrip s) = contains m s.
Proof.
  intros Hm. induction s as [|c s IH]; [reflexivity|].
  simpl lstrip. destruct (is_space c) eqn:E; [|reflexivity].
  rewrite IH. destruct m as [|a m]; [discriminate|].
  simpl in Hm. apply negb_true_iff in Hm.
  simpl. now rewrite (eqb_space_mismatch a c).
Qed.

Lemma contains_rstrip s m :
  starts_solid m = true -> ends_solid m = true ->
  contains m (rstrip s) = contains m s.
Proof.
  intros Hm He. induction s as [|c s IH]; [reflexivity|].
  simpl rstrip. destruct (is_space c && is_empty (rstrip s)) eqn:E.
  - apply andb_prop in E as [Hc Hr]. apply is_empty_true in Hr.
    symmetry. rewrite (contains_blank (String c s)); auto.
    + now destruct m.
    + simpl. rewrite Hc. now apply rstrip_empty_blank.
  - change (contains m (String c (rstrip s)))
      with (startswith (String c (rstrip s)) m || contains m (rstrip s)).
    change (contains m (String c s)) with (startswith (String c s) m || contains m s).
    rewrite IH. f_equal.
    assert (H : rstrip (String c s) = String c (rstrip s)) by (simpl; now rewrite E).
    rewrite <- H. now apply startswith_rstrip.
Qed.

Lemma contains_strip s m :
  starts_solid m = true -> ends_solid m = true ->
  contains m (strip s) = contains m s.
Proof. intros. unfold strip. rewrite contains_rstrip, contains_lstrip; auto. Qed.

End PyFacts.

(* ================================================================== *)
(** * The matcher against the meaning of patterns *)
(* ================================================================== *)

Module ReFacts.
Import Py Re.

Lemma app_cons a (s t : string) : String a s ++ t = String a (s ++ t).
Proof. reflexivity. Qed.

Lemma app_empty_l (s : string) : EmptyString ++ s = s.
Proof. reflexivity. Qed.

Lemma app_assoc' (a b c : string) : (a ++ b) ++ c = a ++ (b ++ c).
Proof.
  induction a as [|x a IH]; [reflexivity|]. rewrite !app_cons. now rewrite IH.
Qed.

Lemma app_length' (a b : string) :
  String.length (a ++ b) = (String.length a + String.length b)%nat.
Proof.
  induction a as [|x a IH]; [reflexivity|]. rewrite app_cons. simpl. now rewrite IH.
Qed.

Lemma startswith_split s : forall l,
  startswith s l = true -> s = l ++ slice_from (String.length l) s.
Proof.
  induction s as [|a s IH]; intros [|b l]; simpl; try reflexivity; try discriminate.
  intros H. apply andb_prop in H as [Hab Hl]. apply Ascii.eqb_eq in Hab. subst.
  rewrite app_cons. f_equal. now apply IH.
Qed.

Lemma last_of_app t1 : forall t2 prev,
  last_of (t1 ++ t2) prev = last_of t2 (last_of t1 prev).
Proof.
  induction t1 as [|a t1 IH]; intros; [reflexivity|]. rewrite app_cons. simpl. apply IH.
Qed.

Lemma slice_to_app t : forall rest,
  slice_to (String.length (t ++ rest) - String.length rest) (t ++ rest) = t.
Proof.
  intros rest. rewrite app_length'.
  replace (String.length t + String.length rest - String.length rest)%nat
    with (String.length t) by lia.
  induction t as [|a t IH]; [now destruct rest|].
  rewrite app_cons. simpl. now rewrite IH.
Qed.

Lemma rep_sound {A} p s : forall lo prev (k : option ascii -> string -> option A) x,
  rep p lo prev s k = Some x ->
  exists t rest,
    s = t ++ rest /\ all_char p t = true /\ (lo <= String.length t)%nat
    /\ k (last_of t prev) rest = Some x.
Proof.
  induction s as [|a s IH]; intros lo prev k x; cbn [rep].
  - destruct (lo =? 0)%nat eqn:E; [|discriminate].
    apply Nat.eqb_eq in E. subst. intros H.
    exists EmptyString, EmptyString. repeat split; auto.
  - assert (Hstop : (if (lo =? 0)%nat then k prev (String a s) else None) = Some x ->
              exists t rest, String a s = t ++ rest /\ all_char p t = true
                /\ (lo <= String.length t)%nat /\ k (last_of t prev) rest = Some x).
    { destruct (lo =? 0)%nat eqn:E; [|discriminate].
      apply Nat.eqb_eq in E. subst. intros H.
      exists EmptyString, (String a s). repeat split; auto. }
    destruct (p a) eqn:Hp; [|exact Hstop].
    destruct (rep p (Nat.pred lo) (Some a) s k) as [y|] eqn:E; [|exact Hstop].
    intros [= <-].
    destruct (IH _ _ _ _ E) as (t & rest & -> & Hall & Hlo & Hk).
    exists (String a t), rest. rewrite app_cons. simpl. rewrite Hp, Hall.
    repeat split; auto. lia.
Qed.

Lemma run_sound {A} r : forall prev s c (k : option ascii -> string -> caps -> option A) x,
  run r prev s c k = Some x ->
  exists t rest c',
    s = t ++ rest /\ matches r prev t rest c c' /\ k (last_of t prev) rest c' = Some x.
Proof.
  induction r as [l|lo p|r IH|r1 IH1 r2 IH2|r1 IH1 r2 IH2|n r IH|];
    intros prev s c k x; cbn [run].
  - destruct (startswith s l) eqn:E; [|discriminate]. intros H.
    exists l, (slice_from (String.length l) s), c.
    split; [now apply startswith_split|]. split; [constructor|exact H].
  - intros H. apply rep_sound in H as (t & rest & -> & Hall & Hlo & Hk).
    exists t, rest, c. split; [reflexivity|]. split; [now constructor|exact Hk].
  - destruct (run r prev s c k) as [y|] eqn:E.
    + intros [= <-]. apply IH in E as (t & rest & c' & -> & Hm & Hk).
      exists t, rest, c'. split; [reflexivity|]. split; [now constructor|exact Hk].
    + intros H. exists EmptyString, s, c. split; [reflexivity|].
      split; [apply M_opt_none|exact H].
  - destruct (run r1 prev s c k) as [y|] eqn:E.
    + intros [= <-]. apply IH1 in E as (t & rest & c' & -> & Hm & Hk).
      exists t, rest, c'. split; [reflexivity|]. split; [now apply M_alt_l|exact Hk].
    + intros H. apply IH2 in H as (t & rest & c' & -> & Hm & Hk).
      exists t, rest, c'. split; [reflexivity|]. split; [now apply M_alt_r|exact Hk].
  - intros H. apply IH1 in H as (t1 & rest1 & c1 & -> & Hm1 & H).
    apply IH2 in H as (t2 & rest & c2 & -> & Hm2 & Hk).
    exists (t1 ++ t2), rest, c2. split; [now rewrite app_assoc'|].
    split; [econstructor; eauto|]. now rewrite last_of_app.
  - intros H. apply IH in H as (t & rest & c' & -> & Hm & Hk).
    rewrite slice_to_app in Hk.
    exists t, rest, ((n, t) :: c'). split; [reflexivity|].
    split; [now constructor|exact Hk].
  - destruct (xorb (word_before prev) (word_at s)) eqn:E; [|discriminate]. intros H.
    exists EmptyString, s, c. split; [reflexivity|]. split; [now constructor|exact H].
Qed.

(** What [re.search] returns is a match of the pattern somewhere in the
    text. *)
Lemma search_from_sound r s : forall prev c,
  search_from r prev s = Some c ->
  exists before t rest,
    s = before ++ t ++ rest /\ matches r (last_of before prev) t rest [] c.
Proof.
  induction s as [|a s IH]; intros prev c; cbn [search_from].
  - destruct (run r prev EmptyString [] _) as [y|] eqn:E; [|discriminate].
    intros [= <-]. apply run_sound in E as (t & rest & c' & Hs & Hm & [= <-]).
    exists EmptyString, t, rest. split; [exact Hs|exact Hm].
  - destruct (run r prev (String a s) [] _) as [y|] eqn:E.
    + intros [= <-]. apply run_sound in E as (t & rest & c' & Hs & Hm & [= <-]).
      exists EmptyString, t, rest. split; [exact Hs|exact Hm].
    + intros H. apply IH in H as (before & t & rest & -> & Hm).
      exists (String a before), t, rest. split; [reflexivity|exact Hm].
Qed.

Lemma search_sound r s c :
  search r s = Some c ->
  exists before t rest, s = before ++ t ++ rest /\ matches r (last_of before None) t rest [] c.
Proof. apply search_from_sound. Qed.

Lemma slice_from_app l : forall rest, slice_from (String.length l) (l ++ rest) = rest.
Proof. induction l as [|a l IH]; intros rest; [now destruct rest|]. rewrite app_cons. apply IH. Qed.

Lemma startswith_app l : forall rest, startswith (l ++ rest) l = true.
Proof.
  induction l as [|a l IH]; intros rest; [now destruct rest|].
  rewrite app_cons. simpl. now rewrite Ascii.eqb_refl, IH.
Qed.

Lemma rep_complete {A} p t : forall lo prev rest (k : option ascii -> string -> option A) x,
  all_char p t = true -> (lo <= String.length t)%nat ->
  k (last_of t prev) rest = Some x ->
  exists y, rep p lo prev (t ++ rest) k = Some y.
Proof.
  induction t as [|a t IH]; intros lo prev rest k x Hall Hlo Hk.
  - simpl in Hlo. assert (lo = 0%nat) as -> by lia. rewrite app_empty_l.
    simpl in Hk. destruct rest as [|b rest]; cbn [rep Nat.eqb]; [eauto|].
    destruct (p b); [|eauto].
    destruct (rep p _ (Some b) rest k); eauto.
  - simpl in Hall. apply andb_prop in Hall as [Ha Hall].
    rewrite app_cons. cbn [rep]. rewrite Ha.
    destruct (IH (Nat.pred lo) (Some a) rest k x Hall) as [y ->]; [simpl in Hlo; lia|exact Hk|].
    eauto.
Qed.

(** The matcher finds a match whenever there is one that the rest of
    the pattern accepts. *)
Lemma run_complete {A} r prev t rest c c' :
  matches r prev t rest c c' ->
  forall (k : option ascii -> string -> caps -> option A) x,
    k (last_of t prev) rest c' = Some x ->
    exists y, run r prev (t ++ rest) c k = Some y.
Proof.
  induction 1 as [l prev rest c|lo p prev t rest c Hall Hlo|r prev t rest c c' _ IH
                 |r prev rest c|r1 r2 prev t rest c c' _ IH|r1 r2 prev t rest c c' _ IH
                 |r1 r2 prev t1 t2 rest c c1 c2 _ IH1 _ IH2|n r prev t rest c c' _ IH
                 |prev rest c Hb];
    intros k x Hk; cbn [run].
  - rewrite startswith_app, slice_from_app. eauto.
  - eapply rep_complete; eauto.
  - destruct (IH k x Hk) as [y ->]. eauto.
  - rewrite app_empty_l. destruct (run r prev rest c k); eauto.
  - destruct (IH k x Hk) as [y ->]. eauto.
  - destruct (run r1 prev (t ++ rest) c k); eauto.
  - rewrite app_assoc'. rewrite last_of_app in Hk.
    destruct (IH2 k x Hk) as [y Hy]. eapply IH1. exact Hy.
  - eapply IH. rewrite slice_to_app. exact Hk.
  - rewrite app_empty_l, Hb. eauto.
Qed.

Lemma search_from_complete r before : forall prev t rest c,
  matches r (last_of before prev) t rest [] c ->
  exists c', search_from r prev (before ++ t ++ rest) = Some c'.
Proof.
  induction before as [|a before IH]; intros prev t rest c Hm.
  - rewrite app_empty_l. simpl in Hm.
    destruct (run_complete r prev t rest [] c Hm (fun _ _ c => Some c) c eq_refl) as [y Hy].
    exists y. destruct (t ++ rest); cbn [search_from]; now rewrite Hy.
  - rewrite app_cons. cbn [search_from].
    destruct (run r prev _ [] _); [eauto|]. eapply IH. exact Hm.
Qed.

End ReFacts.

(* ================================================================== *)
(** * Facts about the classifier and the resolver *)
(* ================================================================== *)

Module ResolverFacts.
Import Py Re Resolver PyFacts ReFacts.

(** ** The classifier *)

Lemma keywords_solid :
  forallb (fun m => starts_solid m && ends_solid m) arithmetic_keywords = true.
Proof. reflexivity. Qed.

Lemma has_op_strip s :
  existsb (fun op => contains op (strip s)) arithmetic_keywords
  = existsb (fun op => contains op s) arithmetic_keywords.
Proof.
  pose proof keywords_solid as H.
  induction arithmetic_keywords as [|m ms IH]; [reflexivity|].
  simpl in H. apply andb_prop in H as [Hm Hms]. apply andb_prop in Hm as [Hs He].
  simpl. rewrite contains_strip by assumption. now rewrite IH.
Qed.

Lemma has_num_normalized s :
  any_char is_digit (strip (lower s)) = any_char is_digit s.
Proof.
  rewrite (any_char_strip is_digit digit_not_space). apply any_digit_lower.
Qed.

Lemma tokens_normalized s :
  length (split (strip (lower s))) = length (split s).
Proof.
  rewrite split_strip. unfold split. now apply split_from_lower_length.
Qed.

(** C7: [is_simple_logical_query] answers [True] exactly when the
    query contains one of the markers "+", "-", "*", "/", "x",
    "what is", "calculate", "solve" (letters compared without regard to
    case, since the query is lower-cased first), contains a digit, and
    splits into fewer than 7 blank-separated tokens.  "2+2" bypasses;
    "what is the capital of France" has no digit and does not. *)
Theorem C7_bypass_iff :
  (forall query,
     is_simple_logical_query query = true <->
       (exists marker, In marker arithmetic_keywords /\ contains marker (lower query) = true)
       /\ any_char is_digit query = true
       /\ (length (split query) < 7)%nat)
  /\ (forall query,
       lower query = query ->
       (is_simple_logical_query query = true <->
          (exists marker, In marker arithmetic_keywords /\ contains marker query = true)
          /\ any_char is_digit query = true
          /\ (length (split query) < 7)%nat))
  /\ is_simple_logical_query "2+2" = true
  /\ is_simple_logical_query "what is the capital of France" = false
  /\ any_char is_digit "what is the capital of France" = false
  /\ is_simple_logical_query "3 X 4" = true
  /\ is_simple_logical_query "1 + 2 + 3 + 4" = false.
Proof.
  assert (H : forall query,
     is_simple_logical_query query = true <->
       (exists marker, In marker arithmetic_keywords /\ contains marker (lower query) = true)
       /\ any_char is_digit query = true
       /\ (length (split query) < 7)%nat).
  { intros query. unfold is_simple_logical_query.
    rewrite has_op_strip, has_num_normalized, tokens_normalized.
    rewrite !andb_true_iff, existsb_exists, Z.ltb_lt.
    split.
    - intros [[H1 H2] H3]. repeat split; auto. lia.
    - intros [H1 [H2 H3]]. repeat split; auto. lia. }
  split; [exact H|].
  split; [intros query E; rewrite (H query), E; reflexivity|].
  repeat split; reflexivity.
Qed.

(** ** Single references *)

Lemma ordinal_of_positive table g i :
  Forall (fun wi => 1 <= snd wi) table -> ordinal_of table g = Some i -> 1 <= i.
Proof.
  induction 1 as [|[w k] table Hk _ IH]; cbn [ordinal_of]; [discriminate|].
  destruct (String.eqb w g); [now intros [= <-]|exact IH].
Qed.

Lemma ORDINAL_TO_INDEX_positive : Forall (fun wi => 1 <= snd wi) ORDINAL_TO_INDEX.
Proof. unfold ORDINAL_TO_INDEX. repeat constructor; simpl; lia. Qed.

Lemma link_patterns_loop_positive text pats idx :
  link_patterns_loop text pats = Some (Some idx) -> 1 <= idx.
Proof.
  induction pats as [|pat pats IH]; cbn [link_patterns_loop]; [discriminate|].
  destruct (search pat text) as [m|]; [|exact IH].
  destruct (group m 1) as [g|]; [|exact IH].
  destruct (negb (is_empty g) && isdigit g).
  - destruct (1 <=? int g) eqn:E; [|discriminate].
    intros [= <-]. now apply Z.leb_le.
  - destruct (ordinal_of ORDINAL_TO_INDEX g) as [i|] eqn:E; [|exact IH].
    intros [= <-]. eapply ordinal_of_positive; [apply ORDINAL_TO_INDEX_positive|exact E].
Qed.

Lemma ordinal_words_loop_positive text table idx :
  Forall (fun wi => 1 <= snd wi) table ->
  ordinal_words_loop text table = Some idx -> 1 <= idx.
Proof.
  induction 1 as [|[w k] table Hk _ IH]; cbn [ordinal_words_loop]; [discriminate|].
  destruct (search _ text); [now intros [= <-]|exact IH].
Qed.

Lemma detect_link_index_positive text idx :
  detect_link_index text = Some idx -> 1 <= idx.
Proof.
  unfold detect_link_index. destruct (is_empty text); [discriminate|].
  destruct (link_patterns_loop _ _) as [r|] eqn:E.
  - intros ->. eapply link_patterns_loop_positive; eauto.
  - apply ordinal_words_loop_positive, ORDINAL_TO_INDEX_positive.
Qed.

Lemma detect_link_index_normalized text :
  detect_link_index text = detect_link_index (strip (lower text)).
Proof.
  unfold detect_link_index. rewrite strip_lower_idem.
  destruct (is_empty (strip (lower text))) eqn:E.
  - apply is_empty_true in E. rewrite E. now destruct (is_empty text).
  - destruct text; [discriminate|reflexivity].
Qed.

Lemma isdigit_of_run d :
  all_char is_digit d = true -> (1 <= String.length d)%nat -> isdigit d = true.
Proof. intros H L. unfold isdigit. rewrite H. destruct d; simpl in *; [lia|reflexivity]. Qed.

(** A match of the first pattern captures a run of digits, *)
Lemma verb_number_group prev t rest c :
  matches verb_number prev t rest [] c ->
  exists g, group c 1 = Some g /\ isdigit g = true.
Proof.
  unfold verb_number, cat, digits. intros H.
  inversion H as [| | | | | |? ? ? t1 u1 ? ? c1 ? H1 H2| |]; subst; clear H.
  inversion H2 as [| | | | | |? ? ? t2 u2 ? ? c2 ? H3 H4| |]; subst; clear H2.
  inversion H4 as [| | | | | |? ? ? t3 u3 ? ? c3 ? H5 H6| |]; subst; clear H4.
  inversion H6 as [| | | | | |? ? ? t4 u4 ? ? c4 ? H7 H8| |]; subst; clear H6.
  inversion H8; subst; clear H8.
  match goal with H : matches (Rep _ _) _ _ _ _ _ |- _ => inversion H; subst; clear H end.
  eexists. split; [reflexivity|]. now apply isdigit_of_run.
Qed.

(** and when the first pattern matches, that number decides the answer. *)
Lemma first_pattern_wins text m :
  is_empty text = false ->
  search verb_number (strip (lower text)) = Some m ->
  exists g,
    group m 1 = Some g /\ isdigit g = true
    /\ detect_link_index text = (if 1 <=? int g then Some (int g) else None).
Proof.
  intros Hne Hs.
  destruct (search_sound _ _ _ Hs) as (before & t & rest & _ & Hm).
  apply verb_number_group in Hm as (g & Hg & Hd).
  exists g. split; [exact Hg|]. split; [exact Hd|].
  unfold detect_link_index. rewrite Hne.
  unfold LINK_PATTERNS.
  cbn [link_patterns_loop]. rewrite Hs, Hg, Hd.
  unfold isdigit in Hd. apply andb_prop in Hd as [-> _]. reflexivity.
Qed.

(** ** The loop over the patterns and the loop over the words *)

Lemma isdigit_test g : negb (is_empty g) && isdigit g = isdigit g.
Proof. unfold isdigit. now destruct (is_empty g). Qed.

Lemma loop_falls text pats :
  Forall (fun q => falls_through q text) pats -> link_patterns_loop text pats = None.
Proof.
  induction 1 as [|q pats Hq _ IH]; [reflexivity|].
  cbn [link_patterns_loop].
  destruct (search q text) as [m|] eqn:Es; [|exact IH].
  destruct (group m 1) as [g|] eqn:Eg; [|exact IH].
  destruct (Hq m g Es Eg) as [Hd Ho].
  now rewrite isdigit_test, Hd, Ho.
Qed.

Lemma loop_settles text pre pat post r :
  Forall (fun q => falls_through q text) pre -> settles pat text r ->
  link_patterns_loop text (pre ++ pat :: post) = Some r.
Proof.
  intros Hpre (m & g & Es & Eg & Hr).
  induction Hpre as [|q pre Hq _ IH].
  - cbn [app link_patterns_loop]. rewrite Es, Eg, isdigit_test.
    destruct Hr as [[-> ->]|[-> (i & -> & ->)]]; reflexivity.
  - cbn [app link_patterns_loop].
    destruct (search q text) as [m'|] eqn:Es'; [|exact IH].
    destruct (group m' 1) as [g'|] eqn:Eg'; [|exact IH].
    destruct (Hq m' g' Es' Eg') as [Hd Ho].
    now rewrite isdigit_test, Hd, Ho.
Qed.

Lemma falls_or_settles pat text :
  falls_through pat text \/ exists r, settles pat text r.
Proof.
  destruct (search pat text) as [m|] eqn:Es.
  2:{ left. intros m g H. congruence. }
  destruct (group m 1) as [g|] eqn:Eg.
  2:{ left. intros m' g' H H'. congruence. }
  destruct (isdigit g) eqn:Ed.
  { right. eexists. exists m, g. split; [exact Es|]. split; [exact Eg|]. left. eauto. }
  destruct (ordinal_of ORDINAL_TO_INDEX g) as [i|] eqn:Eo.
  { right. eexists. exists m, g. split; [exact Es|]. split; [exact Eg|]. right. eauto. }
  left. intros m' g' H H'. rewrite Es in H. injection H as <-.
  rewrite Eg in H'. injection H' as <-. auto.
Qed.

Lemma falls_not_settles pat text r :
  falls_through pat text -> settles pat text r -> False.
Proof.
  intros Hf (m & g & Es & Eg & Hr). destruct (Hf m g Es Eg) as [Hd Ho].
  destruct Hr as [[H _]|[_ (i & H & _)]]; congruence.
Qed.

Lemma words_loop_found text pre w i post :
  Forall (fun wi => search (ordinal_phrase (fst wi)) text = None) pre ->
  search (ordinal_phrase w) text <> None ->
  ordinal_words_loop text (pre ++ (w, i) :: post) = Some i.
Proof.
  intros Hpre Hw. induction Hpre as [|[w' i'] pre Hq _ IH].
  - cbn [app ordinal_words_loop]. fold (ordinal_phrase w).
    now destruct (search (ordinal_phrase w) text).
  - cbn [app ordinal_words_loop]. fold (ordinal_phrase w'). simpl in Hq. now rewrite Hq.
Qed.

Lemma words_loop_none text table :
  Forall (fun wi => search (ordinal_phrase (fst wi)) text = None) table ->
  ordinal_words_loop text table = None.
Proof.
  induction 1 as [|[w' i'] pre Hq _ IH]; [reflexivity|].
  cbn [ordinal_words_loop]. fold (ordinal_phrase w'). simpl in Hq. now rewrite Hq.
Qed.

Lemma detect_link_index_settled text pre pat post r :
  is_empty text = false ->
  LINK_PATTERNS = (pre ++ pat :: post)%list ->
  Forall (fun q => falls_through q (strip (lower text))) pre ->
  settles pat (strip (lower text)) r ->
  detect_link_index text = r.
Proof.
  intros Hne Hl Hpre Hs. unfold detect_link_index. rewrite Hne, Hl.
  now rewrite (loop_settles _ pre pat post r Hpre Hs).
Qed.

Lemma detect_link_index_by_word text pre w i post :
  is_empty text = false ->
  Forall (fun q => falls_through q (strip (lower text))) LINK_PATTERNS ->
  ORDINAL_TO_INDEX = (pre ++ (w, i) :: post)%list ->
  Forall (fun wi => search (ordinal_phrase (fst wi)) (strip (lower text)) = None) pre ->
  search (ordinal_phrase w) (strip (lower text)) <> None ->
  detect_link_index text = Some i.
Proof.
  intros Hne Hall Ht Hpre Hw. unfold detect_link_index. rewrite Hne.
  rewrite (loop_falls _ _ Hall). cbv zeta. rewrite Ht. now apply words_loop_found.
Qed.

Lemma detect_link_index_nothing text :
  is_empty text = true
  \/ (Forall (fun q => falls_through q (strip (lower text))) LINK_PATTERNS
      /\ Forall (fun wi => search (ordinal_phrase (fst wi)) (strip (lower text)) = None)
                ORDINAL_TO_INDEX) ->
  detect_link_index text = None.
Proof.
  unfold detect_link_index. intros [->|[Hall Hw]]; [reflexivity|].
  destruct (is_empty text); [reflexivity|].
  rewrite (loop_falls _ _ Hall). now apply words_loop_none.
Qed.

Lemma ordinal_of_In table g i : ordinal_of table g = Some i -> In (g, i) table.
Proof.
  induction table as [|[w k] table IH]; cbn [ordinal_of]; [discriminate|].
  destruct (String.eqb w g) eqn:E.
  - intros [= <-]. apply String.eqb_eq in E. subst. now left.
  - intros H. right. now apply IH.
Qed.

Lemma ordinal_of_table g i :
  ordinal_of ORDINAL_TO_INDEX g = Some i <-> In (g, i) ORDINAL_TO_INDEX.
Proof.
  split; [apply ordinal_of_In|].
  unfold ORDINAL_TO_INDEX. cbn [In].
  intros H. repeat (destruct H as [[= <- <-]|H]; [reflexivity|]). destruct H.
Qed.

Lemma settles_once pat text r r' :
  settles pat text r -> settles pat text r' -> r = r'.
Proof.
  intros (m & g & Es & Eg & Hr) (m' & g' & Es' & Eg' & Hr').
  rewrite Es in Es'. injection Es' as <-. rewrite Eg in Eg'. injection Eg' as <-.
  destruct Hr as [[Hd ->]|[Hd (i & Hi & ->)]], Hr' as [[Hd' ->]|[Hd' (i' & Hi' & ->)]];
    congruence.
Qed.

(** ** What the patterns capture *)

Ltac invert_matches :=
  repeat match goal with
  | H : matches (Cat _ _) _ _ _ _ _ |- _ => inversion H; subst; clear H
  | H : matches (Alt _ _) _ _ _ _ _ |- _ => inversion H; subst; clear H
  | H : matches (Grp _ _) _ _ _ _ _ |- _ => inversion H; subst; clear H
  | H : matches (Rep _ _) _ _ _ _ _ |- _ => inversion H; subst; clear H
  | H : matches (Lit _) _ _ _ _ _ |- _ => inversion H; subst; clear H
  end.

Ltac inv_cat H t1 t2 c1 H1 H2 :=
  inversion H as [| | | | | |? ? ? t1 t2 ? ? c1 ? H1 H2| |]; subst; clear H.

Lemma verb_keeps_captures prev t rest c c' : matches verb prev t rest c c' -> c' = c.
Proof. unfold verb, alt, cat, ws1. intros H. invert_matches; reflexivity. Qed.

Lemma link_or_one_text prev t rest c c' :
  matches link_or_one prev t rest c c' -> (t = "link" \/ t = "one") /\ c' = c.
Proof. unfold link_or_one. intros H. invert_matches; auto. Qed.

Lemma run_nonempty t lo : (1 <= lo)%nat -> (lo <= String.length t)%nat -> is_empty t = false.
Proof. destruct t; simpl; [lia|reflexivity]. Qed.

(** What a match of the second pattern captures. *)
Lemma verb_the_word_shape s m :
  search verb_the_word s = Some m ->
  exists before lead w2 g w3 tail rest,
    s = before ++ lead ++ "the" ++ w2 ++ g ++ w3 ++ tail ++ rest
    /\ all_char is_space w2 = true
    /\ is_empty g = false /\ all_char is_word g = true
    /\ is_empty w3 = false /\ all_char is_space w3 = true
    /\ (tail = "link" \/ tail = "one")
    /\ group m 1 = Some g.
Proof.
  intros H. apply search_sound in H as (before & t & rest & -> & Hm).
  unfold verb_the_word, cat, ws1, word in Hm.
  inv_cat Hm v t1 c1 Hv H1. apply verb_keeps_captures in Hv as ->.
  inv_cat H1 w1 t2 c2 Hw1 H2. inversion Hw1; subst; clear Hw1.
  inv_cat H2 the t3 c3 Hthe H3. inversion Hthe; subst; clear Hthe.
  inv_cat H3 w2 t4 c4 Hw2 H4. inversion Hw2; subst; clear Hw2.
  inv_cat H4 g t5 c5 Hg H5. inversion Hg as [| | | | | | |? ? ? ? ? ? ? Hg'|]; subst; clear Hg.
  inversion Hg'; subst; clear Hg'.
  inv_cat H5 w3 lk c6 Hw3 H6. inversion Hw3; subst; clear Hw3.
  apply link_or_one_text in H6 as [Htail ->].
  exists before, (v ++ w1), w2, g, w3, lk, rest.
  split; [now rewrite !app_assoc'|].
  split; [assumption|].
  split; [apply (run_nonempty g 1); [lia|assumption]|]. split; [assumption|].
  split; [apply (run_nonempty w3 1); [lia|assumption]|]. split; [assumption|].
  split; [exact Htail|reflexivity].
Qed.

(** What a match of the third pattern captures. *)
Lemma link_number_shape s m :
  search link_number s = Some m ->
  exists before lead w g rest,
    s = before ++ lead ++ w ++ g ++ rest
    /\ (lead = "link" \/ lead = "#")
    /\ all_char is_space w = true
    /\ isdigit g = true
    /\ group m 1 = Some g.
Proof.
  intros H. apply search_sound in H as (before & t & rest & -> & Hm).
  unfold link_number, cat, ws0, digits in Hm.
  inv_cat Hm lead t1 c1 Hl H1.
  assert (Hlead : (lead = "link" \/ lead = "#") /\ c1 = []).
  { invert_matches; auto. }
  destruct Hlead as [Hlead ->].
  inv_cat H1 w g c2 Hw Hg. inversion Hw; subst; clear Hw.
  inversion Hg as [| | | | | | |? ? ? ? ? ? ? Hg'|]; subst; clear Hg.
  inversion Hg'; subst; clear Hg'.
  exists before, lead, w, g, rest.
  split; [now rewrite !app_assoc'|]. split; [exact Hlead|]. split; [assumption|].
  split; [now apply isdigit_of_run|reflexivity].
Qed.

(** What a match of the fourth pattern captures. *)
Lemma word_link_shape s m :
  search word_link s = Some m ->
  exists before g w rest,
    s = before ++ g ++ w ++ "link" ++ rest
    /\ is_empty g = false /\ all_char is_word g = true
    /\ is_empty w = false /\ all_char is_space w = true
    /\ word_before (last_of before None) = false
    /\ word_at rest = false
    /\ group m 1 = Some g.
Proof.
  intros H. apply search_sound in H as (before & t & rest & -> & Hm).
  unfold word_link, cat, ws1, word in Hm.
  inv_cat Hm b0 t1 c1 Hb H1. inversion Hb as [| | | | | | | |? ? ? Hb0]; subst; clear Hb.
  inv_cat H1 g t2 c2 Hg H2. inversion Hg as [| | | | | | |? ? ? ? ? ? ? Hg'|]; subst; clear Hg.
  inversion Hg'; subst; clear Hg'.
  inv_cat H2 w t3 c3 Hw H3. inversion Hw; subst; clear Hw.
  inv_cat H3 l b1 c4 Hl H4. inversion Hl; subst; clear Hl.
  inversion H4 as [| | | | | | | |? ? ? Hb1]; subst; clear H4.
  assert (Hg1 : is_empty g = false) by (apply (run_nonempty g 1); [lia|assumption]).
  assert (Hw1 : is_empty w = false) by (apply (run_nonempty w 1); [lia|assumption]).
  exists before, g, w, rest.
  split; [now rewrite !app_assoc', !app_empty_l|].
  split; [exact Hg1|]. split; [assumption|]. split; [exact Hw1|]. split; [assumption|].
  split; [|split; [|reflexivity]].
  - destruct g as [|a g]; [discriminate|].
    rewrite !app_cons in Hb0. cbn [word_at] in Hb0.
    match goal with H : all_char is_word (String a g) = true |- _ =>
      simpl in H; apply andb_prop in H as [Ha _]; rewrite Ha in Hb0 end.
    now destruct (word_before _).
  - cbn [last_of word_before] in Hb1.
    change (is_word "k") with true in Hb1. now destruct (word_at rest).
Qed.

(** ** Where the patterns are found *)

Lemma blanks_rep w : blanks w <-> all_char is_space w = true /\ (1 <= String.length w)%nat.
Proof.
  unfold blanks. destruct w; simpl; split; intros [H1 H2]; split; auto; try lia; discriminate.
Qed.

Lemma word_run_rep g : word_run g <-> all_char is_word g = true /\ (1 <= String.length g)%nat.
Proof.
  unfold word_run. destruct g; simpl; split; intros [H1 H2]; split; auto; try lia; discriminate.
Qed.

Lemma isdigit_rep g : isdigit g = true <-> all_char is_digit g = true /\ (1 <= String.length g)%nat.
Proof.
  unfold isdigit. destruct g; simpl; split; try (intros [H1 H2]); try intros H;
    try split; auto; try lia; discriminate.
Qed.

Lemma verb_matches prev t rest c c' :
  matches verb prev t rest c c' <-> is_verb t /\ c' = c.
Proof.
  unfold verb, alt, cat, ws1, is_verb. split.
  - intros H. invert_matches; (split; [|reflexivity]); simpl; auto 10.
    right. eexists. split; [reflexivity|]. now apply blanks_rep.
  - intros [[H|(w & -> & Hw)] ->].
    + simpl in H. destruct H as [<-|[<-|[<-|[<-|[<-|[]]]]]].
      * apply M_alt_l. constructor.
      * apply M_alt_r, M_alt_l. constructor.
      * apply M_alt_r, M_alt_r, M_alt_l. constructor.
      * apply M_alt_r, M_alt_r, M_alt_r, M_alt_r, M_alt_l. constructor.
      * apply M_alt_r, M_alt_r, M_alt_r, M_alt_r, M_alt_r. constructor.
    + apply blanks_rep in Hw as [Hw Hl].
      apply M_alt_r, M_alt_r, M_alt_r, M_alt_l.
      apply M_cat with (c1 := c); [constructor|].
      apply M_cat with (c1 := c); [now constructor|constructor].
Qed.

Lemma search_iff r s :
  (exists m, search r s = Some m) <->
  exists before t rest c, s = before ++ t ++ rest /\ matches r (last_of before None) t rest [] c.
Proof.
  split.
  - intros [m H]. apply search_sound in H as (before & t & rest & Hs & Hm). eauto 10.
  - intros (before & t & rest & c & -> & Hm).
    destruct (search_from_complete _ _ _ _ _ _ Hm) as [c' Hc']. eauto.
Qed.

(** Where the third pattern is found. *)
Lemma link_number_occurs s :
  (exists m, search link_number s = Some m) <->
  exists before lead w g rest,
    s = before ++ lead ++ w ++ g ++ rest
    /\ (lead = "link" \/ lead = "#")
    /\ all_char is_space w = true /\ isdigit g = true.
Proof.
  split.
  - intros [m H]. apply link_number_shape in H
      as (before & lead & w & g & rest & Hs & Hl & Hw & Hg & _). eauto 10.
  - intros (before & lead & w & g & rest & -> & Hl & Hw & Hg).
    apply isdigit_rep in Hg as [Hg Hlen].
    apply search_iff. exists before, (lead ++ w ++ g), rest. eexists.
    split; [now rewrite !app_assoc'|].
    unfold link_number, cat, ws0, digits.
    apply M_cat with (c1 := []).
    { destruct Hl as [->| ->]; [apply M_alt_l|apply M_alt_r]; constructor. }
    apply M_cat with (c1 := []); [constructor; [assumption|lia]|].
    apply M_grp. now constructor.
Qed.

(** Where the first pattern is found. *)
Lemma verb_number_occurs s :
  (exists m, search verb_number s = Some m) <->
  exists before v w lk h g rest,
    s = before ++ v ++ w ++ lk ++ h ++ g ++ rest
    /\ is_verb v /\ blanks w
    /\ (lk = EmptyString \/ exists w', lk = "link" ++ w' /\ all_char is_space w' = true)
    /\ (h = EmptyString \/ h = "#")
    /\ isdigit g = true.
Proof.
  split.
  - intros [m H]. apply search_sound in H as (before & t & rest & -> & Hm).
    unfold verb_number, cat in Hm.
    inversion Hm as [| | | | | |? ? ? v t1 ? ? c1 ? Hv H1| |]; subst; clear Hm.
    apply verb_matches in Hv as [Hv ->].
    inversion H1 as [| | | | | |? ? ? w t2 ? ? c2 ? Hw H2| |]; subst; clear H1.
    unfold ws1 in Hw. inversion Hw; subst; clear Hw.
    inversion H2 as [| | | | | |? ? ? lk t3 ? ? c3 ? Hlk H3| |]; subst; clear H2.
    inversion H3 as [| | | | | |? ? ? h g ? ? c4 ? Hh Hg| |]; subst; clear H3.
    assert (Elk : (lk = EmptyString
                   \/ exists w', lk = "link" ++ w' /\ all_char is_space w' = true)
                  /\ c3 = []).
    { inversion Hlk as [| |? ? ? ? ? ? Hin| | | | | |]; subst; [|auto].
      unfold ws0 in Hin. invert_matches. split; [right; eauto|reflexivity]. }
    destruct Elk as [Elk ->].
    assert (Eh : (h = EmptyString \/ h = "#") /\ c4 = []).
    { inversion Hh as [| |? ? ? ? ? ? Hin| | | | | |]; subst; [|auto].
      invert_matches. auto. }
    destruct Eh as [Eh ->].
    unfold digits in Hg. invert_matches.
    exists before, v, w, lk, h, g, rest.
    split; [now rewrite !app_assoc'|]. split; [exact Hv|].
    split; [now apply blanks_rep|]. split; [exact Elk|]. split; [exact Eh|].
    now apply isdigit_rep.
  - intros (before & v & w & lk & h & g & rest & -> & Hv & Hw & Hlk & Hh & Hg).
    apply isdigit_rep in Hg as [Hg Hlen]. apply blanks_rep in Hw as [Hw Hwl].
    apply search_iff. exists before, (v ++ w ++ lk ++ h ++ g), rest. eexists.
    split; [now rewrite !app_assoc'|].
    unfold verb_number, cat, ws1, ws0, digits.
    apply M_cat with (c1 := []); [apply verb_matches; auto|].
    apply M_cat with (c1 := []); [now constructor|].
    apply M_cat with (c1 := []).
    { destruct Hlk as [->|(w' & -> & Hw')]; [apply M_opt_none|].
      apply M_opt_some. apply M_cat with (c1 := []); [constructor|].
      constructor; [assumption|lia]. }
    apply M_cat with (c1 := []).
    { destruct Hh as [->| ->]; [apply M_opt_none|apply M_opt_some; constructor]. }
    apply M_grp. now constructor.
Qed.

(** Where the second pattern is found. *)
Lemma verb_the_word_occurs s :
  (exists m, search verb_the_word s = Some m) <->
  exists before v w1 w2 g w3 tail rest,
    s = before ++ v ++ w1 ++ "the" ++ w2 ++ g ++ w3 ++ tail ++ rest
    /\ is_verb v /\ blanks w1 /\ blanks w2 /\ word_run g /\ blanks w3
    /\ (tail = "link" \/ tail = "one").
Proof.
  split.
  - intros [m H]. apply search_sound in H as (before & t & rest & -> & Hm).
    unfold verb_the_word, cat, ws1, word in Hm.
    inversion Hm as [| | | | | |? ? ? v t1 ? ? c1 ? Hv H1| |]; subst; clear Hm.
    apply verb_matches in Hv as [Hv ->].
    inversion H1 as [| | | | | |? ? ? w1 t2 ? ? c2 ? Hw1 H2| |]; subst; clear H1.
    inversion Hw1; subst; clear Hw1.
    inversion H2 as [| | | | | |? ? ? the t3 ? ? c3 ? Hthe H3| |]; subst; clear H2.
    inversion Hthe; subst; clear Hthe.
    inversion H3 as [| | | | | |? ? ? w2 t4 ? ? c4 ? Hw2 H4| |]; subst; clear H3.
    inversion Hw2; subst; clear Hw2.
    inversion H4 as [| | | | | |? ? ? g t5 ? ? c5 ? Hg H5| |]; subst; clear H4.
    inversion Hg as [| | | | | | |? ? ? ? ? ? ? Hg'|]; subst; clear Hg.
    inversion Hg'; subst; clear Hg'.
    inversion H5 as [| | | | | |? ? ? w3 lk ? ? c6 ? Hw3 H6| |]; subst; clear H5.
    inversion Hw3; subst; clear Hw3.
    unfold link_or_one in H6.
    assert (Hlk : lk = "link" \/ lk = "one") by (invert_matches; auto).
    exists before, v, w1, w2, g, w3, lk, rest.
    split; [now rewrite !app_assoc'|]. split; [exact Hv|].
    split; [now apply blanks_rep|]. split; [now apply blanks_rep|].
    split; [now apply word_run_rep|]. split; [now apply blanks_rep|exact Hlk].
  - intros (before & v & w1 & w2 & g & w3 & lk & rest & -> & Hv & Hw1 & Hw2 & Hg & Hw3 & Hlk).
    apply blanks_rep in Hw1 as [Hw1 L1], Hw2 as [Hw2 L2], Hw3 as [Hw3 L3].
    apply word_run_rep in Hg as [Hg Lg].
    apply search_iff. exists before, (v ++ w1 ++ "the" ++ w2 ++ g ++ w3 ++ lk), rest. eexists.
    split; [now rewrite !app_assoc'|].
    unfold verb_the_word, cat, ws1, word, link_or_one.
    apply M_cat with (c1 := []); [apply verb_matches; auto|].
    apply M_cat with (c1 := []); [now constructor|].
    apply M_cat with (c1 := []); [constructor|].
    apply M_cat with (c1 := []); [now constructor|].
    apply M_cat with (c1 := [(1%nat, g)]); [apply M_grp; now constructor|].
    apply M_cat with (c1 := [(1%nat, g)]); [now constructor|].
    destruct Hlk as [->| ->]; [apply M_alt_l|apply M_alt_r]; constructor.
Qed.

(** Where the fourth pattern is found. *)
Lemma word_link_occurs s :
  (exists m, search word_link s = Some m) <->
  exists before g w rest,
    s = before ++ g ++ w ++ "link" ++ rest
    /\ word_run g /\ blanks w
    /\ word_before (last_of before None) = false
    /\ word_at rest = false.
Proof.
  split.
  - intros [m H]. apply word_link_shape in H
      as (before & g & w & rest & Hs & Hg1 & Hg2 & Hw1 & Hw2 & Hb & Ha & _).
    exists before, g, w, rest. repeat split; auto.
  - intros (before & g & w & rest & -> & [Hg1 Hg2] & Hw & Hb & Ha).
    apply blanks_rep in Hw as [Hw Lw].
    assert (Lg : (1 <= String.length g)%nat) by (destruct g; [discriminate|simpl; lia]).
    apply search_iff. exists before, (EmptyString ++ g ++ w ++ "link" ++ EmptyString), rest.
    eexists. split; [now rewrite !app_assoc', !app_empty_l|].
    unfold word_link, cat, ws1, word.
    apply M_cat with (c1 := []).
    { constructor. rewrite Hb. destruct g as [|a g]; [discriminate|].
      rewrite !app_cons. cbn [word_at]. simpl in Hg2. apply andb_prop in Hg2 as [-> _].
      reflexivity. }
    apply M_cat with (c1 := [(1%nat, g)]); [apply M_grp; now constructor|].
    apply M_cat with (c1 := [(1%nat, g)]); [now constructor|].
    apply M_cat with (c1 := [(1%nat, g)]); [constructor|].
    constructor. cbn [last_of word_before]. change (is_word "k") with true.
    now rewrite Ha.
Qed.

(** Where the phrase of a table word is found. *)
Lemma ordinal_phrase_occurs w s :
  head_is is_word w = true ->
  (search (ordinal_phrase w) s <> None) <->
  exists before bl tail rest,
    s = before ++ w ++ bl ++ tail ++ rest
    /\ blanks bl /\ (tail = "link" \/ tail = "one")
    /\ word_before (last_of before None) = false
    /\ word_at rest = false.
Proof.
  intros Hw.
  assert (Hat : forall z, word_at (w ++ z) = true).
  { intros z. destruct w as [|a w]; [discriminate|]. rewrite app_cons. exact Hw. }
  split.
  - intros H. destruct (search (ordinal_phrase w) s) as [m|] eqn:E; [|congruence].
    apply search_sound in E as (before & t & rest & -> & Hm).
    unfold ordinal_phrase, cat, ws1, link_or_one in Hm.
    inversion Hm as [| | | | | |? ? ? b0 t1 ? ? c1 ? Hb H1| |]; subst; clear Hm.
    inversion Hb as [| | | | | | | |? ? ? Hb0]; subst; clear Hb.
    inversion H1 as [| | | | | |? ? ? w0 t2 ? ? c2 ? Hl H2| |]; subst; clear H1.
    inversion Hl; subst; clear Hl.
    inversion H2 as [| | | | | |? ? ? bl t3 ? ? c3 ? Hbl H3| |]; subst; clear H2.
    inversion Hbl; subst; clear Hbl.
    inversion H3 as [| | | | | |? ? ? lk b1 ? ? c4 ? Hlk H4| |]; subst; clear H3.
    inversion H4 as [| | | | | | | |? ? ? Hb1]; subst; clear H4.
    assert (Elk : lk = "link" \/ lk = "one") by (invert_matches; auto).
    exists before, bl, lk, rest.
    split; [now rewrite !app_assoc', !app_empty_l|].
    split; [now apply blanks_rep|]. split; [exact Elk|].
    split.
    + rewrite !app_assoc', Hat in Hb0. now destruct (word_before _).
    + assert (Hk : word_before (last_of lk (last_of bl (last_of w0 (last_of EmptyString
                       (last_of before None))))) = true).
      { destruct Elk as [->| ->]; reflexivity. }
      rewrite Hk in Hb1. now destruct (word_at rest).
  - intros (before & bl & lk & rest & -> & Hbl & Hlk & Hb & Ha).
    apply blanks_rep in Hbl as [Hbl Lbl].
    assert (exists m, search (ordinal_phrase w)
                        (before ++ w ++ bl ++ lk ++ rest) = Some m) as [m ->];
      [|discriminate].
    apply search_iff.
    exists before, (EmptyString ++ w ++ bl ++ lk ++ EmptyString), rest. eexists.
    split; [now rewrite !app_assoc', !app_empty_l|].
    unfold ordinal_phrase, cat, ws1, link_or_one.
    apply M_cat with (c1 := []).
    { constructor. rewrite Hb, !app_assoc', Hat. reflexivity. }
    apply M_cat with (c1 := []); [constructor|].
    apply M_cat with (c1 := []); [now constructor|].
    apply M_cat with (c1 := []).
    { destruct Hlk as [->| ->]; [apply M_alt_l|apply M_alt_r]; constructor. }
    constructor. rewrite Ha.
    destruct Hlk as [->| ->]; reflexivity.
Qed.


(** C5: [detect_link_index] lower-cases and trims its input, so the
    answer is the one for the normalized text, and the empty input gives
    [None].  It then goes through the four patterns of [LINK_PATTERNS]
    in their order; the first pattern that is found in the text and
    whose group captured a number or a word of the ordinal table
    decides: a number is the answer, unless it is below 1, and then the
    answer is [None]; a word of the table is answered by its index.  A
    pattern that is not found, or whose group captured anything else,
    is passed over.  When all four are passed over, the words of the
    table are tried in the order of the table, each followed by "link"
    or "one", and the first that is found gives its index; when none is
    found the answer is [None].  So the function never returns an index
    below 1.  The second and fourth pattern capture a word, the first
    and third a number; the last five conjuncts say where in a text
    each pattern, and the phrase of a table word, is found. *)
Theorem C5_detect_link_index :
  detect_link_index "summarize link 3" = Some 3
  /\ detect_link_index "tell me about the second link" = Some 2
  /\ detect_link_index "hello" = None
  /\ detect_link_index "  Summarize LINK 3 " = Some 3
  /\ detect_link_index "summarize 2 and skip link 5" = Some 2
  /\ detect_link_index "link 0" = None
  /\ (forall text, detect_link_index text = detect_link_index (strip (lower text)))
  /\ (forall text m,
        is_empty text = false ->
        search verb_number (strip (lower text)) = Some m ->
        exists g,
          group m 1 = Some g /\ isdigit g = true
          /\ detect_link_index text = (if 1 <=? int g then Some (int g) else None))
  /\ (forall text,
        detect_link_index text = None
        \/ exists idx, detect_link_index text = Some idx /\ 1 <= idx)
  /\ Forall (fun tr => detect_link_index (fst tr) = snd tr)
       [ ("link 3", Some 3); ("#4", Some 4); ("open the third link", Some 3);
         ("explain the second one", Some 2); ("the fifth one", Some 5);
         ("about the 2 link", Some 2); ("more  details link #7", Some 7);
         ("details 0", None); ("explain the 0 link", None);
         ("about the blue link", None);
         ("summarize the first2 link and link 4", Some 4);
         ("the red link and the third one", Some 3);
         ("third linkage", None); ("thethird link", None); ("link", None);
         ("summary 2", Some 2); ("details 3", Some 3); ("more details 4", Some 4);
         ("explain 5", Some 5); ("about 6", Some 6); ("summarize the 7 one", Some 7);
         ("about the 7 link", Some 7); ("summarize link 2 explain 5", Some 2);
         ("summarize #3 explain 5", Some 3); ("summarize link #2", Some 2);
         (EmptyString, None) ]
  /\ Forall (fun wn =>
               ordinal_of ORDINAL_TO_INDEX (fst wn) = Some (snd wn)
               /\ detect_link_index (fst wn ++ " link") = Some (snd wn)
               /\ detect_link_index (fst wn ++ " one") = Some (snd wn)
               /\ detect_link_index ("explain the " ++ fst wn ++ " one") = Some (snd wn))
       [ ("first", 1); ("1st", 1); ("second", 2); ("2nd", 2); ("third", 3); ("3rd", 3);
         ("fourth", 4); ("4th", 4); ("fifth", 5); ("5th", 5); ("sixth", 6); ("6th", 6);
         ("seventh", 7); ("7th", 7); ("eighth", 8); ("8th", 8); ("ninth", 9); ("9th", 9);
         ("tenth", 10); ("10th", 10) ]
  /\ LINK_PATTERNS = [verb_number; verb_the_word; link_number; word_link]
  /\ ORDINAL_TO_INDEX
     = [ ("first", 1); ("1st", 1); ("second", 2); ("2nd", 2); ("third", 3); ("3rd", 3);
         ("fourth", 4); ("4th", 4); ("fifth", 5); ("5th", 5); ("sixth", 6); ("6th", 6);
         ("seventh", 7); ("7th", 7); ("eighth", 8); ("8th", 8); ("ninth", 9); ("9th", 9);
         ("tenth", 10); ("10th", 10) ]
  /\ (forall g i, ordinal_of ORDINAL_TO_INDEX g = Some i <-> In (g, i) ORDINAL_TO_INDEX)
  /\ (forall text, is_empty text = true -> detect_link_index text = None)
  /\ (forall text pre pat post r,
        is_empty text = false ->
        LINK_PATTERNS = (pre ++ pat :: post)%list ->
        Forall (fun q => falls_through q (strip (lower text))) pre ->
        settles pat (strip (lower text)) r ->
        detect_link_index text = r)
  /\ (forall text pre w i post,
        is_empty text = false ->
        Forall (fun q => falls_through q (strip (lower text))) LINK_PATTERNS ->
        ORDINAL_TO_INDEX = (pre ++ (w, i) :: post)%list ->
        Forall (fun wi => search (ordinal_phrase (fst wi)) (strip (lower text)) = None) pre ->
        search (ordinal_phrase w) (strip (lower text)) <> None ->
        detect_link_index text = Some i)
  /\ (forall text,
        Forall (fun q => falls_through q (strip (lower text))) LINK_PATTERNS ->
        Forall (fun wi => search (ordinal_phrase (fst wi)) (strip (lower text)) = None)
               ORDINAL_TO_INDEX ->
        detect_link_index text = None)
  /\ (forall pat text,
        (falls_through pat text \/ exists r, settles pat text r)
        /\ (forall r, falls_through pat text -> ~ settles pat text r)
        /\ (forall r r', settles pat text r -> settles pat text r' -> r = r'))
  /\ (forall s m,
        search verb_the_word s = Some m ->
        exists before lead w2 g w3 tail rest,
          s = before ++ lead ++ "the" ++ w2 ++ g ++ w3 ++ tail ++ rest
          /\ all_char is_space w2 = true
          /\ is_empty g = false /\ all_char is_word g = true
          /\ is_empty w3 = false /\ all_char is_space w3 = true
          /\ (tail = "link" \/ tail = "one")
          /\ group m 1 = Some g)
  /\ (forall s m,
        search link_number s = Some m ->
        exists before lead w g rest,
          s = before ++ lead ++ w ++ g ++ rest
          /\ (lead = "link" \/ lead = "#")
          /\ all_char is_space w = true
          /\ isdigit g = true
          /\ group m 1 = Some g)
  /\ (forall s m,
        search word_link s = Some m ->
        exists before g w rest,
          s = before ++ g ++ w ++ "link" ++ rest
          /\ is_empty g = false /\ all_char is_word g = true
          /\ is_empty w = false /\ all_char is_space w = true
          /\ word_before (last_of before None) = false
          /\ word_at rest = false
          /\ group m 1 = Some g)
  /\ (forall s,
        (exists m, search verb_number s = Some m) <->
        exists before v w lk h g rest,
          s = before ++ v ++ w ++ lk ++ h ++ g ++ rest
          /\ is_verb v /\ blanks w
          /\ (lk = EmptyString
              \/ exists w', lk = "link" ++ w' /\ all_char is_space w' = true)
          /\ (h = EmptyString \/ h = "#")
          /\ isdigit g = true)
  /\ (forall s,
        (exists m, search verb_the_word s = Some m) <->
        exists before v w1 w2 g w3 tail rest,
          s = before ++ v ++ w1 ++ "the" ++ w2 ++ g ++ w3 ++ tail ++ rest
          /\ is_verb v /\ blanks w1 /\ blanks w2 /\ word_run g /\ blanks w3
          /\ (tail = "link" \/ tail = "one"))
  /\ (forall s,
        (exists m, search link_number s = Some m) <->
        exists before lead w g rest,
          s = before ++ lead ++ w ++ g ++ rest
          /\ (lead = "link" \/ lead = "#")
          /\ all_char is_space w = true /\ isdigit g = true)
  /\ (forall s,
        (exists m, search word_link s = Some m) <->
        exists before g w rest,
          s = before ++ g ++ w ++ "link" ++ rest
          /\ word_run g /\ blanks w
          /\ word_before (last_of before None) = false
          /\ word_at rest = false)
  /\ (forall w s,
        head_is is_word w = true ->
        (search (ordinal_phrase w) s <> None <->
         exists before bl tail rest,
           s = before ++ w ++ bl ++ tail ++ rest
           /\ blanks bl /\ (tail = "link" \/ tail = "one")
           /\ word_before (last_of before None) = false
           /\ word_at rest = false)).
Proof.
  do 6 (split; [vm_compute; reflexivity|]).
  split; [intros text; exact (detect_link_index_normalized text)|].
  split; [exact first_pattern_wins|].
  split.
  { intros text. destruct (detect_link_index text) as [idx|] eqn:E; [right|now left].
    exists idx. split; [reflexivity|]. exact (detect_link_index_positive text idx E). }
  split; [repeat (constructor; [vm_compute; reflexivity|]); constructor|].
  split.
  { repeat (constructor; [do 3 (split; [vm_compute; reflexivity|]); vm_compute; reflexivity|]).
    constructor. }
  split; [reflexivity|]. split; [reflexivity|].
  split; [exact ordinal_of_table|].
  split; [intros text H; apply detect_link_index_nothing; now left|].
  split; [exact detect_link_index_settled|].
  split; [exact detect_link_index_by_word|].
  split; [intros text H1 H2; apply detect_link_index_nothing; now right|].
  split.
  { intros pat text. split; [apply falls_or_settles|].
    split; [intros r Hf Hs; exact (falls_not_settles pat text r Hf Hs)|].
    exact (settles_once pat text). }
  split; [exact verb_the_word_shape|].
  split; [exact link_number_shape|]. split; [exact word_link_shape|].
  split; [exact verb_number_occurs|]. split; [exact verb_the_word_occurs|].
  split; [exact link_number_occurs|]. split; [exact word_link_occurs|].
  exact ordinal_phrase_occurs.
Qed.

(** ** Paired references *)

Lemma connector_matches prev t rest c c' :
  matches connector prev t rest c c' -> In t connectors /\ c' = c.
Proof.
  unfold connector, alt, connectors. intros H. invert_matches; simpl; auto 10.
Qed.

Lemma pair_pattern_matches prev t rest c :
  matches PAIR_PATTERN prev t rest [] c ->
  exists d1 w1 cn w2 d2,
    t = d1 ++ w1 ++ cn ++ w2 ++ d2
    /\ isdigit d1 = true /\ all_char is_space w1 = true /\ In cn connectors
    /\ all_char is_space w2 = true /\ isdigit d2 = true
    /\ group c 1 = Some d1 /\ group c 2 = Some d2.
Proof.
  unfold PAIR_PATTERN, cat, digits, ws0. intros H.
  inversion H as [| | | | | |? ? ? d1 t1 ? ? c1 ? H1 H2| |]; subst; clear H.
  inversion H2 as [| | | | | |? ? ? w1 t2 ? ? c2 ? H3 H4| |]; subst; clear H2.
  inversion H4 as [| | | | | |? ? ? cn t3 ? ? c3 ? H5 H6| |]; subst; clear H4.
  inversion H6 as [| | | | | |? ? ? w2 d2 ? ? c4 ? H7 H8| |]; subst; clear H6.
  apply connector_matches in H5 as [Hcn ->].
  invert_matches.
  exists d1, w1, cn, w2, d2. repeat split; auto using isdigit_of_run.
Qed.

Lemma pair_pattern_matches_conv d1 w1 cn w2 d2 prev rest :
  isdigit d1 = true -> all_char is_space w1 = true -> In cn connectors ->
  all_char is_space w2 = true -> isdigit d2 = true ->
  exists c, matches PAIR_PATTERN prev (d1 ++ w1 ++ cn ++ w2 ++ d2) rest [] c.
Proof.
  intros Hd1 Hw1 Hcn Hw2 Hd2.
  unfold isdigit in Hd1, Hd2.
  apply andb_prop in Hd1 as [Hn1 Hd1]. apply andb_prop in Hd2 as [Hn2 Hd2].
  assert (L1 : (1 <= String.length d1)%nat) by (destruct d1; simpl in *; [discriminate|lia]).
  assert (L2 : (1 <= String.length d2)%nat) by (destruct d2; simpl in *; [discriminate|lia]).
  assert (Hc : forall prev rest c, matches connector prev cn rest c c).
  { intros p r c. unfold connector, alt. unfold connectors in Hcn. simpl in Hcn.
    destruct Hcn as [<-|[<-|[<-|[<-|[<-|[]]]]]].
    - apply M_alt_l. constructor.
    - apply M_alt_r, M_alt_l. constructor.
    - apply M_alt_r, M_alt_r, M_alt_l. constructor.
    - apply M_alt_r, M_alt_r, M_alt_r, M_alt_l. constructor.
    - apply M_alt_r, M_alt_r, M_alt_r, M_alt_r. constructor. }
  eexists. unfold PAIR_PATTERN, cat, digits, ws0.
  apply M_cat with (c1 := [(1%nat, d1)]); [apply M_grp; now apply M_rep|].
  apply M_cat with (c1 := [(1%nat, d1)]); [apply M_rep; [assumption|lia]|].
  apply M_cat with (c1 := [(1%nat, d1)]); [apply Hc|].
  apply M_cat with (c1 := [(1%nat, d1)]); [apply M_rep; [assumption|lia]|].
  apply M_grp. now apply M_rep.
Qed.

Lemma search_pair_iff s :
  (exists m, search PAIR_PATTERN s = Some m) <-> pair_occurs s.
Proof.
  split.
  - intros [m E]. apply search_sound in E as (before & t & rest & -> & Hm).
    apply pair_pattern_matches in Hm
      as (d1 & w1 & cn & w2 & d2 & -> & Hd1 & Hw1 & Hcn & Hw2 & Hd2 & _).
    exists before, d1, w1, cn, w2, d2, rest. repeat split; auto.
    now rewrite !app_assoc'.
  - intros (before & d1 & w1 & cn & w2 & d2 & rest & -> & Hd1 & Hw1 & Hcn & Hw2 & Hd2).
    destruct (pair_pattern_matches_conv d1 w1 cn w2 d2 (last_of before None) rest)
      as [c Hm]; auto.
    destruct (search_from_complete _ _ _ _ _ _ Hm) as [c' Hc'].
    exists c'. unfold search. rewrite <- Hc'. f_equal. now rewrite !app_assoc'.
Qed.

Lemma detect_two_links_sound text idx1 idx2 :
  detect_two_links text = Some (idx1, idx2) ->
  exists before d1 w1 cn w2 d2 rest,
    normalize_ordinals (strip (lower text)) ORDINAL_TO_INDEX
      = before ++ d1 ++ w1 ++ cn ++ w2 ++ d2 ++ rest
    /\ isdigit d1 = true /\ all_char is_space w1 = true /\ In cn connectors
    /\ all_char is_space w2 = true /\ isdigit d2 = true
    /\ idx1 = int d1 /\ idx2 = int d2.
Proof.
  unfold detect_two_links. destruct (is_empty text); [discriminate|].
  destruct (search PAIR_PATTERN _) as [m|] eqn:E; [|discriminate].
  apply search_sound in E as (before & t & rest & Htext & Hm).
  apply pair_pattern_matches in Hm
    as (d1 & w1 & cn & w2 & d2 & -> & Hd1 & Hw1 & Hcn & Hw2 & Hd2 & -> & ->).
  destruct ((1 <=? int d1) && (1 <=? int d2)); [|discriminate].
  intros [= <- <-].
  exists before, d1, w1, cn, w2, d2, rest. rewrite Htext.
  repeat split; auto. now rewrite !app_assoc'.
Qed.

Lemma detect_two_links_positive text :
  detect_two_links text = None
  \/ exists idx1 idx2,
       detect_two_links text = Some (idx1, idx2) /\ 1 <= idx1 /\ 1 <= idx2.
Proof.
  unfold detect_two_links.
  destruct (is_empty text); [now left|].
  destruct (search PAIR_PATTERN _) as [m|]; [|now left].
  destruct (group m 1) as [g1|]; [|now left].
  destruct (group m 2) as [g2|]; [|now left].
  destruct ((1 <=? int g1) && (1 <=? int g2)) eqn:E; [right|now left].
  apply andb_prop in E as [E1 E2]. apply Z.leb_le in E1, E2.
  eexists _, _. split; [reflexivity|]. split; assumption.
Qed.

(** ** The pair that the search finds *)

Lemma space_not_digit c : is_space c = true -> is_digit c = false.
Proof.
  intros H. destruct (is_digit c) eqn:E; [|reflexivity].
  apply digit_not_space in E. congruence.
Qed.

Lemma head_is_app p a b :
  head_is p (a ++ b) = if is_empty a then head_is p b else head_is p a.
Proof. destruct a; reflexivity. Qed.

Lemma head_blank_not_digit w z :
  all_char is_space w = true -> head_is is_digit z = false ->
  head_is is_digit (w ++ z) = false.
Proof.
  intros Hw Hz. destruct w as [|c w]; [exact Hz|].
  simpl in Hw. apply andb_prop in Hw as [Hc _]. rewrite app_cons. simpl.
  now apply space_not_digit.
Qed.

Lemma head_digit_not_space d z :
  isdigit d = true -> head_is is_space (d ++ z) = false.
Proof.
  unfold isdigit. destruct d as [|c d]; [discriminate|]. simpl.
  intros H. apply andb_prop in H as [Hc _]. rewrite ?app_cons. cbn [head_is].
  destruct (is_space c) eqn:E; [|reflexivity]. apply space_not_digit in E. congruence.
Qed.

Lemma head_connector cn z :
  In cn connectors ->
  head_is is_digit (cn ++ z) = false /\ head_is is_space (cn ++ z) = false.
Proof.
  unfold connectors. simpl.
  intros [<-|[<-|[<-|[<-|[<-|[]]]]]]; split; reflexivity.
Qed.

(** A greedy repetition takes the whole run when the rest of the
    pattern matches after it. *)
Lemma rep_takes_run {A} p t : forall lo prev rest (k : option ascii -> string -> option A) x,
  all_char p t = true -> (lo <= String.length t)%nat ->
  head_is p rest = false ->
  k (last_of t prev) rest = Some x ->
  rep p lo prev (t ++ rest) k = Some x.
Proof.
  induction t as [|a t IH]; intros lo prev rest k x Hall Hlo Hhead Hk.
  - simpl in Hlo. assert (lo = 0%nat) as -> by lia. rewrite app_empty_l.
    simpl in Hk. destruct rest as [|b rest]; cbn [rep Nat.eqb]; [exact Hk|].
    simpl in Hhead. now rewrite Hhead.
  - simpl in Hall. apply andb_prop in Hall as [Ha Hall].
    rewrite app_cons. cbn [rep]. rewrite Ha.
    rewrite (IH (Nat.pred lo) (Some a) rest k x Hall); [reflexivity| |exact Hhead|exact Hk].
    simpl in Hlo. lia.
Qed.

Lemma isdigit_run d : isdigit d = true ->
  all_char is_digit d = true /\ (1 <= String.length d)%nat.
Proof.
  unfold isdigit. destruct d; [discriminate|]. simpl. intros H. split; [exact H|lia].
Qed.

Lemma run_alt {A} r1 r2 prev s c (k : option ascii -> string -> caps -> option A) :
  run (Alt r1 r2) prev s c k
  = match run r1 prev s c k with Some x => Some x | None => run r2 prev s c k end.
Proof. reflexivity. Qed.

Lemma run_cat {A} r1 r2 prev s c (k : option ascii -> string -> caps -> option A) :
  run (Cat r1 r2) prev s c k = run r1 prev s c (fun pv s' c' => run r2 pv s' c' k).
Proof. reflexivity. Qed.

Lemma run_rep {A} lo p prev s c (k : option ascii -> string -> caps -> option A) :
  run (Rep lo p) prev s c k = rep p lo prev s (fun pv s' => k pv s' c).
Proof. reflexivity. Qed.

Lemma run_grp_rep {A} n lo p prev s c (k : option ascii -> string -> caps -> option A) :
  run (Grp n (Rep lo p)) prev s c k
  = rep p lo prev s
      (fun pv s' => k pv s' ((n, slice_to (String.length s - String.length s') s) :: c)).
Proof. reflexivity. Qed.

(** The end of the pattern: blanks, then the second run of digits. *)
Lemma run_second_number prev w2 d2 rest c :
  all_char is_space w2 = true -> isdigit d2 = true -> head_is is_digit rest = false ->
  run (Cat ws0 (Grp 2 digits)) prev (w2 ++ d2 ++ rest) c (fun _ _ c' => Some c')
  = Some ((2%nat, d2) :: c).
Proof.
  intros Hw Hd Hrest. destruct (isdigit_run d2 Hd) as [Hall Hlen].
  unfold ws0, digits. rewrite run_cat, run_rep.
  apply rep_takes_run; [exact Hw|lia|now apply head_digit_not_space|].
  rewrite run_grp_rep.
  apply rep_takes_run; [exact Hall|exact Hlen|exact Hrest|].
  now rewrite slice_to_app.
Qed.

Lemma run_lit_hit {A} l prev z c (k : option ascii -> string -> caps -> option A) :
  run (Lit l) prev (l ++ z) c k = k (last_of l prev) z c.
Proof. cbn [run]. now rewrite startswith_app, slice_from_app. Qed.

Lemma run_connector prev cn w2 d2 rest c :
  In cn connectors ->
  all_char is_space w2 = true -> isdigit d2 = true -> head_is is_digit rest = false ->
  run (Cat connector (Cat ws0 (Grp 2 digits))) prev (cn ++ w2 ++ d2 ++ rest) c
      (fun _ _ c' => Some c')
  = Some ((2%nat, d2) :: c).
Proof.
  intros Hcn Hw Hd Hrest.
  pose proof (fun pv => run_second_number pv w2 d2 rest c Hw Hd Hrest) as Hk.
  rewrite run_cat. unfold connector, alt. rewrite !run_alt.
  unfold connectors in Hcn. simpl in Hcn.
  destruct Hcn as [<-|[<-|[<-|[<-|[<-|[]]]]]].
  - rewrite (run_lit_hit "and"). now rewrite Hk.
  - rewrite (run_lit_hit "&"). rewrite Hk.
    now replace (run (Lit "and") prev ("&" ++ w2 ++ d2 ++ rest) c _) with (@None caps).
  - rewrite (run_lit_hit ","). rewrite Hk.
    replace (run (Lit "and") prev ("," ++ w2 ++ d2 ++ rest) c _) with (@None caps) by reflexivity.
    now replace (run (Lit "&") prev ("," ++ w2 ++ d2 ++ rest) c _) with (@None caps).
  - rewrite (run_lit_hit "vs"). rewrite Hk.
    replace (run (Lit "and") prev ("vs" ++ w2 ++ d2 ++ rest) c _) with (@None caps) by reflexivity.
    replace (run (Lit "&") prev ("vs" ++ w2 ++ d2 ++ rest) c _) with (@None caps) by reflexivity.
    now replace (run (Lit ",") prev ("vs" ++ w2 ++ d2 ++ rest) c _) with (@None caps).
  - rewrite (run_lit_hit "versus"). rewrite Hk.
    replace (run (Lit "and") prev ("versus" ++ w2 ++ d2 ++ rest) c _) with (@None caps) by reflexivity.
    replace (run (Lit "&") prev ("versus" ++ w2 ++ d2 ++ rest) c _) with (@None caps) by reflexivity.
    replace (run (Lit ",") prev ("versus" ++ w2 ++ d2 ++ rest) c _) with (@None caps) by reflexivity.
    now replace (run (Lit "vs") prev ("versus" ++ w2 ++ d2 ++ rest) c _) with (@None caps).
Qed.

(** Where a pair begins, the pattern matches and captures its two runs,
    the second to its end. *)
Lemma run_pair_at prev s d1 d2 rest :
  pair_at s d1 d2 rest -> head_is is_digit rest = false ->
  run PAIR_PATTERN prev s [] (fun _ _ c => Some c) = Some [(2%nat, d2); (1%nat, d1)].
Proof.
  intros (w1 & cn & w2 & -> & Hd1 & Hw1 & Hcn & Hw2 & Hd2) Hrest.
  destruct (isdigit_run d1 Hd1) as [Hall1 Hlen1].
  pose proof (fun pv c => run_connector pv cn w2 d2 rest c Hcn Hw2 Hd2 Hrest) as Hk.
  unfold PAIR_PATTERN, cat. rewrite run_cat.
  unfold digits at 1. rewrite run_grp_rep.
  apply rep_takes_run; [exact Hall1|exact Hlen1| |].
  { apply head_blank_not_digit; [exact Hw1|]. now apply head_connector. }
  rewrite slice_to_app. rewrite run_cat. unfold ws0 at 1. rewrite run_rep.
  apply rep_takes_run; [exact Hw1|lia|now apply head_connector|].
  exact (Hk _ _).
Qed.

(** [search] finds the match at the first position that has one. *)
Lemma search_from_first r before : forall prev tail c,
  (forall b1 b2, before = b1 ++ b2 -> b2 <> EmptyString ->
     run r (last_of b1 prev) (b2 ++ tail) [] (fun _ _ c => Some c) = None) ->
  run r (last_of before prev) tail [] (fun _ _ c => Some c) = Some c ->
  search_from r prev (before ++ tail) = Some c.
Proof.
  induction before as [|a before IH]; intros prev tail c Hnone Hrun.
  - rewrite app_empty_l. simpl in Hrun. destruct tail; cbn [search_from]; now rewrite Hrun.
  - assert (H0 := Hnone EmptyString (String a before) eq_refl).
    cbn [last_of] in H0. rewrite app_cons in H0.
    rewrite app_cons. cbn [search_from]. rewrite H0 by discriminate.
    apply IH; [|exact Hrun].
    intros b1 b2 -> Hne. exact (Hnone (String a b1) b2 eq_refl Hne).
Qed.

Lemma run_pair_sound prev s c :
  run PAIR_PATTERN prev s [] (fun _ _ c => Some c) = Some c ->
  exists d1 d2 rest, pair_at s d1 d2 rest.
Proof.
  intros H. apply run_sound in H as (t & rest & c' & -> & Hm & _).
  apply pair_pattern_matches in Hm
    as (d1 & w1 & cn & w2 & d2 & -> & Hd1 & Hw1 & Hcn & Hw2 & Hd2 & _).
  exists d1, d2, rest, w1, cn, w2. repeat split; auto. now rewrite !app_assoc'.
Qed.

(** The pair that [re.search] finds: the first one in the text, its
    second run taken to its end. *)
Lemma search_pair_first before s d1 d2 rest :
  pair_at s d1 d2 rest -> head_is is_digit rest = false ->
  (forall b1 b2 e1 e2 r, before = b1 ++ b2 -> b2 <> EmptyString ->
     ~ pair_at (b2 ++ s) e1 e2 r) ->
  search PAIR_PATTERN (before ++ s) = Some [(2%nat, d2); (1%nat, d1)].
Proof.
  intros Hat Hrest Hfirst. unfold search. apply search_from_first.
  - intros b1 b2 Hb Hne.
    destruct (run PAIR_PATTERN _ (b2 ++ s) [] _) as [c|] eqn:E; [|reflexivity].
    apply run_pair_sound in E as (e1 & e2 & r & He).
    exfalso. exact (Hfirst b1 b2 e1 e2 r Hb Hne He).
  - exact (run_pair_at _ s d1 d2 rest Hat Hrest).
Qed.

Lemma pair_at_occurs before s d1 d2 rest :
  pair_at s d1 d2 rest -> pair_occurs (before ++ s).
Proof.
  intros (w1 & cn & w2 & -> & H). exists before, d1, w1, cn, w2, d2, rest. now split.
Qed.

Lemma detect_two_links_exact text idx1 idx2 :
  detect_two_links text = Some (idx1, idx2) <->
  is_empty text = false
  /\ exists m g1 g2,
       search PAIR_PATTERN (normalize_ordinals (strip (lower text)) ORDINAL_TO_INDEX) = Some m
       /\ group m 1 = Some g1 /\ group m 2 = Some g2
       /\ idx1 = int g1 /\ idx2 = int g2 /\ 1 <= idx1 /\ 1 <= idx2.
Proof.
  unfold detect_two_links. split.
  - destruct (is_empty text); [discriminate|].
    destruct (search PAIR_PATTERN _) as [m|]; [|discriminate].
    destruct (group m 1) as [g1|] eqn:G1; [|discriminate].
    destruct (group m 2) as [g2|] eqn:G2; [|discriminate].
    destruct ((1 <=? int g1) && (1 <=? int g2)) eqn:E; [|discriminate].
    intros [= <- <-]. apply andb_prop in E as [E1 E2]. apply Z.leb_le in E1, E2.
    split; [reflexivity|]. exists m, g1, g2. repeat split; auto.
  - intros (-> & m & g1 & g2 & -> & -> & -> & -> & -> & H1 & H2).
    apply Z.leb_le in H1, H2. now rewrite H1, H2.
Qed.

Lemma detect_two_links_first text before s d1 d2 rest :
  is_empty text = false ->
  normalize_ordinals (strip (lower text)) ORDINAL_TO_INDEX = before ++ s ->
  pair_at s d1 d2 rest -> head_is is_digit rest = false ->
  (forall b1 b2 e1 e2 r, before = b1 ++ b2 -> b2 <> EmptyString ->
     ~ pair_at (b2 ++ s) e1 e2 r) ->
  detect_two_links text
  = (if (1 <=? int d1) && (1 <=? int d2) then Some (int d1, int d2) else None).
Proof.
  intros Hne Htext Hat Hrest Hfirst.
  unfold detect_two_links. rewrite Hne, Htext.
  rewrite (search_pair_first before s d1 d2 rest Hat Hrest Hfirst). reflexivity.
Qed.

Lemma detect_two_links_none text :
  (is_empty text = true
   \/ ~ pair_occurs (normalize_ordinals (strip (lower text)) ORDINAL_TO_INDEX)) ->
  detect_two_links text = None.
Proof.
  unfold detect_two_links. intros [->|H]; [reflexivity|].
  destruct (is_empty text); [reflexivity|].
  destruct (search PAIR_PATTERN _) as [m|] eqn:E; [|reflexivity].
  exfalso. apply H. apply search_pair_iff. eauto.
Qed.

(** C6: [detect_two_links] lower-cases and trims its input, replaces
    each ordinal word of the table by its digits, and searches the
    result for two runs of digits with one of "and", "&", ",", "vs",
    "versus" between them, blanks allowed on either side of the
    connector.  The search succeeds exactly on a text that holds such a
    pair; what it finds is the first pair in the text, with the second
    run taken to its end.  The values of the two runs are returned when
    both are at least 1, and [None] otherwise; [None] is also the answer
    when the input is empty or holds no such pair. *)
Theorem C6_detect_two_links :
  detect_two_links "compare 1 and 3" = Some (1, 3)
  /\ detect_two_links "first vs third" = Some (1, 3)
  /\ detect_two_links "just one link" = None
  /\ normalize_ordinals "first vs third" ORDINAL_TO_INDEX = "1 vs 3"
  /\ Forall (fun wi => normalize_ordinals (fst wi) ORDINAL_TO_INDEX = str (snd wi))
            ORDINAL_TO_INDEX
  /\ (forall s, (exists m, search PAIR_PATTERN s = Some m) <-> pair_occurs s)
  /\ (forall text idx1 idx2,
        detect_two_links text = Some (idx1, idx2) ->
        exists before d1 w1 cn w2 d2 rest,
          normalize_ordinals (strip (lower text)) ORDINAL_TO_INDEX
            = before ++ d1 ++ w1 ++ cn ++ w2 ++ d2 ++ rest
          /\ isdigit d1 = true /\ all_char is_space w1 = true /\ In cn connectors
          /\ all_char is_space w2 = true /\ isdigit d2 = true
          /\ idx1 = int d1 /\ idx2 = int d2)
  /\ (forall text,
        detect_two_links text = None
        \/ exists idx1 idx2,
             detect_two_links text = Some (idx1, idx2) /\ 1 <= idx1 /\ 1 <= idx2)
  /\ Forall (fun tr => detect_two_links (fst tr) = snd tr)
       [ ("compare 2 and 1", Some (2, 1)); ("1 and 2 and 3", Some (1, 2));
         ("12 vs 34", Some (12, 34)); ("second versus tenth", Some (2, 10));
         ("3&4", Some (3, 4)); ("compare 1 , 3", Some (1, 3));
         ("  Compare 2 AND 5 ", Some (2, 5));
         ("0 and 1", None); ("1 and 0", None);
         ("link 1 vs link 3", None); ("compare #2 vs #4", None);
         (EmptyString, None) ]
  /\ Forall (fun wn =>
               normalize_ordinals (fst wn) ORDINAL_TO_INDEX = str (snd wn)
               /\ detect_two_links (fst wn ++ " and " ++ fst wn) = Some (snd wn, snd wn))
       [ ("first", 1); ("1st", 1); ("second", 2); ("2nd", 2); ("third", 3); ("3rd", 3);
         ("fourth", 4); ("4th", 4); ("fifth", 5); ("5th", 5); ("sixth", 6); ("6th", 6);
         ("seventh", 7); ("7th", 7); ("eighth", 8); ("8th", 8); ("ninth", 9); ("9th", 9);
         ("tenth", 10); ("10th", 10) ]
  /\ ORDINAL_TO_INDEX
     = [ ("first", 1); ("1st", 1); ("second", 2); ("2nd", 2); ("third", 3); ("3rd", 3);
         ("fourth", 4); ("4th", 4); ("fifth", 5); ("5th", 5); ("sixth", 6); ("6th", 6);
         ("seventh", 7); ("7th", 7); ("eighth", 8); ("8th", 8); ("ninth", 9); ("9th", 9);
         ("tenth", 10); ("10th", 10) ]
  /\ connectors = ["and"; "&"; ","; "vs"; "versus"]
  /\ (forall text w n table,
        normalize_ordinals text [] = text
        /\ normalize_ordinals text ((w, n) :: table)
           = normalize_ordinals (replace text w (str n)) table)
  /\ (forall text idx1 idx2,
        detect_two_links text = Some (idx1, idx2) <->
        is_empty text = false
        /\ exists m g1 g2,
             search PAIR_PATTERN
               (normalize_ordinals (strip (lower text)) ORDINAL_TO_INDEX) = Some m
             /\ group m 1 = Some g1 /\ group m 2 = Some g2
             /\ idx1 = int g1 /\ idx2 = int g2 /\ 1 <= idx1 /\ 1 <= idx2)
  /\ (forall text before s d1 d2 rest,
        is_empty text = false ->
        normalize_ordinals (strip (lower text)) ORDINAL_TO_INDEX = before ++ s ->
        pair_at s d1 d2 rest -> head_is is_digit rest = false ->
        (forall b1 b2 e1 e2 r, before = b1 ++ b2 -> b2 <> EmptyString ->
           ~ pair_at (b2 ++ s) e1 e2 r) ->
        detect_two_links text
        = (if (1 <=? int d1) && (1 <=? int d2) then Some (int d1, int d2) else None))
  /\ (forall text,
        is_empty text = true
        \/ ~ pair_occurs (normalize_ordinals (strip (lower text)) ORDINAL_TO_INDEX) ->
        detect_two_links text = None).
Proof.
  do 4 (split; [vm_compute; reflexivity|]).
  split; [unfold ORDINAL_TO_INDEX; repeat constructor|].
  split; [exact search_pair_iff|].
  split; [exact detect_two_links_sound|].
  split; [exact detect_two_links_positive|].
  split; [repeat (constructor; [vm_compute; reflexivity|]); constructor|].
  split.
  { repeat (constructor; [split; vm_compute; reflexivity|]). constructor. }
  split; [reflexivity|]. split; [reflexivity|].
  split; [intros text w n table; split; reflexivity|].
  split; [exact detect_two_links_exact|].
  split; [exact detect_two_links_first|exact detect_two_links_none].
Qed.

End ResolverFacts.

(* ================================================================== *)
(** * Facts about summarizer.py *)
(* ================================================================== *)

Module SummarizerFacts.
Import Py Eff Summarizer.

Lemma or_str_falsy v : truthy v = false -> or_str v EmptyString = EmptyString.
Proof. destruct v as [|s]; simpl; [reflexivity|]. intros ->. reflexivity. Qed.

Lemma blocks_from_no_body sources : forall i,
  Forall no_body sources -> blocks_from i (normalize sources) = [].
Proof.
  induction sources as [|it sources IH]; intros i H; [reflexivity|].
  inversion H as [|? ? Hit Hrest]; subst.
  destruct it as [d|]; simpl; [|now apply IH].
  destruct Hit as [Hc Hs]. rewrite (or_str_falsy _ Hc), (or_str_falsy _ Hs). simpl.
  now apply IH.
Qed.

Section Backend.
Context {W : Type}.
Variable post_chat : list Message -> W -> outcome string * W.

(** What [_ollama_chat] makes of an exception: a reply that starts with
    "[ERROR]", and so not with "ERROR:". *)
Lemma ollama_chat_on_failure (messages : list Message) (n : Net W) (e : string) (w : W) :
  post_chat messages (ext n) = (Raise e, w) ->
  _ollama_chat post_chat messages n
    = (Ok ("[ERROR] Failed to call Ollama chat: " ++ e),
       {| ext := w; sent := (sent n ++ [messages])%list |})
  /\ startswith ("[ERROR] Failed to call Ollama chat: " ++ e) "ERROR:" = false.
Proof.
  intros H. split; [|reflexivity].
  unfold _ollama_chat, try_except, bind, _post_json. now rewrite H.
Qed.

(** C10: when the source list is empty, holds no dict, or holds only
    dicts whose content and snippet are both empty (in general: when
    every element is one that yields no block),
    [generate_answer_from_sources] returns the sentinel and the network
    is as it was: nothing was posted to the backend. *)
Theorem C10_no_usable_source_no_request
    (query : string) (sources : list item) (n : Net W) :
  Forall no_body sources ->
  generate_answer_from_sources post_chat query sources n = (Ok RAG_FAILURE_CODE, n).
Proof.
  intros H. unfold generate_answer_from_sources.
  rewrite (blocks_from_no_body sources 1 H).
  now destruct (is_empty_list (normalize sources)).
Qed.
End Backend.
End SummarizerFacts.

(* ================================================================== *)
(** * Facts about app.py *)
(* ================================================================== *)

Module AppFacts.
Import Py Eff Resolver App.

Lemma slice_to_length n : forall s, (String.length (slice_to n s) <= n)%nat.
Proof.
  induction n as [|n IH]; intros s; simpl; [lia|].
  destruct s as [|c s]; simpl; [lia|]. specialize (IH s). lia.
Qed.

Section Facts.
Context {W : Type} {collab : Collaborators W}.

Lemma source_lines_length (srcs : list (gmap string val)) : forall i,
  length (source_lines i srcs) = length srcs.
Proof. induction srcs as [|s srcs IH]; intros i; simpl; [reflexivity|]. now rewrite IH. Qed.

(** Line [k] of the block is numbered [k + 1] and is made from source [k]. *)
Lemma source_lines_lookup (srcs : list (gmap string val)) : forall i k s,
  srcs !! k = Some s ->
  source_lines i srcs !! k =
    Some ("[" ++ str (i + Z.of_nat k) ++ "] " ++ fmt (get_or s "title" (VStr EmptyString))
          ++ nl ++ "URL: " ++ fmt (get_or s "url" (VStr EmptyString)) ++ nl
          ++ (if 500 <? len (or_str (py_or (get s "content") (get s "snippet")) EmptyString)
              then slice_to 500 (or_str (py_or (get s "content") (get s "snippet")) EmptyString)
                   ++ ellipsis
              else or_str (py_or (get s "content") (get s "snippet")) EmptyString)).
Proof.
  induction srcs as [|s0 srcs IH]; intros i k s Hk; [discriminate|].
  destruct k as [|k]; simpl in Hk.
  - injection Hk as ->. cbn [source_lines lookup list_lookup]. rewrite Z.add_0_r. reflexivity.
  - cbn [source_lines lookup list_lookup].
    replace (i + Z.of_nat (S k)) with (i + 1 + Z.of_nat k) by lia. now apply IH.
Qed.

(** [fetch_full_article] returns a string whatever the collaborators do. *)
Lemma fetch_full_article_total url (st : State W) :
  exists text st', fetch_full_article url st = (Ok text, st').
Proof.
  unfold fetch_full_article.
  destruct url as [|u]; [eexists _, _; reflexivity|].
  destruct (nonempty u); [|eexists _, _; reflexivity].
  unfold try_except, bind, call, ret.
  destruct (fetch_url u (world st)) as [[[d|]|e] w]; try (eexists _, _; reflexivity).
  destruct (nonempty d); [|eexists _, _; reflexivity].
  simpl. destruct (extract d w) as [[t|e] w']; eexists _, _; reflexivity.
Qed.

Lemma capped_source_dict title url snippet content :
  capped (source_dict title url snippet
            (VStr (if nonempty content
                   then slice_to (Z.to_nat MAX_CHARS_PER_SOURCE) content else content))).
Proof.
  eexists. split; [reflexivity|].
  unfold len. destruct (nonempty content) eqn:E.
  - pose proof (slice_to_length (Z.to_nat MAX_CHARS_PER_SOURCE) content).
    unfold MAX_CHARS_PER_SOURCE in *. lia.
  - destruct content; [|discriminate]. simpl. unfold MAX_CHARS_PER_SOURCE. lia.
Qed.

Lemma build_full_sources_total results : forall (st : State W),
  exists full st', build_full_sources results st = (Ok full, st').
Proof.
  induction results as [|r results IH]; intros st.
  - eexists _, _. reflexivity.
  - cbn [build_full_sources].
    set (fields := match r with IDict d => _ | IOther => _ end).
    destruct fields as [[title url] snippet].
    unfold bind at 1.
    assert (Hfetch : exists content st1,
              (if nonempty url then fetch_full_article (VStr url) else ret EmptyString) st
              = (Ok content, st1)).
    { destruct (nonempty url); [apply fetch_full_article_total|eexists _, _; reflexivity]. }
    destruct Hfetch as (content & st1 & ->).
    unfold bind. destruct (IH st1) as (rest & st2 & ->).
    eexists _, _. reflexivity.
Qed.

Lemma build_full_sources_spec results : forall (st st' : State W) full,
  build_full_sources results st = (Ok full, st') ->
  length full = length results /\ Forall capped full.
Proof.
  induction results as [|r results IH]; intros st st' full.
  - cbn. intros [= <- <-]. split; [reflexivity|constructor].
  - cbn [build_full_sources].
    set (fields := match r with IDict d => _ | IOther => _ end).
    destruct fields as [[title url] snippet].
    unfold bind at 1.
    destruct ((if nonempty url then fetch_full_article (VStr url) else ret EmptyString) st)
      as [[content|e] st1]; [|discriminate].
    unfold bind.
    destruct (build_full_sources results st1) as [[rest|e] st2] eqn:E; [|discriminate].
    unfold ret. intros [= <- <-].
    destruct (IH _ _ _ E) as [Hlen Hcap].
    split; [simpl; now rewrite Hlen|].
    constructor; [apply capped_source_dict|exact Hcap].
Qed.


Lemma create_initial_session_spec
    (q a : string) (srcs : list (gmap string val)) (st : State W) :
  exists sid st',
    _create_initial_session q a srcs st = (Ok sid, st') /\
    history_of st' sid =
      Some [ {| role := "system"; content := instruction |};
             {| role := "system";
                content := "RAG_SOURCES:" ++ nl ++ _sources_as_system_block srcs |};
             {| role := "user"; content := q |};
             {| role := "assistant"; content := a |} ] /\
    SOURCES st' !! sid = Some srcs.
Proof.
  unfold _create_initial_session, bind, _new_session_id, new_list, modify, ret.
  destruct (uuid4 (world st)) as [u w] eqn:E. simpl.
  eexists _, _. split; [reflexivity|].
  unfold history_of. simpl.
  rewrite !lookup_insert_eq. simpl. rewrite lookup_insert_eq. split; reflexivity.
Qed.

(** C4: right after [_create_initial_session q a srcs] the transcript
    of the new session has exactly four messages: the instruction and
    the numbered source list, both with role system, then the user's
    query [q] and the assistant's answer [a].  The source list is the
    text "RAG_SOURCES:" followed by one entry for each source, in order,
    the entries separated by an empty line; entry [k] is numbered
    [k + 1] and gives the title of source [k], its URL on a line of its
    own, and then its content, or its snippet when it has no content,
    cut after 500 characters and then closed by an ellipsis.  The
    session stores [srcs].  The last conjunct is the list for three
    sources: one with content, one with a snippet only, one with 501
    characters of content and nothing else. *)
Theorem C4_new_session_transcript
    (q a : string) (srcs : list (gmap string val)) (st : State W) :
  exists sid st' m1 m2 m3 m4,
    _create_initial_session q a srcs st = (Ok sid, st')
    /\ history_of st' sid = Some [m1; m2; m3; m4]
    /\ role m1 = "system"
    /\ content m1
       = "You are allowed to use the following RAG sources in all future responses. "
         ++ "When the user says 'first link' or 'second link', refer to the numbered "
         ++ "list below."
    /\ role m2 = "system"
    /\ content m2 = "RAG_SOURCES:" ++ nl ++ join (nl ++ nl) (source_lines 1 srcs)
    /\ length (source_lines 1 srcs) = length srcs
    /\ (forall k s, srcs !! k = Some s ->
         source_lines 1 srcs !! k
         = Some ("[" ++ str (1 + Z.of_nat k) ++ "] "
                 ++ fmt (get_or s "title" (VStr EmptyString)) ++ nl
                 ++ "URL: " ++ fmt (get_or s "url" (VStr EmptyString)) ++ nl
                 ++ (if 500 <? len (or_str (py_or (get s "content") (get s "snippet"))
                                      EmptyString)
                     then slice_to 500 (or_str (py_or (get s "content") (get s "snippet"))
                                          EmptyString) ++ ellipsis
                     else or_str (py_or (get s "content") (get s "snippet")) EmptyString)))
    /\ role m3 = "user" /\ content m3 = q
    /\ role m4 = "assistant" /\ content m4 = a
    /\ SOURCES st' !! sid = Some srcs
    /\ (forall sep line lines,
          join sep [] = EmptyString /\ join sep [line] = line
          /\ (lines <> [] -> join sep (line :: lines) = line ++ sep ++ join sep lines))
    /\ _sources_as_system_block
         [ <["title" := VStr "A"]> (<["url" := VStr "http://a"]>
             (<["snippet" := VStr "a in brief"]> (<["content" := VStr "text of a"]> ∅)));
           <["title" := VStr "B"]> (<["url" := VStr EmptyString]>
             (<["snippet" := VStr "b in brief"]> (<["content" := VStr EmptyString]> ∅)));
           <["content" := VStr (Scenario.letters 501)]> ∅ ]
       = "[1] A" ++ nl ++ "URL: http://a" ++ nl ++ "text of a" ++ nl ++ nl
         ++ "[2] B" ++ nl ++ "URL: " ++ nl ++ "b in brief" ++ nl ++ nl
         ++ "[3] " ++ nl ++ "URL: " ++ nl ++ Scenario.letters 500 ++ ellipsis.
Proof.
  destruct (create_initial_session_spec q a srcs st) as (sid & st' & Hrun & Hhist & Hsrc).
  eexists sid, st', _, _, _, _.
  split; [exact Hrun|]. split; [exact Hhist|].
  split; [reflexivity|]. split; [reflexivity|]. split; [reflexivity|].
  split; [reflexivity|]. split; [apply source_lines_length|].
  split; [intros k s Hk; exact (source_lines_lookup srcs 1 k s Hk)|].
  do 4 (split; [reflexivity|]). split; [exact Hsrc|].
  split; [|vm_compute; reflexivity].
  intros sep line lines. split; [reflexivity|]. split; [reflexivity|].
  intros Hne. destruct lines; [congruence|reflexivity].
Qed.

(** C8: on a query that is not bypassed and for which the search
    returned results, when [generate_answer_from_sources] returns the
    sentinel the answer of the response is what
    [generate_general_answer] returns for the query, the sources of the
    response are the empty list, and a session made from it stores no
    sources. *)
Theorem C8_sentinel_falls_back
    (data : gmap string val) (st st2 : State W) (results : list item)
    (full : list (gmap string val)) (w1 w3 w4 : W) (ans : string) :
  let query := strip (or_str (get data "query") EmptyString) in
  is_empty query = false ->
  is_simple_logical_query query = false ->
  web_search query 6 (world st) = (Ok results, w1) ->
  results <> [] ->
  build_full_sources results (set_world w1 st) = (Ok full, st2) ->
  generate_answer_from_sources query (map IDict full) (world st2) = (Ok RAG_FAILURE_CODE, w3) ->
  generate_general_answer query w3 = (Ok ans, w4) ->
  exists sid st',
    api_ask data st = (Ok (AskOk (replace ans nl "<br>") [] sid), st') /\
    (forall s, sid = Some s -> SOURCES st' !! s = Some []).
Proof.
  intros query Hq Hsimple Hsearch Hres Hbuild Hgrounded Hgeneral.
  destruct (build_full_sources_spec _ _ _ _ Hbuild) as [Hlen _].
  unfold api_ask. fold query. rewrite Hq, Hsimple.
  unfold bind at 1. unfold bind at 1. unfold call at 1. rewrite Hsearch.
  unfold bind at 1. rewrite Hbuild.
  assert (Hne : negb (is_empty_list full) && (0 <? Z.of_nat (length results)) = true).
  { destruct results; [congruence|]. destruct full; [discriminate|]. reflexivity. }
  rewrite Hne.
  unfold bind at 1. unfold call at 1. rewrite Hgrounded.
  rewrite String.eqb_refl.
  unfold bind at 1. unfold call at 1. simpl world. rewrite Hgeneral.
  unfold ret at 1.
  destruct (nonempty ans && negb (startswith ans "ERROR:")).
  - unfold bind at 1. unfold bind at 1.
    destruct (create_initial_session_spec query (replace ans "<br>" nl) []
                (set_world w4 (set_world w3 st2))) as (sid & st' & -> & _ & Hsrc).
    exists (Some sid), st'. split; [reflexivity|].
    now intros s [= <-].
  - eexists None, _. split; [reflexivity|]. discriminate.
Qed.

(** The rule [api_ask] applies: a session is created exactly when the
    answer is non-empty and does not start with "ERROR:". *)
Lemma api_ask_session_rule (data : gmap string val) (st st' : State W)
    (shown : string) (sources : list item) (sid : option string) :
  api_ask data st = (Ok (AskOk shown sources sid), st') ->
  exists answer,
    shown = replace answer nl "<br>"
    /\ (sid <> None <-> nonempty answer && negb (startswith answer "ERROR:") = true).
Proof.
  unfold api_ask.
  destruct (is_empty _); [discriminate|].
  unfold bind at 1.
  match goal with |- context [match ?blk st with _ => _ end] => destruct (blk st) as [[[[answer results] full]|e] st1] end;
    [|discriminate].
  destruct (nonempty answer && negb (startswith answer "ERROR:")) eqn:E.
  - unfold bind at 1. unfold bind at 1.
    destruct (create_initial_session_spec
                (strip (or_str (get data "query") EmptyString))
                (replace answer "<br>" nl) full st1) as (s & st2 & -> & _).
    unfold ret. intros [= <- <- <- <-].
    exists answer. split; [reflexivity|]. split; [intros _; exact E|discriminate].
  - unfold bind, ret. intros [= <- <- <- <-].
    exists answer. split; [reflexivity|]. rewrite E. split; [congruence|discriminate].
Qed.
(** When the chat collaborator raises, [_append_and_get_reply] has
    already put the user's message in the stored transcript. *)
Lemma append_and_get_reply_raises
    (sid text e : string) (st : State W) (l : loc) (old : list Message) (w : W) :
  SESSIONS st !! sid = Some l ->
  heap st !! l = Some old ->
  ChatBot_chat (old ++ [ {| role := "user"; content := text |} ])%list (world st) = (Raise e, w) ->
  exists st',
    _append_and_get_reply sid text st = (Raise e, st') /\
    history_of st' sid = Some (old ++ [ {| role := "user"; content := text |} ])%list.
Proof.
  intros Hs Hh Hchat.
  unfold _append_and_get_reply, SESSIONS_get, bind, gets, list_append, list_read, modify, call, ret.
  rewrite Hs. simpl. rewrite lookup_insert_eq, Hh. simpl. rewrite Hchat.
  eexists. split; [reflexivity|].
  unfold history_of. simpl. rewrite Hs. simpl. now rewrite lookup_insert_eq, Hh.
Qed.

End Facts.
End AppFacts.

(* ================================================================== *)
(** * What a follow-up leaves alone *)
(* ================================================================== *)

Module FrameFacts.
Import Py Eff Resolver App.

Create HintDb frame.

Section Frame.
Context {W : Type} {collab : Collaborators W}.

Lemma keeps_ret {A} (a : A) : keeps_sources (W:=W) (ret a).
Proof. intros st. reflexivity. Qed.

Lemma keeps_raise {A} e : keeps_sources (W:=W) (A:=A) (raise e).
Proof. intros st. reflexivity. Qed.

Lemma keeps_gets {A} (f : State W -> A) : keeps_sources (gets f).
Proof. intros st. reflexivity. Qed.

Lemma keeps_bind {A B} (c : M (State W) A) (k : A -> M (State W) B) :
  keeps_sources c -> (forall a, keeps_sources (k a)) -> keeps_sources (bind c k).
Proof.
  intros Hc Hk st. unfold bind. specialize (Hc st).
  destruct (c st) as [[a|e] st']; simpl in *; [|assumption].
  now rewrite Hk.
Qed.

Lemma keeps_try_except {A} (c : M (State W) A) (h : string -> M (State W) A) :
  keeps_sources c -> (forall e, keeps_sources (h e)) -> keeps_sources (try_except c h).
Proof.
  intros Hc Hh st. unfold try_except. specialize (Hc st).
  destruct (c st) as [[a|e] st']; simpl in *; [assumption|].
  now rewrite Hh.
Qed.

Lemma keeps_call {A} (f : W -> outcome A * W) : keeps_sources (call f).
Proof. intros st. unfold call. now destruct (f (world st)). Qed.

Lemma keeps_set_heap f : keeps_sources (W:=W) (modify (set_heap f)).
Proof. intros st. reflexivity. Qed.

Lemma keeps_set_SESSIONS f : keeps_sources (W:=W) (modify (set_SESSIONS f)).
Proof. intros st. reflexivity. Qed.

Lemma keeps_new_list xs : keeps_sources (W:=W) (new_list xs).
Proof. intros st. reflexivity. Qed.

Lemma keeps_list_append l x : keeps_sources (W:=W) (list_append l x).
Proof. apply keeps_set_heap. Qed.

Lemma keeps_list_read l : keeps_sources (W:=W) (list_read l).
Proof. apply keeps_gets. Qed.

Lemma keeps_index {A} (xs : list A) i : keeps_sources (W:=W) (index xs i).
Proof. unfold index. destruct (xs !! Z.to_nat i); [apply keeps_ret|apply keeps_raise]. Qed.

Lemma keeps_stored_sources sid : keeps_sources (W:=W) (stored_sources sid).
Proof. apply keeps_gets. Qed.

End Frame.

#[export] Hint Resolve keeps_ret keeps_raise keeps_gets keeps_call keeps_set_heap
  keeps_set_SESSIONS keeps_new_list keeps_list_append keeps_list_read keeps_index
  keeps_stored_sources : frame.

(** One step of a frame proof: split a sequence, a handler or a branch,
    or close the goal with a known fact. *)
Ltac frame_step :=
  match goal with
  | |- keeps_sources (bind _ _) => apply keeps_bind; [|intros]
  | |- keeps_sources (try_except _ _) => apply keeps_try_except; [|intros]
  | |- keeps_sources (if ?b then _ else _) => destruct b
  | |- keeps_sources (match ?x with _ => _ end) => destruct x
  | |- keeps_sources _ => solve [auto with frame]
  end.
Ltac frame := repeat frame_step.

Section FrameHandlers.
Context {W : Type} {collab : Collaborators W}.

Lemma keeps_fetch_full_article url : keeps_sources (fetch_full_article url).
Proof. unfold fetch_full_article. frame. Qed.

Lemma keeps_SESSIONS_get sid : keeps_sources (W:=W) (SESSIONS_get sid).
Proof. unfold SESSIONS_get. frame. Qed.

Lemma keeps_record_turn sid u r : keeps_sources (W:=W) (record_turn sid u r).
Proof. unfold record_turn. pose proof keeps_SESSIONS_get. frame. Qed.

Lemma keeps_grounded_or_general q u srcs : keeps_sources (grounded_or_general q u srcs).
Proof. unfold grounded_or_general. frame. Qed.

Lemma keeps_summarize_target t : keeps_sources (summarize_target t).
Proof. unfold summarize_target. pose proof keeps_fetch_full_article. frame. Qed.

Lemma keeps_compare_fast_path sid u : keeps_sources (compare_fast_path sid u).
Proof.
  unfold compare_fast_path.
  pose proof keeps_grounded_or_general. pose proof keeps_record_turn. frame.
Qed.

Lemma keeps_summarize_fast_path sid u : keeps_sources (summarize_fast_path sid u).
Proof.
  unfold summarize_fast_path.
  pose proof keeps_grounded_or_general. pose proof keeps_record_turn.
  pose proof keeps_summarize_target. frame.
Qed.

Lemma keeps_append_and_get_reply sid u : keeps_sources (_append_and_get_reply sid u).
Proof. unfold _append_and_get_reply. pose proof keeps_SESSIONS_get. frame. Qed.

(** C9: whatever the request and whatever the collaborators do,
    [api_chat] leaves [SOURCES] as it was; the dict built after a
    just-in-time fetch is handed to the model and stored nowhere. *)
Theorem C9_follow_up_keeps_sources (data : gmap string val) (st : State W) :
  SOURCES (snd (api_chat data st)) = SOURCES st.
Proof.
  revert st. change (keeps_sources (api_chat data)). unfold api_chat.
  pose proof keeps_compare_fast_path. pose proof keeps_summarize_fast_path.
  pose proof keeps_append_and_get_reply. frame.
Qed.

End FrameHandlers.
End FrameFacts.

(* ================================================================== *)
(** * Further properties of the handlers and their helpers *)
(* ================================================================== *)

Module TextFacts.
Import Py PyFacts ReFacts App.

Lemma app_empty_r (s : string) : s ++ EmptyString = s.
Proof. induction s as [|c s IH]; [reflexivity|]. rewrite app_cons. now rewrite IH. Qed.

(** ** Collapsing blanks *)

Lemma starts_blank_collapse s : starts_blank (collapse_ws s) = starts_blank s.
Proof.
  induction s as [|c s IH]; [reflexivity|].
  cbn [collapse_ws]. destruct (is_space c) eqn:Ec; [|simpl; now rewrite Ec].
  destruct s as [|c' s]; [simpl; now rewrite Ec|].
  destruct (is_space c') eqn:Ec'.
  - rewrite IH. simpl. now rewrite Ec, Ec'.
  - simpl. now rewrite Ec.
Qed.

Lemma single_spaced_collapse s : single_spaced (collapse_ws s) = true.
Proof.
  induction s as [|c s IH]; [reflexivity|].
  cbn [collapse_ws]. destruct (is_space c) eqn:Ec.
  - destruct s as [|c' s]; [reflexivity|].
    destruct (is_space c') eqn:Ec'; [exact IH|].
    cbn [single_spaced]. rewrite IH, starts_blank_collapse. simpl. now rewrite Ec'.
  - cbn [single_spaced]. now rewrite Ec, IH.
Qed.

Lemma single_spaced_lstrip s : single_spaced s = true -> single_spaced (lstrip s) = true.
Proof.
  induction s as [|c s IH]; [reflexivity|]. intros H.
  simpl. destruct (is_space c); [|exact H].
  apply IH. simpl in H. now apply andb_prop in H as [_ H].
Qed.

Lemma starts_blank_rstrip s : starts_blank (rstrip s) = true -> starts_blank s = true.
Proof.
  destruct s as [|c s]; [discriminate|]. simpl.
  destruct (is_space c && is_empty (rstrip s)) eqn:E; [discriminate|]. now simpl.
Qed.

Lemma single_spaced_rstrip s : single_spaced s = true -> single_spaced (rstrip s) = true.
Proof.
  induction s as [|c s IH]; [reflexivity|]. intros H.
  cbn [single_spaced] in H. apply andb_prop in H as [Hc Hs].
  simpl. destruct (is_space c && is_empty (rstrip s)); [reflexivity|].
  cbn [single_spaced]. rewrite (IH Hs), andb_true_r.
  destruct (is_space c); [|reflexivity]. simpl in *.
  apply andb_prop in Hc as [-> Hb]. simpl.
  destruct (starts_blank (rstrip s)) eqn:E; [|reflexivity].
  apply starts_blank_rstrip in E. now rewrite E in Hb.
Qed.

Lemma collapse_fixed s : single_spaced s = true -> collapse_ws s = s.
Proof.
  induction s as [|c s IH]; [reflexivity|]. intros H.
  cbn [single_spaced] in H. apply andb_prop in H as [Hc Hs].
  cbn [collapse_ws]. destruct (is_space c) eqn:Ec.
  - simpl in Hc. apply andb_prop in Hc as [Hsp Hb]. apply Ascii.eqb_eq in Hsp. subst c.
    destruct s as [|c' s]; [reflexivity|].
    simpl in Hb. apply negb_true_iff in Hb. rewrite Hb. now rewrite (IH Hs).
  - now rewrite (IH Hs).
Qed.

Lemma split_from_collapse s : forall tok, split_from tok (collapse_ws s) = split_from tok s.
Proof.
  induction s as [|c s IH]; intros tok; [reflexivity|].
  cbn [collapse_ws]. destruct (is_space c) eqn:Ec.
  - destruct s as [|c' s].
    + simpl. rewrite Ec. now destruct (is_empty tok).
    + destruct (is_space c') eqn:Ec'.
      * rewrite IH. cbn [split_from]. rewrite Ec, Ec'.
        destruct (is_empty tok); simpl; now rewrite ?Ec'.
      * cbn [split_from]. change (is_space " ") with true. cbv iota. rewrite Ec.
        now rewrite !IH.
  - cbn [split_from]. now rewrite Ec, IH.
Qed.

(** ** A trimmed, single-spaced text is its tokens joined by spaces *)

Lemma split_from_nonempty tok s :
  is_empty tok = false -> split_from tok s <> [].
Proof.
  revert tok. induction s as [|c s IH]; intros tok H; simpl.
  - now rewrite H.
  - destruct (is_space c); [now rewrite H|]. apply IH. now destruct tok.
Qed.

Lemma join_cons sep x xs :
  xs <> [] -> join sep (x :: xs) = x ++ sep ++ join sep xs.
Proof. destruct xs; [congruence|reflexivity]. Qed.

Lemma join_split_from s : forall tok,
  single_spaced s = true -> rstrip s = s ->
  (is_empty tok = true -> no_lead s = true) ->
  join " " (split_from tok s) = tok ++ s.
Proof.
  induction s as [|c s IH]; intros tok Hs Hr Hl.
  - simpl. destruct tok; [reflexivity|]. simpl. now rewrite app_empty_r.
  - cbn [single_spaced] in Hs. apply andb_prop in Hs as [Hc Hs].
    simpl in Hr. destruct (is_space c && is_empty (rstrip s)) eqn:E; [discriminate|].
    injection Hr as Hr.
    cbn [split_from]. destruct (is_space c) eqn:Ec.
    + simpl in Hc, E. apply andb_prop in Hc as [Hsp Hb]. apply Ascii.eqb_eq in Hsp. subst c.
      destruct (is_empty tok) eqn:Et.
      { specialize (Hl eq_refl). discriminate Hl. }
      rewrite Hr in E.
      assert (Hne : split_from EmptyString s <> []).
      { destruct s as [|c' s]; [discriminate|]. simpl in Hb.
        apply negb_true_iff in Hb. cbn [split_from]. rewrite Hb.
        now apply split_from_nonempty. }
      rewrite join_cons by exact Hne.
      rewrite (IH EmptyString Hs Hr).
      * reflexivity.
      * intros _. destruct s; [reflexivity|]. exact Hb.
    + rewrite (IH (tok ++ String c EmptyString) Hs Hr).
      * rewrite app_assoc'. reflexivity.
      * intros H. destruct tok; discriminate.
Qed.

Lemma rstrip_strip s : rstrip (strip s) = strip s.
Proof. unfold strip. apply rstrip_idem. Qed.

Lemma no_lead_strip s : no_lead (strip s) = true.
Proof. unfold strip. apply rstrip_no_lead, lstrip_no_lead. Qed.

Lemma clean_text_join (txt : string) : _clean_text txt = join " " (split txt).
Proof.
  unfold _clean_text. destruct (is_empty txt) eqn:E.
  - apply is_empty_true in E. now subst.
  - set (r := strip (collapse_ws txt)).
    assert (Hs : single_spaced r = true).
    { unfold r, strip. apply single_spaced_rstrip, single_spaced_lstrip, single_spaced_collapse. }
    rewrite <- (split_from_collapse txt EmptyString : split (collapse_ws txt) = split txt).
    rewrite <- (split_strip (collapse_ws txt)). fold r.
    unfold split. rewrite (join_split_from r EmptyString Hs).
    + reflexivity.
    + apply rstrip_strip.
    + intros _. apply no_lead_strip.
Qed.

Lemma clean_text_shape (txt : string) :
  single_spaced (_clean_text txt) = true
  /\ strip (_clean_text txt) = _clean_text txt
  /\ split (_clean_text txt) = split txt.
Proof.
  unfold _clean_text. destruct (is_empty txt) eqn:E.
  - apply is_empty_true in E. subst. repeat split; reflexivity.
  - split; [|split].
    + unfold strip. apply single_spaced_rstrip, single_spaced_lstrip, single_spaced_collapse.
    + apply strip_idem.
    + rewrite split_strip. apply split_from_collapse.
Qed.

Lemma clean_text_fixed txt : _clean_text (_clean_text txt) = _clean_text txt.
Proof.
  destruct (clean_text_shape txt) as (_ & _ & Hsp).
  rewrite clean_text_join at 1. rewrite Hsp. symmetry. apply clean_text_join.
Qed.

(** X1: [_clean_text] returns the blank-separated tokens of the text
    joined by single spaces: the tokens are kept, no two blanks follow
    one another, no blank begins or ends the result, and cleaning a
    clean text changes nothing. *)
Theorem clean_text_normal_form (txt : string) :
  let r := _clean_text txt in
  r = join " " (split txt)
  /\ split r = split txt
  /\ single_spaced r = true
  /\ strip r = r
  /\ _clean_text r = r.
Proof.
  cbv zeta.
  destruct (clean_text_shape txt) as (Hs & Ht & Hsp).
  split; [apply clean_text_join|]. split; [exact Hsp|]. split; [exact Hs|]. split; [exact Ht|].
  apply clean_text_fixed.
Qed.

End TextFacts.

Module ReplaceFacts.
Import Py PyFacts ReFacts.

(** Replacing a single character. *)
Lemma replace_char_cons c new a s :
  replace (String a s) (String c EmptyString) new
  = (if Ascii.eqb c a then new else String a EmptyString) ++ replace s (String c EmptyString) new.
Proof.
  unfold replace. simpl. destruct (Ascii.eqb c a); [|reflexivity].
  now destruct s.
Qed.

Lemma any_char_app p a : forall b, any_char p (a ++ b) = any_char p a || any_char p b.
Proof.
  induction a as [|x a IH]; intros b; [reflexivity|].
  rewrite app_cons. simpl. now rewrite IH, orb_assoc.
Qed.

Lemma contains_char c s : contains (String c EmptyString) s = any_char (Ascii.eqb c) s.
Proof.
  induction s as [|a s IH]; [reflexivity|].
  cbn [contains any_char startswith]. rewrite IH.
  destruct (Ascii.eqb c a); [now destruct s|reflexivity].
Qed.

(** After [s.replace(c, new)] the character [c] is gone, if [new] does
    not bring it back. *)
Lemma replace_char_gone c new s :
  any_char (Ascii.eqb c) new = false ->
  contains (String c EmptyString) (replace s (String c EmptyString) new) = false.
Proof.
  intros Hnew. rewrite contains_char.
  induction s as [|a s IH]; [reflexivity|].
  rewrite replace_char_cons, any_char_app, IH, orb_false_r.
  destruct (Ascii.eqb c a) eqn:E; [exact Hnew|]. simpl. now rewrite E.
Qed.

Lemma no_newline_after_replace s : contains nl (replace s nl "<br>") = false.
Proof. apply replace_char_gone. reflexivity. Qed.

Lemma replace_char_app c new a : forall b,
  replace (a ++ b) (String c EmptyString) new
  = replace a (String c EmptyString) new ++ replace b (String c EmptyString) new.
Proof.
  induction a as [|x a IH]; intros b; [reflexivity|].
  rewrite app_cons, !replace_char_cons, IH. now rewrite app_assoc'.
Qed.

Lemma replace_nl_cons new a s :
  replace (String a s) nl new
  = (if Ascii.eqb (ascii_of_nat 10) a then new else String a EmptyString) ++ replace s nl new.
Proof. apply replace_char_cons. Qed.

Lemma startswith_br s :
  startswith s "<br>" = true ->
  exists t, s = String "<" (String "b" (String "r" (String ">" t))).
Proof.
  destruct s as [|c1 [|c2 [|c3 [|c4 t]]]]; cbn [startswith]; try discriminate;
    rewrite ?andb_false_r; try discriminate.
  intros H. apply andb_prop in H as [E1 H]. apply andb_prop in H as [E2 H].
  apply andb_prop in H as [E3 H]. apply andb_prop in H as [E4 _].
  apply Ascii.eqb_eq in E1, E2, E3, E4. subst. now exists t.
Qed.

(** [a.replace("<br>", "\n").replace("\n", "<br>")] is [a.replace("\n", "<br>")]. *)
Lemma br_round_trip_bounded n : forall a,
  (String.length a <= n)%nat ->
  replace (replace a "<br>" nl) nl "<br>" = replace a nl "<br>".
Proof.
  induction n as [|n IH]; intros a Hn.
  - destruct a; [reflexivity|simpl in Hn; lia].
  - destruct a as [|c a]; [reflexivity|].
    destruct (startswith (String c a) "<br>") eqn:E.
    + destruct (startswith_br _ E) as [t Ht]. rewrite Ht in *. clear E Ht.
      assert (Hlen : (String.length t <= n)%nat) by (simpl in Hn; lia).
      assert (Hstep : replace (String "<" (String "b" (String "r" (String ">" t)))) "<br>" nl
                      = String (ascii_of_nat 10) (replace t "<br>" nl)) by (destruct t; reflexivity).
      rewrite Hstep, !replace_nl_cons, (IH t Hlen). reflexivity.
    + assert (Hstep : replace (String c a) "<br>" nl = String c (replace a "<br>" nl)).
      { unfold replace. cbn [is_empty replace_from]. now rewrite E. }
      rewrite Hstep, !replace_nl_cons.
      rewrite IH; [reflexivity|simpl in Hn; lia].
Qed.

Lemma br_round_trip a : replace (replace a "<br>" nl) nl "<br>" = replace a nl "<br>".
Proof. apply (br_round_trip_bounded (String.length a)). lia. Qed.

End ReplaceFacts.

Module StoreFacts.
Import Py Eff Resolver App.

Create HintDb world.

Section Facts.
Context {W : Type} {collab : Collaborators W}.

Lemma set_world_same (st : State W) : set_world (world st) st = st.
Proof. now destruct st. Qed.

Lemma world_only_ret {A} (a : A) : world_only (W:=W) (ret a).
Proof. intros st. exists (world st). simpl. now rewrite set_world_same. Qed.

Lemma world_only_raise {A} e : world_only (W:=W) (A:=A) (raise e).
Proof. intros st. exists (world st). simpl. now rewrite set_world_same. Qed.

Lemma world_only_gets {A} (f : State W -> A) : world_only (gets f).
Proof. intros st. exists (world st). simpl. now rewrite set_world_same. Qed.

Lemma world_only_call {A} (f : W -> outcome A * W) : world_only (call f).
Proof. intros st. unfold call. destruct (f (world st)) as [r w]. now exists w. Qed.

Lemma world_only_bind {A B} (c : M (State W) A) (k : A -> M (State W) B) :
  world_only c -> (forall a, world_only (k a)) -> world_only (bind c k).
Proof.
  intros Hc Hk st. unfold bind. destruct (Hc st) as [w Hw].
  destruct (c st) as [[a|e] st1]; simpl in *; subst st1; [|now exists w].
  destruct (Hk a (set_world w st)) as [w' Hw']. exists w'. exact Hw'.
Qed.

Lemma world_only_try_except {A} (c : M (State W) A) (h : string -> M (State W) A) :
  world_only c -> (forall e, world_only (h e)) -> world_only (try_except c h).
Proof.
  intros Hc Hh st. unfold try_except. destruct (Hc st) as [w Hw].
  destruct (c st) as [[a|e] st1]; simpl in *; subst st1; [now exists w|].
  destruct (Hh e (set_world w st)) as [w' Hw']. exists w'. exact Hw'.
Qed.

Lemma world_only_index {A} (xs : list A) i : world_only (W:=W) (index xs i).
Proof. unfold index. destruct (xs !! Z.to_nat i); [apply world_only_ret|apply world_only_raise]. Qed.

End Facts.

#[export] Hint Resolve world_only_ret world_only_raise world_only_gets world_only_call
  world_only_index : world.

Ltac world_step :=
  match goal with
  | |- world_only (bind _ _) => apply world_only_bind; [|intros]
  | |- world_only (try_except _ _) => apply world_only_try_except; [|intros]
  | |- world_only (if ?b then _ else _) => destruct b
  | |- world_only (match ?x with _ => _ end) => destruct x
  | |- world_only _ => solve [auto with world]
  end.
Ltac world := repeat world_step.

Section Handlers.
Context {W : Type} {collab : Collaborators W}.

Lemma world_only_fetch_full_article url : world_only (fetch_full_article url).
Proof. unfold fetch_full_article. world. Qed.

Lemma world_only_build_full_sources results : world_only (build_full_sources results).
Proof.
  induction results as [|r results IH]; cbn [build_full_sources]; [apply world_only_ret|].
  pose proof world_only_fetch_full_article. world.
Qed.

Lemma world_only_grounded_or_general q u srcs : world_only (grounded_or_general q u srcs).
Proof. unfold grounded_or_general. world. Qed.

Lemma world_only_summarize_target t : world_only (summarize_target t).
Proof. unfold summarize_target. pose proof world_only_fetch_full_article. world. Qed.

Lemma same_store_set_world (st : State W) w : same_store st (set_world w st).
Proof. repeat split. Qed.

(** What [record_turn] does to a session that exists. *)
Lemma record_turn_run sid u r (st : State W) l :
  SESSIONS st !! sid = Some l ->
  exists st',
    record_turn sid u r st = (Ok tt, st')
    /\ world st' = world st
    /\ appended l [ {| role := "user"; content := u |};
                    {| role := "assistant"; content := r |} ] st st'.
Proof.
  intros Hs. unfold record_turn, SESSIONS_get, bind, gets, list_append, modify, ret.
  rewrite Hs. simpl. eexists. split; [reflexivity|]. split; [reflexivity|].
  unfold appended. simpl. split; [now apply insert_id|]. split; [reflexivity|].
  rewrite lookup_insert_eq. simpl. rewrite insert_insert_eq.
  now rewrite <- app_assoc.
Qed.

Lemma appended_after_world l extra (st st' : State W) w :
  appended l extra (set_world w st) st' -> appended l extra st st'.
Proof. intros H. exact H. Qed.

Lemma compare_fast_path_effect sid u (st : State W) l :
  SESSIONS st !! sid = Some l ->
  let r := compare_fast_path sid u st in
  (fst r = Ok None /\ snd r = st)
  \/ (exists reply,
        fst r = Ok (Some (ChatOk sid (replace reply nl "<br>")))
        /\ appended l [user_turn u; assistant_turn reply] st (snd r))
  \/ (exists e, fst r = Raise e /\ same_store st (snd r)).
Proof.
  intros Hs. cbv zeta.
  destruct (compare_fast_path sid u st) as [o st'] eqn:Er. cbn [fst snd].
  unfold compare_fast_path in Er.
  destruct (detect_two_links u) as [[i j]|];
    [|injection Er as <- <-; left; split; reflexivity].
  unfold bind at 1 in Er. unfold stored_sources, gets in Er.
  destruct (_ && _); [|injection Er as <- <-; left; split; reflexivity].
  unfold bind at 1 in Er. unfold index at 1 in Er.
  destruct (_ !! Z.to_nat (i - 1)) as [s1|];
    [|injection Er as <- <-; right; right; eexists; split; [reflexivity|repeat split]].
  unfold ret at 1 in Er. unfold bind at 1 in Er. unfold index at 1 in Er.
  destruct (_ !! Z.to_nat (j - 1)) as [s2|];
    [|injection Er as <- <-; right; right; eexists; split; [reflexivity|repeat split]].
  unfold ret at 1 in Er. unfold bind at 1 in Er.
  match type of Er with context [grounded_or_general ?q ?u0 ?ss st] =>
    destruct (world_only_grounded_or_general q u0 ss st) as [w Hw];
    destruct (grounded_or_general q u0 ss st) as [[reply|e] st1] end;
    cbn [snd] in Hw; subst st1.
  - unfold bind at 1 in Er.
    destruct (record_turn_run sid u reply (set_world w st) l Hs) as (st2 & E2 & _ & Happ).
    rewrite E2 in Er. injection Er as <- <-.
    right; left. exists reply. split; [reflexivity|exact Happ].
  - injection Er as <- <-.
    right; right. exists e. split; [reflexivity|apply same_store_set_world].
Qed.

Lemma summarize_fast_path_effect sid u (st : State W) l :
  SESSIONS st !! sid = Some l ->
  let r := summarize_fast_path sid u st in
  (fst r = Ok None /\ snd r = st)
  \/ (exists reply,
        fst r = Ok (Some (ChatOk sid (replace reply nl "<br>")))
        /\ appended l [user_turn u; assistant_turn reply] st (snd r))
  \/ (exists e, fst r = Raise e /\ same_store st (snd r)).
Proof.
  intros Hs. cbv zeta.
  destruct (summarize_fast_path sid u st) as [o st'] eqn:Er. cbn [fst snd].
  unfold summarize_fast_path in Er.
  destruct (detect_link_index u) as [i|];
    [|injection Er as <- <-; left; split; reflexivity].
  unfold bind at 1 in Er. unfold stored_sources, gets in Er.
  destruct (_ && _); [|injection Er as <- <-; left; split; reflexivity].
  unfold bind at 1 in Er. unfold index at 1 in Er.
  destruct (_ !! Z.to_nat (i - 1)) as [s1|];
    [|injection Er as <- <-; right; right; eexists; split; [reflexivity|repeat split]].
  unfold ret at 1 in Er. unfold bind at 1 in Er.
  destruct (world_only_summarize_target s1 st) as [w0 Hw0].
  destruct (summarize_target s1 st) as [[target|e] st0]; cbn [snd] in Hw0; subst st0;
    [|injection Er as <- <-; right; right; exists e;
      split; [reflexivity|apply same_store_set_world]].
  unfold bind at 1 in Er.
  match type of Er with context [grounded_or_general ?q ?u0 ?ss ?s0] =>
    destruct (world_only_grounded_or_general q u0 ss s0) as [w Hw];
    destruct (grounded_or_general q u0 ss s0) as [[reply|e] st1] end;
    cbn [snd] in Hw; subst st1.
  - unfold bind at 1 in Er.
    destruct (record_turn_run sid u reply (set_world w (set_world w0 st)) l Hs)
      as (st2 & E2 & _ & Happ).
    rewrite E2 in Er. injection Er as <- <-.
    right; left. exists reply. split; [reflexivity|exact Happ].
  - injection Er as <- <-.
    right; right. exists e. split; [reflexivity|repeat split].
Qed.

(** What [_append_and_get_reply] does to a session that exists. *)
Lemma append_and_get_reply_effect sid u (st : State W) l :
  SESSIONS st !! sid = Some l ->
  let r := _append_and_get_reply sid u st in
  (exists reply,
     fst r = Ok reply /\ appended l [user_turn u; assistant_turn reply] st (snd r))
  \/ (exists e, fst r = Raise e /\ appended l [user_turn u] st (snd r)).
Proof.
  intros Hs. cbv zeta.
  destruct (_append_and_get_reply sid u st) as [o st'] eqn:Er. cbn [fst snd].
  unfold _append_and_get_reply, SESSIONS_get, bind, list_append, list_read,
    modify, gets, call, ret in Er.
  rewrite Hs in Er. simpl in Er.
  destruct (ChatBot_chat _ (world st)) as [[reply|e] w]; injection Er as <- <-.
  - left. exists reply. split; [reflexivity|].
    unfold appended. simpl. split; [now apply insert_id|]. split; [reflexivity|].
    rewrite !lookup_insert_eq. simpl. rewrite insert_insert_eq.
    now rewrite <- app_assoc.
  - right. exists e. split; [reflexivity|]. repeat split.
Qed.

(** What [api_chat] does when the session exists: it answers, and the
    store is as before but for the turns appended to that session's
    list object. *)
Lemma api_chat_effect (data : gmap string val) (st : State W) l :
  let sid := strip (or_str (get data "session_id") EmptyString) in
  let q := strip (or_str (get data "query") EmptyString) in
  is_empty sid = false -> is_empty q = false ->
  SESSIONS st !! sid = Some l ->
  let r := api_chat data st in
  (exists reply,
     fst r = Ok (ChatOk sid (replace reply nl "<br>"))
     /\ appended l [user_turn q; assistant_turn reply] st (snd r))
  \/ (exists e,
        fst r = Ok (Error 500
                 ("An error occurred while communicating with the model. Details: " ++ e))
        /\ (same_store st (snd r) \/ appended l [user_turn q] st (snd r))).
Proof.
  intros sid q Hsid Hq Hs. cbv zeta.
  destruct (api_chat data st) as [o st'] eqn:Er. cbn [fst snd].
  unfold api_chat in Er. fold sid q in Er.
  rewrite Hsid, Hq in Er. cbn [orb] in Er.
  unfold bind at 1 in Er. unfold gets at 1 in Er.
  rewrite Hs in Er. rewrite bool_decide_true in Er by eauto. cbn [negb] in Er.
  unfold try_except, bind in Er.
  destruct (compare_fast_path_effect sid q st l Hs) as [[E1 E2]|[(reply & E1 & E2)|(e & E1 & E2)]];
    destruct (compare_fast_path sid q st) as [o1 st1]; cbn [fst snd] in E1, E2; subst o1.
  2:{ injection Er as <- <-. left. exists reply. split; [reflexivity|exact E2]. }
  2:{ injection Er as <- <-. right. exists e. split; [reflexivity|left; exact E2]. }
  subst st1.
  destruct (summarize_fast_path_effect sid q st l Hs) as [[E1 E2]|[(reply & E1 & E2)|(e & E1 & E2)]];
    destruct (summarize_fast_path sid q st) as [o1 st1]; cbn [fst snd] in E1, E2; subst o1.
  2:{ injection Er as <- <-. left. exists reply. split; [reflexivity|exact E2]. }
  2:{ injection Er as <- <-. right. exists e. split; [reflexivity|left; exact E2]. }
  subst st1.
  destruct (append_and_get_reply_effect sid q st l Hs) as [(reply & E1 & E2)|(e & E1 & E2)];
    destruct (_append_and_get_reply sid q st) as [o1 st1]; cbn [fst snd] in E1, E2; subst o1;
    injection Er as <- <-.
  - left. exists reply. split; [reflexivity|exact E2].
  - right. exists e. split; [reflexivity|right; exact E2].
Qed.

End Handlers.
End StoreFacts.

Module AskFacts.
Import Py Eff Resolver App StoreFacts AppFacts ReplaceFacts.

Section Handlers.
Context {W : Type} {collab : Collaborators W}.

Lemma create_initial_session_run (q a : string) (srcs : list (gmap string val)) (st : State W) :
  exists sid st',
    _create_initial_session q a srcs st = (Ok sid, st')
    /\ SESSIONS st' = <[sid := fresh (dom (heap st))]> (SESSIONS st)
    /\ SOURCES st' = <[sid := srcs]> (SOURCES st)
    /\ heap st' = <[fresh (dom (heap st)) := initial_transcript q a srcs]> (heap st).
Proof.
  unfold _create_initial_session, bind, _new_session_id, new_list, modify, ret.
  destruct (uuid4 (world st)) as [u w]. simpl.
  eexists _, _. split; [reflexivity|]. repeat split.
Qed.

(** What [api_ask] does to the store: nothing, or one session added
    with a new transcript object. *)
Lemma api_ask_effect (data : gmap string val) (st : State W) :
  let query := strip (or_str (get data "query") EmptyString) in
  let r := api_ask data st in
  (same_store st (snd r) /\ (returned (fst r) ≫= session_id_of) = None)
  \/ (exists answer results full sid,
        fst r = Ok (AskOk (replace answer nl "<br>") results (Some sid))
        /\ SESSIONS (snd r) = <[sid := fresh (dom (heap st))]> (SESSIONS st)
        /\ SOURCES (snd r) = <[sid := full]> (SOURCES st)
        /\ heap (snd r)
           = <[fresh (dom (heap st))
                 := initial_transcript query (replace answer "<br>" nl) full]> (heap st)).
Proof.
  cbv zeta.
  destruct (api_ask data st) as [o st'] eqn:Er. cbn [fst snd].
  unfold api_ask in Er.
  destruct (is_empty _); [injection Er as <- <-; left; repeat split|].
  unfold bind at 1 in Er.
  match type of Er with context [match ?blk st with _ => _ end] =>
    assert (Hblk : world_only blk);
    [|destruct (Hblk st) as [w Hw]; destruct (blk st) as [[[[answer results] full]|e] st1];
      cbn [snd] in Hw; subst st1]
  end.
  { pose proof world_only_build_full_sources. world. }
  2:{ injection Er as <- <-. left. repeat split. }
  destruct (nonempty answer && negb (startswith answer "ERROR:")).
  - unfold bind at 1 in Er. unfold bind at 1 in Er.
    destruct (create_initial_session_run
                (strip (or_str (get data "query") EmptyString))
                (replace answer "<br>" nl) full (set_world w st))
      as (sid & st2 & E & Hs & Hr & Hh).
    rewrite E in Er. unfold ret in Er. injection Er as <- <-.
    right. exists answer, results, full, sid. split; [reflexivity|].
    split; [exact Hs|]. split; [exact Hr|exact Hh].
  - unfold bind, ret in Er. injection Er as <- <-. left. repeat split.
Qed.

(** ** The shape of the store is kept *)

Lemma well_formed_same_store (st st' : State W) :
  same_store st st' -> well_formed st -> well_formed st'.
Proof.
  intros (Hs & Hr & Hh) (H1 & H2 & H3). unfold well_formed. rewrite Hs, Hr, Hh. auto.
Qed.

Lemma well_formed_appended l extra (st st' : State W) :
  appended l extra st st' -> well_formed st -> well_formed st'.
Proof.
  intros (Hs & Hr & Hh) (H1 & H2 & H3). unfold well_formed. rewrite Hs, Hr, Hh.
  split; [|split; assumption].
  intros sid l' Hl'. destruct (decide (l = l')) as [->|Hne].
  - rewrite lookup_insert_eq. eauto.
  - rewrite lookup_insert_ne by exact Hne. eauto.
Qed.

Lemma well_formed_new_session sid msgs srcs (st st' : State W) :
  SESSIONS st' = <[sid := fresh (dom (heap st))]> (SESSIONS st) ->
  SOURCES st' = <[sid := srcs]> (SOURCES st) ->
  heap st' = <[fresh (dom (heap st)) := msgs]> (heap st) ->
  well_formed st -> well_formed st'.
Proof.
  intros Hs Hr Hh (H1 & H2 & H3). unfold well_formed. rewrite Hs, Hr, Hh.
  assert (Hfresh : forall sid' l', SESSIONS st !! sid' = Some l' -> l' <> fresh (dom (heap st))).
  { intros sid' l' Hl' ->. apply H1 in Hl'. apply elem_of_dom in Hl'.
    exact (is_fresh _ Hl'). }
  split; [|split].
  - intros sid' l'. rewrite lookup_insert. case_decide as E.
    + intros [= <-]. rewrite lookup_insert_eq. eauto.
    + intros Hl'. rewrite lookup_insert_ne by (intros E'; eapply Hfresh; eauto). eauto.
  - intros sid1 sid2 l'. rewrite !lookup_insert.
    repeat case_decide; subst; try congruence.
    + intros [= <-] Hl'. exfalso. eapply Hfresh; eauto.
    + intros Hl' [= <-]. exfalso. eapply Hfresh; eauto.
    + eauto.
  - intros sid'. rewrite !lookup_insert. case_decide; [split; eauto|apply H3].
Qed.

(** An unknown or blank session id: [api_chat] answers 404 or 400 and
    the state is untouched. *)
Lemma api_chat_rejects (data : gmap string val) (st : State W) :
  let sid := strip (or_str (get data "session_id") EmptyString) in
  let q := strip (or_str (get data "query") EmptyString) in
  (is_empty sid || is_empty q = true ->
     api_chat data st = (Ok (Error 400 "session_id and query are required"), st))
  /\ (is_empty sid || is_empty q = false -> SESSIONS st !! sid = None ->
       api_chat data st = (Ok (Error 404 "Invalid or expired chat session ID."), st)).
Proof.
  cbv zeta. unfold api_chat. split.
  - intros ->. reflexivity.
  - intros -> Hs. unfold bind, gets. rewrite Hs.
    rewrite bool_decide_false by (intros [x Hx]; discriminate). reflexivity.
Qed.

End Handlers.
End AskFacts.

Module SessionFacts.
Import Py Eff Resolver App StoreFacts AppFacts ReplaceFacts AskFacts.

Section Handlers.
Context {W : Type} {collab : Collaborators W}.

Lemma api_chat_history_reads (arg : val) (st : State W) :
  snd (api_chat_history arg st) = st.
Proof.
  unfold api_chat_history. destruct (is_empty _); [reflexivity|].
  unfold bind, gets, list_read, ret. simpl. now destruct (SESSIONS st !! _).
Qed.

Lemma api_chat_well_formed (data : gmap string val) (st : State W) :
  well_formed st -> well_formed (snd (api_chat data st)).
Proof.
  intros Hwf.
  destruct (is_empty (strip (or_str (get data "session_id") EmptyString))
            || is_empty (strip (or_str (get data "query") EmptyString))) eqn:Eb.
  - now rewrite (proj1 (api_chat_rejects data st) Eb).
  - destruct (SESSIONS st !! strip (or_str (get data "session_id") EmptyString)) as [l|] eqn:Es.
    + apply orb_false_elim in Eb as [E1 E2].
      destruct (api_chat_effect data st l E1 E2 Es) as [(reply & _ & H)|(e & _ & [H|H])].
      * eapply well_formed_appended; eauto.
      * eapply well_formed_same_store; eauto.
      * eapply well_formed_appended; eauto.
    + now rewrite (proj2 (api_chat_rejects data st) Eb Es).
Qed.

Lemma api_ask_well_formed (data : gmap string val) (st : State W) :
  well_formed st -> well_formed (snd (api_ask data st)).
Proof.
  intros Hwf.
  destruct (api_ask_effect data st) as [[H _]|(a & rs & full & sid & _ & Hs & Hr & Hh)].
  - eapply well_formed_same_store; eauto.
  - eapply well_formed_new_session; eauto.
Qed.

Lemma well_formed_empty (w : W) :
  well_formed {| SESSIONS := ∅; SOURCES := ∅; heap := ∅; world := w |}.
Proof.
  unfold well_formed. simpl. split; [|split].
  - intros sid l. rewrite lookup_empty. discriminate.
  - intros sid1 sid2 l. rewrite lookup_empty. discriminate.
  - intros sid. rewrite !lookup_empty. split; intros [x Hx]; discriminate.
Qed.

(** X2: the store starts well formed and every handler keeps it so. *)
Theorem store_shape_kept :
  (forall w : W, well_formed {| SESSIONS := ∅; SOURCES := ∅; heap := ∅; world := w |})
  /\ (forall data (st : State W), well_formed st -> well_formed (snd (api_ask data st)))
  /\ (forall data (st : State W), well_formed st -> well_formed (snd (api_chat data st)))
  /\ (forall arg (st : State W), snd (api_chat_history arg st) = st).
Proof.
  split; [exact well_formed_empty|].
  split; [exact api_ask_well_formed|].
  split; [exact api_chat_well_formed|exact api_chat_history_reads].
Qed.

Lemma history_of_inv (st : State W) sid old :
  history_of st sid = Some old ->
  exists l, SESSIONS st !! sid = Some l /\ heap st !! l = Some old.
Proof.
  unfold history_of. destruct (SESSIONS st !! sid) as [l|]; [|discriminate].
  simpl. eauto.
Qed.

Lemma history_of_appended l extra (st st' : State W) sid old :
  SESSIONS st !! sid = Some l -> heap st !! l = Some old ->
  appended l extra st st' -> history_of st' sid = Some (old ++ extra)%list.
Proof.
  intros Hs Hh (Es & _ & Eh). unfold history_of. rewrite Es, Hs. simpl.
  now rewrite Eh, lookup_insert_eq, Hh.
Qed.

Lemma history_of_same_store (st st' : State W) sid :
  same_store st st' -> history_of st' sid = history_of st sid.
Proof. intros (Es & _ & Eh). unfold history_of. now rewrite Es, Eh. Qed.

(** X3: a follow-up on an existing session is always answered, with status
    200 or 500, and the transcript only grows: when the answer is a
    reply, by the user's message followed by that reply; when the status
    is 500, by nothing or by the user's message alone. *)
Theorem follow_up_appends (data : gmap string val) (st : State W) (old : list Message) :
  let sid := strip (or_str (get data "session_id") EmptyString) in
  let q := strip (or_str (get data "query") EmptyString) in
  is_empty sid = false -> is_empty q = false ->
  history_of st sid = Some old ->
  exists resp extra,
    fst (api_chat data st) = Ok resp
    /\ history_of (snd (api_chat data st)) sid = Some (old ++ extra)%list
    /\ SESSIONS (snd (api_chat data st)) = SESSIONS st
    /\ ((exists reply,
           resp = ChatOk sid (replace reply nl "<br>")
           /\ extra = [user_turn q; assistant_turn reply])
        \/ (status_of resp = 500 /\ (extra = [] \/ extra = [user_turn q]))).
Proof.
  intros sid q Hsid Hq Hold.
  destruct (history_of_inv _ _ _ Hold) as (l & Hs & Hh).
  destruct (api_chat_effect data st l Hsid Hq Hs) as [(reply & E & H)|(e & E & [H|H])];
    fold sid q in E, H; rewrite E.
  - exists (ChatOk sid (replace reply nl "<br>")), [user_turn q; assistant_turn reply].
    split; [reflexivity|]. split; [eapply history_of_appended; eauto|].
    split; [apply H|]. left. eauto.
  - eexists _, []. split; [reflexivity|].
    split; [rewrite app_nil_r, (history_of_same_store _ _ _ H); exact Hold|].
    split; [apply H|]. right. split; [reflexivity|now left].
  - eexists _, [user_turn q]. split; [reflexivity|].
    split; [eapply history_of_appended; eauto|].
    split; [apply H|]. right. split; [reflexivity|now right].
Qed.

Lemma history_of_other l extra (st st' : State W) sid sid' :
  well_formed st -> SESSIONS st !! sid = Some l -> sid' <> sid ->
  appended l extra st st' -> history_of st' sid' = history_of st sid'.
Proof.
  intros (_ & Hinj & _) Hs Hne (Es & _ & Eh). unfold history_of. rewrite Es.
  destruct (SESSIONS st !! sid') as [l'|] eqn:E'; [|reflexivity]. simpl.
  rewrite Eh. apply lookup_insert_ne. intros ->. apply Hne. eapply Hinj; eauto.
Qed.

(** X4: sessions do not disturb one another: a follow-up changes no
    transcript but that of its own session, and a first request changes
    none but that of the session it creates. *)
Theorem sessions_are_isolated (data : gmap string val) (st : State W) (other : string) :
  well_formed st ->
  (other <> strip (or_str (get data "session_id") EmptyString) ->
     history_of (snd (api_chat data st)) other = history_of st other)
  /\ ((returned (fst (api_ask data st)) ≫= session_id_of) <> Some other ->
       history_of (snd (api_ask data st)) other = history_of st other
       /\ SOURCES (snd (api_ask data st)) !! other = SOURCES st !! other).
Proof.
  intros Hwf. split.
  - intros Hne.
    destruct (is_empty (strip (or_str (get data "session_id") EmptyString))
              || is_empty (strip (or_str (get data "query") EmptyString))) eqn:Eb.
    + now rewrite (proj1 (api_chat_rejects data st) Eb).
    + destruct (SESSIONS st !! strip (or_str (get data "session_id") EmptyString))
        as [l|] eqn:Es.
      * apply orb_false_elim in Eb as [E1 E2].
        destruct (api_chat_effect data st l E1 E2 Es) as [(reply & _ & H)|(e & _ & [H|H])].
        -- eapply history_of_other; eauto.
        -- eapply history_of_same_store; eauto.
        -- eapply history_of_other; eauto.
      * now rewrite (proj2 (api_chat_rejects data st) Eb Es).
  - intros Hne.
    destruct (api_ask_effect data st) as [[H _]|(a & rs & full & sid & E & Hs & Hr & Hh)].
    + split; [eapply history_of_same_store; eauto|]. destruct H as (_ & -> & _). reflexivity.
    + rewrite E in Hne. simpl in Hne.
      assert (Hsid : sid <> other) by congruence.
      split; [|rewrite Hr; now apply lookup_insert_ne].
      unfold history_of. rewrite Hs, lookup_insert_ne by exact Hsid.
      destruct (SESSIONS st !! other) as [l'|] eqn:E'; [|reflexivity]. simpl.
      rewrite Hh. apply lookup_insert_ne. intros <-.
      destruct Hwf as (H1 & _). apply H1 in E'. apply elem_of_dom in E'.
      exact (is_fresh _ E').
Qed.

(** Once the two fields are read [api_chat] never raises: a blank
    field gives 400, an unknown session 404, both with the state
    untouched, and a known session gives 200 or 500. *)
Lemma api_chat_always_answers (data : gmap string val) (st : State W) :
  let sid := strip (or_str (get data "session_id") EmptyString) in
  let q := strip (or_str (get data "query") EmptyString) in
  exists resp,
    fst (api_chat data st) = Ok resp
    /\ (is_empty sid || is_empty q = true ->
          status_of resp = 400 /\ snd (api_chat data st) = st)
    /\ (is_empty sid || is_empty q = false -> SESSIONS st !! sid = None ->
          status_of resp = 404 /\ snd (api_chat data st) = st)
    /\ (is_empty sid || is_empty q = false -> is_Some (SESSIONS st !! sid) ->
          status_of resp = 200 \/ status_of resp = 500).
Proof.
  intros sid q.
  destruct (is_empty sid || is_empty q) eqn:Eb.
  - rewrite (proj1 (api_chat_rejects data st) Eb). eexists. split; [reflexivity|].
    split; [intros _; split; reflexivity|]. split; discriminate.
  - destruct (SESSIONS st !! sid) as [l|] eqn:Es.
    + apply orb_false_elim in Eb as [E1 E2].
      destruct (api_chat_effect data st l E1 E2 Es) as [(reply & E & _)|(e & E & _)];
        fold sid q in E; rewrite E; eexists; (split; [reflexivity|]);
        (split; [discriminate|]); (split; [discriminate|]); intros _ _; simpl; auto.
    + rewrite (proj2 (api_chat_rejects data st) Eb Es). eexists. split; [reflexivity|].
      split; [discriminate|]. split; [intros _ _; split; reflexivity|].
      intros _ [x Hx]. discriminate.
Qed.

End Handlers.
End SessionFacts.

Module RequestFacts.
Import Py Eff Resolver App PyFacts SessionFacts.

Lemma text_member_stripped data key s : text_member data key = Ok s -> strip s = s.
Proof.
  unfold text_member. destruct (data !! key) as [v|]; [|now intros [= <-]].
  destruct v; try (destruct (json_truthy _); [discriminate|now intros [= <-]]).
  intros [= <-]. apply strip_idem.
Qed.

Lemma reread s : strip s = s -> strip (or_str (VStr s) EmptyString) = s.
Proof.
  intros H. unfold or_str, nonempty. destruct (is_empty s) eqn:E; cbn [negb]; [|exact H].
  apply is_empty_true in E. now subst.
Qed.

Lemma text_member_raises data key :
  (exists e, text_member data key = Raise e) <->
  exists v, data !! key = Some v /\ json_truthy v = true /\ forall s, v <> JString s.
Proof.
  unfold text_member. split.
  - intros [e H]. destruct (data !! key) as [v|]; [|discriminate].
    exists v. split; [reflexivity|].
    destruct v; try discriminate;
      (destruct (json_truthy _) eqn:E; [|discriminate]); split; auto; discriminate.
  - intros (v & -> & Ht & Hs).
    destruct v; try (rewrite Ht; eauto). exfalso. exact (Hs s eq_refl).
Qed.

Lemma text_member_reads data key :
  (forall s, data !! key = Some (JString s) -> text_member data key = Ok (strip s))
  /\ (data !! key = None \/ (exists v, data !! key = Some v /\ json_truthy v = false) ->
      text_member data key = Ok EmptyString).
Proof.
  unfold text_member. split.
  - now intros s ->.
  - intros [->|(v & -> & Hv)]; [reflexivity|].
    destruct v; try (now rewrite Hv).
    cbn [json_truthy] in Hv. unfold nonempty in Hv. apply negb_false_iff in Hv.
    apply is_empty_true in Hv. now subst.
Qed.

Section Handlers.
Context {W : Type} {collab : Collaborators W}.

Lemma api_chat_request_read (b : body) (st : State W) data sid q :
  body_members b = Ok data ->
  text_member data "session_id" = Ok sid -> text_member data "query" = Ok q ->
  api_chat_request b st
  = api_chat (<["session_id" := VStr sid]> (<["query" := VStr q]> ∅)) st
  /\ strip (or_str (get (<["session_id" := VStr sid]> (<["query" := VStr q]> ∅))
                     "session_id") EmptyString) = sid
  /\ strip (or_str (get (<["session_id" := VStr sid]> (<["query" := VStr q]> ∅))
                     "query") EmptyString) = q.
Proof.
  intros Hb Hs Hq. unfold api_chat_request, bind, of_outcome. rewrite Hb, Hs, Hq.
  split; [reflexivity|].
  unfold get. rewrite lookup_insert_eq, lookup_insert_ne, lookup_insert_eq by discriminate.
  cbn [default from_option id].
  split; apply reread; eapply text_member_stripped; eauto.
Qed.

(** X5: what [api_chat] does with the body as it arrives.  It raises,
    before its [try] and with the state untouched, exactly when the
    body is a truthy value that is not an object, or when its
    "session_id" or its "query" is a truthy value that is not a string.
    On every other body it answers: with 400 when a field is blank
    (missing, falsy or only blanks), with 404 when the session is
    unknown, both with the state untouched, and with 200 or 500 for a
    known session, whatever the collaborators do. *)
Theorem api_chat_request_answers (b : body) (st : State W) :
  (forall e,
     body_members b = Raise e
     \/ (exists data, body_members b = Ok data
           /\ (text_member data "session_id" = Raise e
               \/ ((exists sid, text_member data "session_id" = Ok sid)
                   /\ text_member data "query" = Raise e))) ->
     api_chat_request b st = (Raise e, st))
  /\ (forall data sid q,
        body_members b = Ok data ->
        text_member data "session_id" = Ok sid -> text_member data "query" = Ok q ->
        exists resp,
          fst (api_chat_request b st) = Ok resp
          /\ (is_empty sid || is_empty q = true ->
                status_of resp = 400 /\ snd (api_chat_request b st) = st)
          /\ (is_empty sid || is_empty q = false -> SESSIONS st !! sid = None ->
                status_of resp = 404 /\ snd (api_chat_request b st) = st)
          /\ (is_empty sid || is_empty q = false -> is_Some (SESSIONS st !! sid) ->
                status_of resp = 200 \/ status_of resp = 500))
  /\ ((exists e, body_members b = Raise e) <-> b = BValue true)
  /\ (forall data key,
        ((exists e, text_member data key = Raise e) <->
         exists v, data !! key = Some v /\ json_truthy v = true
                   /\ forall s, v <> JString s)
        /\ (forall s, data !! key = Some (JString s) ->
              text_member data key = Ok (strip s))
        /\ (data !! key = None
            \/ (exists v, data !! key = Some v /\ json_truthy v = false) ->
            text_member data key = Ok EmptyString)).
Proof.
  split; [|split; [|split]].
  - intros e [Hb|(data & Hb & [Hs|[(sid & Hs) Hq]])];
      unfold api_chat_request, bind, of_outcome; rewrite Hb; [reflexivity| |].
    + now rewrite Hs.
    + now rewrite Hs, Hq.
  - intros data sid q Hb Hs Hq.
    destruct (api_chat_request_read b st data sid q Hb Hs Hq) as (-> & Esid & Eq).
    destruct (api_chat_always_answers
                (<["session_id" := VStr sid]> (<["query" := VStr q]> ∅)) st)
      as (resp & Hr & H400 & H404 & H200).
    rewrite Esid, Eq in H400, H404, H200.
    exists resp. split; [exact Hr|]. split; [exact H400|]. split; [exact H404|exact H200].
  - destruct b as [m|[|]]; cbn [body_members]; split;
      try (intros [e H]; discriminate); try discriminate; eauto.
  - intros data key. split; [apply text_member_raises|apply text_member_reads].
Qed.

End Handlers.
End RequestFacts.

Module PathFacts.
Import Py Eff Resolver App StoreFacts AppFacts ReplaceFacts AskFacts SessionFacts.

Section Handlers.
Context {W : Type} {collab : Collaborators W}.

Lemma compare_fast_path_skips sid q (st : State W) :
  pair_selected (default [] (SOURCES st !! sid)) q = None ->
  compare_fast_path sid q st = (Ok None, st).
Proof.
  unfold pair_selected, compare_fast_path.
  destruct (detect_two_links q) as [[i j]|]; [|reflexivity].
  unfold bind, stored_sources, gets.
  destruct (_ && _); [discriminate|reflexivity].
Qed.

Lemma summarize_fast_path_skips sid q (st : State W) :
  index_selected (default [] (SOURCES st !! sid)) q = None ->
  summarize_fast_path sid q st = (Ok None, st).
Proof.
  unfold index_selected, summarize_fast_path.
  destruct (detect_link_index q) as [i|]; [|reflexivity].
  unfold bind, stored_sources, gets.
  destruct (_ && _); [discriminate|reflexivity].
Qed.

Lemma api_chat_known (data : gmap string val) (st : State W) l :
  let sid := strip (or_str (get data "session_id") EmptyString) in
  let q := strip (or_str (get data "query") EmptyString) in
  is_empty sid = false -> is_empty q = false -> SESSIONS st !! sid = Some l ->
  api_chat data st
  = try_except
      (let* fast := compare_fast_path sid q in
       match fast with
       | Some resp => ret resp
       | None =>
           let* fast := summarize_fast_path sid q in
           match fast with
           | Some resp => ret resp
           | None =>
               let* reply := _append_and_get_reply sid q in
               ret (ChatOk sid (replace reply nl "<br>"))
           end
       end)
      (fun e =>
         ret (Error 500
                ("An error occurred while communicating with the model. Details: " ++ e)))
      st.
Proof.
  intros sid q Hsid Hq Hs. unfold api_chat. fold sid q. rewrite Hsid, Hq. cbn [orb].
  unfold bind at 1. unfold gets at 1. rewrite Hs, bool_decide_true by eauto. reflexivity.
Qed.

Lemma append_and_get_reply_run sid u (st : State W) l old reply w :
  SESSIONS st !! sid = Some l -> heap st !! l = Some old ->
  ChatBot_chat (old ++ [user_turn u])%list (world st) = (Ok reply, w) ->
  exists st',
    _append_and_get_reply sid u st = (Ok reply, st')
    /\ world st' = w
    /\ appended l [user_turn u; assistant_turn reply] st st'.
Proof.
  intros Hs Hh Hchat.
  destruct (_append_and_get_reply sid u st) as [o st'] eqn:Er.
  unfold _append_and_get_reply, SESSIONS_get, bind, list_append, list_read,
    modify, gets, call, ret in Er.
  rewrite Hs in Er. simpl in Er. rewrite Hh in Er. simpl in Er.
  rewrite lookup_insert_eq in Er. simpl in Er.
  unfold user_turn in Hchat. rewrite Hchat in Er. simpl in Er.
  injection Er as <- <-. eexists. split; [reflexivity|]. split; [reflexivity|].
  unfold appended. simpl. split; [now apply insert_id|]. split; [reflexivity|].
  rewrite Hh. simpl. rewrite ?lookup_insert_eq. simpl. rewrite insert_insert_eq.
  now rewrite <- app_assoc.
Qed.

(** X6: a message that selects no pair and no single source of the session
    goes to the chat collaborator, which is given the whole transcript
    with the message at its end. *)
Theorem unresolved_reference_goes_to_chat
    (data : gmap string val) (st : State W) (old : list Message) (reply : string) (w : W) :
  let sid := strip (or_str (get data "session_id") EmptyString) in
  let q := strip (or_str (get data "query") EmptyString) in
  is_empty sid = false -> is_empty q = false ->
  history_of st sid = Some old ->
  pair_selected (default [] (SOURCES st !! sid)) q = None ->
  index_selected (default [] (SOURCES st !! sid)) q = None ->
  ChatBot_chat (old ++ [user_turn q])%list (world st) = (Ok reply, w) ->
  exists st',
    api_chat data st = (Ok (ChatOk sid (replace reply nl "<br>")), st')
    /\ world st' = w
    /\ history_of st' sid = Some (old ++ [user_turn q; assistant_turn reply])%list.
Proof.
  intros sid q Hsid Hq Hold Hpair Hidx Hchat.
  destruct (history_of_inv _ _ _ Hold) as (l & Hs & Hh).
  rewrite (api_chat_known data st l Hsid Hq Hs). fold sid q.
  unfold try_except. unfold bind at 1. rewrite (compare_fast_path_skips sid q st Hpair).
  unfold bind at 1. rewrite (summarize_fast_path_skips sid q st Hidx).
  unfold bind at 1.
  destruct (append_and_get_reply_run sid q st l old reply w Hs Hh Hchat)
    as (st' & E & Hw & Happ).
  rewrite E. unfold ret. eexists. split; [reflexivity|]. split; [exact Hw|].
  eapply history_of_appended; eauto.
Qed.

Lemma pair_selected_inv srcs q i j :
  pair_selected srcs q = Some (i, j) ->
  detect_two_links q = Some (i, j)
  /\ (1 <=? i) && (i <=? Z.of_nat (length srcs)) && (1 <=? j) && (j <=? Z.of_nat (length srcs)) = true.
Proof.
  unfold pair_selected. destruct (detect_two_links q) as [[a b]|]; [|discriminate].
  destruct (_ && _) eqn:E; [|discriminate]. intros [= <- <-]. split; [reflexivity|exact E].
Qed.

(** X7: a message that names two sources of the session is answered from
    those two alone, whatever else it matches: the grounded generator
    gets copies of the two stored sources and the comparison question,
    and the chat collaborator is not called. *)
Theorem comparison_uses_the_two_sources
    (data : gmap string val) (st : State W) (old : list Message)
    (srcs : list (gmap string val)) (i j : Z) (s1 s2 : gmap string val)
    (reply : string) (w : W) :
  let sid := strip (or_str (get data "session_id") EmptyString) in
  let q := strip (or_str (get data "query") EmptyString) in
  let question :=
    "Compare ONLY these two sources (# " ++ str i ++ " and # " ++ str j ++ "). "
    ++ "Highlight similarities, differences, main arguments, tone, and key insights. "
    ++ "User request: " ++ q in
  is_empty sid = false -> is_empty q = false ->
  history_of st sid = Some old ->
  SOURCES st !! sid = Some srcs ->
  pair_selected srcs q = Some (i, j) ->
  srcs !! Z.to_nat (i - 1) = Some s1 ->
  srcs !! Z.to_nat (j - 1) = Some s2 ->
  generate_answer_from_sources question
    [ IDict (copy_source s1 (get_or s1 "content" (VStr EmptyString)));
      IDict (copy_source s2 (get_or s2 "content" (VStr EmptyString))) ] (world st)
  = (Ok reply, w) ->
  reply <> RAG_FAILURE_CODE ->
  exists st',
    api_chat data st = (Ok (ChatOk sid (replace reply nl "<br>")), st')
    /\ world st' = w
    /\ history_of st' sid = Some (old ++ [user_turn q; assistant_turn reply])%list.
Proof.
  intros sid q question Hsid Hq Hold Hsrc Hpair H1 H2 Hgen Hne.
  destruct (history_of_inv _ _ _ Hold) as (l & Hs & Hh).
  destruct (pair_selected_inv _ _ _ _ Hpair) as [Hdet Hin].
  rewrite (api_chat_known data st l Hsid Hq Hs). fold sid q.
  unfold try_except. unfold bind at 1.
  assert (Ec : exists st',
             compare_fast_path sid q st
             = (Ok (Some (ChatOk sid (replace reply nl "<br>"))), st')
             /\ world st' = w
             /\ appended l [user_turn q; assistant_turn reply] st st').
  { destruct (compare_fast_path sid q st) as [o st1] eqn:Er.
    unfold compare_fast_path in Er. rewrite Hdet in Er.
    unfold bind at 1 in Er. unfold stored_sources, gets in Er. rewrite Hsrc in Er.
    cbv beta zeta in Er. cbn [default from_option] in Er. unfold id in Er. rewrite Hin in Er.
    unfold bind at 1 in Er. unfold index at 1 in Er. rewrite H1 in Er. unfold ret at 1 in Er.
    unfold bind at 1 in Er. unfold index at 1 in Er. rewrite H2 in Er. unfold ret at 1 in Er.
    unfold bind at 1 in Er. unfold grounded_or_general in Er.
    unfold bind at 1 in Er. unfold call at 1 in Er.
    cbn [map] in Er. fold question in Er. rewrite Hgen in Er.
    apply String.eqb_neq in Hne. rewrite Hne in Er. unfold ret at 1 in Er.
    unfold bind at 1 in Er.
    destruct (record_turn_run sid q reply (set_world w st) l Hs) as (st2 & E2 & Hw & Happ).
    rewrite E2 in Er. unfold ret in Er. injection Er as <- <-.
    exists st2. split; [reflexivity|]. split; [exact Hw|].
    exact (appended_after_world _ _ _ _ _ Happ). }
  destruct Ec as (st' & Ec & Hw & Happ). rewrite Ec. unfold ret.
  exists st'. split; [reflexivity|]. split; [exact Hw|].
  eapply history_of_appended; eauto.
Qed.

End Handlers.
End PathFacts.

Module FetchFacts.
Import Py Eff Resolver App StoreFacts AppFacts ReplaceFacts AskFacts SessionFacts TextFacts.

Section Handlers.
Context {W : Type} {collab : Collaborators W}.

(** X8: [fetch_full_article] never raises, touches neither dict nor
    transcript, and returns text in the normal form of [_clean_text].
    A url that is [None] or empty gives the empty text without any
    download.  For any other url the text is empty when the download
    raises, brings nothing or brings the empty string, and when the
    extraction raises; otherwise it is the extracted text, cleaned
    (the empty text when nothing was extracted). *)
Theorem fetch_full_article_clean (url : val) (st : State W) :
  exists text st',
    fetch_full_article url st = (Ok text, st')
    /\ same_store st st'
    /\ _clean_text text = text
    /\ (truthy url = false -> text = EmptyString /\ st' = st)
    /\ (forall u, url = VStr u -> truthy url = true ->
          (forall e, fst (fetch_url u (world st)) = Raise e -> text = EmptyString)
          /\ (fst (fetch_url u (world st)) = Ok None -> text = EmptyString)
          /\ (fst (fetch_url u (world st)) = Ok (Some EmptyString) -> text = EmptyString)
          /\ (forall d, fst (fetch_url u (world st)) = Ok (Some d) -> nonempty d = true ->
                (forall e, fst (extract d (snd (fetch_url u (world st)))) = Raise e ->
                   text = EmptyString)
                /\ (forall t, fst (extract d (snd (fetch_url u (world st)))) = Ok t ->
                      text = _clean_text (default EmptyString t)
                      /\ world st' = snd (extract d (snd (fetch_url u (world st))))))).
Proof.
  unfold fetch_full_article.
  destruct url as [|u]; cbn [truthy].
  { eexists _, _. split; [reflexivity|]. repeat split; discriminate. }
  destruct (nonempty u) eqn:Eu.
  2:{ eexists _, _. split; [reflexivity|]. repeat split; discriminate. }
  unfold try_except, bind, call, ret.
  destruct (fetch_url u (world st)) as [[[d|]|e] w] eqn:Ef; cbn.
  - destruct (nonempty d) eqn:Ed; cbn.
    + destruct (extract d w) as [[t|e] w'] eqn:Ex; cbn.
      * eexists _, _. split; [reflexivity|]. split; [repeat split|].
        split; [apply clean_text_fixed|]. split; [discriminate|].
        intros u' [= <-] _. rewrite Ef. cbn [fst snd].
        split; [discriminate|]. split; [discriminate|].
        split; [intros [= ->]; discriminate|].
        intros d' [= <-] _. rewrite Ex. cbn [fst snd]. split; [discriminate|].
        intros t' [= <-]. split; reflexivity.
      * eexists _, _. split; [reflexivity|]. split; [repeat split|].
        split; [reflexivity|]. split; [discriminate|].
        intros u' [= <-] _. rewrite Ef. cbn [fst snd].
        split; [discriminate|]. split; [discriminate|].
        split; [reflexivity|].
        intros d' [= <-] _. rewrite Ex. cbn [fst snd]. split; [reflexivity|discriminate].
    + eexists _, _. split; [reflexivity|]. split; [repeat split|].
      split; [reflexivity|]. split; [discriminate|].
      intros u' [= <-] _. rewrite Ef. cbn [fst snd].
      split; [discriminate|]. split; [discriminate|].
      split; [reflexivity|]. intros d' [= <-] Hd. rewrite Hd in Ed. discriminate.
  - eexists _, _. split; [reflexivity|]. split; [repeat split|].
    split; [reflexivity|]. split; [discriminate|].
    intros u' [= <-] _. rewrite Ef. cbn [fst snd].
    split; [reflexivity|]. split; [reflexivity|]. split; [reflexivity|]. discriminate.
  - eexists _, _. split; [reflexivity|]. split; [repeat split|].
    split; [reflexivity|]. split; [discriminate|].
    intros u' [= <-] _. rewrite Ef. cbn [fst snd].
    split; [reflexivity|]. split; [reflexivity|]. split; [reflexivity|]. discriminate.
Qed.

(** X9: [build_full_sources] never raises and touches neither dict nor
    transcript.  It returns one entry for each result, in order, with
    the four keys "title", "url", "snippet" and "content": the url is the
    result's "url", else its "link", else empty; the content has at most
    [MAX_CHARS_PER_SOURCE] characters and is empty when the url is. *)
Theorem build_full_sources_built results : forall (st : State W),
  exists full st',
    build_full_sources results st = (Ok full, st')
    /\ same_store st st'
    /\ Forall2 built_from results full.
Proof.
  induction results as [|r results IH]; intros st.
  - eexists _, _. split; [reflexivity|]. split; [repeat split|constructor].
  - cbn [build_full_sources].
    change (match r with IDict d => _ | IOther => _ end) with (result_fields r).
    unfold built_from at 1.
    destruct (result_fields r) as [[title url] snippet] eqn:Ef.
    unfold bind at 1.
    assert (Hfetch : exists content st1,
              (if nonempty url then fetch_full_article (VStr url) else ret EmptyString) st
              = (Ok content, st1) /\ same_store st st1
              /\ (is_empty url = true -> content = EmptyString)).
    { unfold nonempty. destruct (is_empty url) eqn:Eu; cbn [negb].
      - eexists _, _. split; [reflexivity|]. repeat split.
      - destruct (fetch_full_article_total (VStr url) st) as (t & st1 & E).
        destruct (world_only_fetch_full_article (VStr url) st) as [w Hw].
        rewrite E in Hw. cbn [snd] in Hw. subst st1.
        exists t, (set_world w st). split; [exact E|].
        split; [apply same_store_set_world|discriminate]. }
    destruct Hfetch as (content & st1 & -> & Hs1 & Hblank).
    unfold bind at 1.
    destruct (IH st1) as (rest & st2 & -> & Hs2 & Hrest).
    unfold ret. eexists _, _. split; [reflexivity|].
    split.
    { destruct Hs1 as (a & b & c), Hs2 as (a' & b' & c'). repeat split; congruence. }
    constructor; [|exact Hrest].
    unfold built_from. rewrite Ef. eexists. split; [reflexivity|]. split.
    + destruct (capped_source_dict title (VStr url) snippet content) as (c & Hc & Hlen).
      unfold source_dict in Hc. rewrite lookup_insert_ne, lookup_insert_ne, lookup_insert_ne,
        lookup_insert_eq in Hc by discriminate.
      injection Hc as <-. exact Hlen.
    + intros Hu. rewrite (Hblank Hu). reflexivity.
Qed.

End Handlers.
End FetchFacts.

Module AskPathFacts.
Import Py Eff Resolver App StoreFacts AppFacts ReplaceFacts AskFacts SessionFacts
  TextFacts PathFacts FetchFacts.

Section Handlers.
Context {W : Type} {collab : Collaborators W}.

(** What [api_ask] does once the answer and the two lists are known. *)
Lemma api_ask_finish (query answer : string) (results : list item)
    (full : list (gmap string val)) (st : State W) :
  exists sid st',
    (let* session_id :=
       (if nonempty answer && negb (startswith answer "ERROR:") then
          let plain_answer := replace answer "<br>" nl in
          let* sid := _create_initial_session query plain_answer full in
          ret (Some sid)
        else ret None) in
     ret (AskOk (replace answer nl "<br>") results session_id)) st
    = (Ok (AskOk (replace answer nl "<br>") results sid), st')
    /\ (sid = None <-> nonempty answer && negb (startswith answer "ERROR:") = false)
    /\ (sid = None -> same_store st st')
    /\ (forall s, sid = Some s ->
          SOURCES st' !! s = Some full
          /\ history_of st' s
             = Some (initial_transcript query (replace answer "<br>" nl) full)).
Proof.
  destruct (nonempty answer && negb (startswith answer "ERROR:")).
  - cbv zeta. unfold bind.
    destruct (create_initial_session_run query (replace answer "<br>" nl) full st)
      as (sid & st2 & E & Hs & Hr & Hh).
    rewrite E. unfold ret. exists (Some sid), st2.
    split; [reflexivity|]. split; [split; discriminate|]. split; [discriminate|].
    intros s [= <-]. split.
    + rewrite Hr. apply lookup_insert_eq.
    + unfold history_of. rewrite Hs, lookup_insert_eq. simpl. rewrite Hh.
      apply lookup_insert_eq.
  - unfold bind, ret. exists None, st.
    split; [reflexivity|]. split; [split; reflexivity|]. split; [repeat split|discriminate].
Qed.

(** X10: a query that bypasses the search, or for which the search finds
    nothing, is answered by the general generator alone; the response
    lists no sources, and the session it opens stores none. *)
Theorem api_ask_without_retrieval
    (data : gmap string val) (st : State W) (w0 w1 : W) (answer : string) :
  let query := strip (or_str (get data "query") EmptyString) in
  is_empty query = false ->
  (is_simple_logical_query query = true /\ w0 = world st)
  \/ (is_simple_logical_query query = false
      /\ web_search query 6 (world st) = (Ok [], w0)) ->
  generate_general_answer query w0 = (Ok answer, w1) ->
  exists sid st',
    api_ask data st = (Ok (AskOk (replace answer nl "<br>") [] sid), st')
    /\ (sid = None <-> nonempty answer && negb (startswith answer "ERROR:") = false)
    /\ (sid = None -> same_store st st')
    /\ (forall s, sid = Some s ->
          SOURCES st' !! s = Some []
          /\ history_of st' s
             = Some (initial_transcript query (replace answer "<br>" nl) [])).
Proof.
  intros query Hq Hpath Hgen.
  destruct (api_ask data st) as [o st'] eqn:Er.
  unfold api_ask in Er. fold query in Er. rewrite Hq in Er.
  unfold bind at 1 in Er.
  assert (Hblk : exists st1,
    (if is_simple_logical_query query then
       let* answer := call (generate_general_answer query) in
       ret (answer, [], [])
     else
       let* results := call (web_search query 6) in
       let* full_sources := build_full_sources results in
       if negb (is_empty_list full_sources) && (0 <? Z.of_nat (length results)) then
         let* answer := call (generate_answer_from_sources query (map IDict full_sources)) in
         if String.eqb answer RAG_FAILURE_CODE then
           let* answer := call (generate_general_answer query) in
           ret (answer, [], [])
         else ret (answer, results, full_sources)
       else
         let* answer := call (generate_general_answer query) in
         ret (answer, [], [])) st
    = (Ok (answer, ([] : list item), ([] : list (gmap string val))), st1)
    /\ same_store st st1).
  { destruct Hpath as [[Hb ->]|[Hb Hsearch]]; rewrite Hb.
    - unfold bind, call, ret. rewrite Hgen. eexists. split; [reflexivity|repeat split].
    - unfold bind at 1. unfold call at 1. rewrite Hsearch.
      unfold bind at 1. cbn [build_full_sources]. unfold ret at 1.
      cbn [is_empty_list negb andb].
      unfold bind, call, ret. cbn [world set_world]. rewrite Hgen.
      eexists. split; [reflexivity|repeat split]. }
  destruct Hblk as (st1 & Eb & Hsame). rewrite Eb in Er.
  destruct (api_ask_finish query answer [] [] st1) as (sid & st3 & Hf & Hrule & Hnone & Hsome).
  cbv zeta in Hf. rewrite Hf in Er. injection Er as <- <-.
  exists sid, st3. split; [reflexivity|]. split; [exact Hrule|].
  split; [|exact Hsome].
  intros Hn. specialize (Hnone Hn).
  destruct Hsame as (a & b & c), Hnone as (a' & b' & c'). repeat split; congruence.
Qed.

(** X11: when the search finds something and the grounded generator
    answers from it, the response carries the search results as they
    came, while the session stores the enriched sources. *)
Theorem api_ask_grounded
    (data : gmap string val) (st st2 : State W) (results : list item) (w1 w3 : W)
    (full : list (gmap string val)) (answer : string) :
  let query := strip (or_str (get data "query") EmptyString) in
  is_empty query = false ->
  is_simple_logical_query query = false ->
  web_search query 6 (world st) = (Ok results, w1) ->
  results <> [] ->
  build_full_sources results (set_world w1 st) = (Ok full, st2) ->
  generate_answer_from_sources query (map IDict full) (world st2) = (Ok answer, w3) ->
  answer <> RAG_FAILURE_CODE ->
  exists sid st',
    api_ask data st = (Ok (AskOk (replace answer nl "<br>") results sid), st')
    /\ (sid = None <-> nonempty answer && negb (startswith answer "ERROR:") = false)
    /\ (forall s, sid = Some s ->
          SOURCES st' !! s = Some full
          /\ history_of st' s
             = Some (initial_transcript query (replace answer "<br>" nl) full)).
Proof.
  intros query Hq Hb Hsearch Hne Hbuild Hgen Hans.
  destruct (api_ask data st) as [o st'] eqn:Er.
  unfold api_ask in Er. fold query in Er. rewrite Hq, Hb in Er.
  unfold bind at 1 in Er. unfold bind at 1 in Er. unfold call at 1 in Er.
  rewrite Hsearch in Er. unfold bind at 1 in Er. rewrite Hbuild in Er.
  destruct (build_full_sources_spec results _ _ _ Hbuild) as [Hlen _].
  assert (Hgo : negb (is_empty_list full) && (0 <? Z.of_nat (length results)) = true).
  { destruct results as [|r results]; [congruence|].
    destruct full as [|f full]; [discriminate|]. reflexivity. }
  rewrite Hgo in Er. unfold bind at 1 in Er. unfold call at 1 in Er. rewrite Hgen in Er.
  apply String.eqb_neq in Hans. rewrite Hans in Er. unfold ret at 1 in Er.
  destruct (api_ask_finish query answer results full (set_world w3 st2))
    as (sid & st3 & Hf & Hrule & _ & Hsome).
  cbv zeta in Hf. rewrite Hf in Er. injection Er as <- <-.
  exists sid, st3. split; [reflexivity|]. split; [exact Hrule|exact Hsome].
Qed.

End Handlers.
End AskPathFacts.

Module HistoryFacts.
Import Py Eff Resolver App StoreFacts AppFacts ReplaceFacts AskFacts SessionFacts
  TextFacts PathFacts FetchFacts AskPathFacts.

Section Handlers.
Context {W : Type} {collab : Collaborators W}.

Lemma index_selected_inv srcs q i :
  index_selected srcs q = Some i ->
  detect_link_index q = Some i /\ (1 <=? i) && (i <=? Z.of_nat (length srcs)) = true.
Proof.
  unfold index_selected. destruct (detect_link_index q) as [a|]; [|discriminate].
  destruct (_ && _) eqn:E; [|discriminate]. intros [= <-]. split; [reflexivity|exact E].
Qed.

(** X12: a message that names one source of the session, and no pair, is
    answered from that source alone; when the stored source has text,
    the stored dict itself goes to the grounded generator and nothing is
    downloaded. *)
Theorem summary_uses_the_stored_source
    (data : gmap string val) (st : State W) (old : list Message)
    (srcs : list (gmap string val)) (i : Z) (target : gmap string val)
    (reply : string) (w : W) :
  let sid := strip (or_str (get data "session_id") EmptyString) in
  let q := strip (or_str (get data "query") EmptyString) in
  let question := "Summarize ONLY the selected source (#" ++ str i ++ "). " ++ q in
  is_empty sid = false -> is_empty q = false ->
  history_of st sid = Some old ->
  SOURCES st !! sid = Some srcs ->
  pair_selected srcs q = None ->
  index_selected srcs q = Some i ->
  srcs !! Z.to_nat (i - 1) = Some target ->
  is_empty (strip (or_str (py_or (get target "content") (get target "snippet")) EmptyString))
    = false ->
  generate_answer_from_sources question [IDict target] (world st) = (Ok reply, w) ->
  reply <> RAG_FAILURE_CODE ->
  exists st',
    api_chat data st = (Ok (ChatOk sid (replace reply nl "<br>")), st')
    /\ world st' = w
    /\ history_of st' sid = Some (old ++ [user_turn q; assistant_turn reply])%list.
Proof.
  intros sid q question Hsid Hq Hold Hsrc Hpair Hidx Ht Hbody Hgen Hne.
  destruct (history_of_inv _ _ _ Hold) as (l & Hs & Hh).
  destruct (index_selected_inv _ _ _ Hidx) as [Hdet Hin].
  rewrite (api_chat_known data st l Hsid Hq Hs). fold sid q.
  unfold try_except. unfold bind at 1.
  rewrite (compare_fast_path_skips sid q st) by (now rewrite Hsrc).
  unfold bind at 1.
  assert (Ec : exists st',
             summarize_fast_path sid q st
             = (Ok (Some (ChatOk sid (replace reply nl "<br>"))), st')
             /\ world st' = w
             /\ appended l [user_turn q; assistant_turn reply] st st').
  { destruct (summarize_fast_path sid q st) as [o st1] eqn:Er.
    unfold summarize_fast_path in Er. rewrite Hdet in Er.
    unfold bind at 1 in Er. unfold stored_sources, gets in Er. rewrite Hsrc in Er.
    cbv beta zeta in Er. cbn [default from_option] in Er. unfold id in Er. rewrite Hin in Er.
    unfold bind at 1 in Er. unfold index at 1 in Er. rewrite Ht in Er. unfold ret at 1 in Er.
    unfold bind at 1 in Er. unfold summarize_target in Er. rewrite Hbody in Er.
    unfold ret at 1 in Er.
    unfold bind at 1 in Er. unfold grounded_or_general in Er.
    unfold bind at 1 in Er. unfold call at 1 in Er.
    cbn [map] in Er. fold question in Er. rewrite Hgen in Er.
    apply String.eqb_neq in Hne. rewrite Hne in Er. unfold ret at 1 in Er.
    unfold bind at 1 in Er.
    destruct (record_turn_run sid q reply (set_world w st) l Hs) as (st2 & E2 & Hw & Happ).
    rewrite E2 in Er. unfold ret in Er. injection Er as <- <-.
    exists st2. split; [reflexivity|]. split; [exact Hw|].
    exact (appended_after_world _ _ _ _ _ Happ). }
  destruct Ec as (st' & Ec & Hw & Happ). rewrite Ec. unfold ret.
  exists st'. split; [reflexivity|]. split; [exact Hw|].
  eapply history_of_appended; eauto.
Qed.

Lemma or_str_self s : is_empty s = false -> or_str (VStr s) EmptyString = s.
Proof. unfold or_str, nonempty. now intros ->. Qed.

Lemma api_chat_history_known (sid : string) (st : State W) l msgs :
  strip sid = sid -> is_empty sid = false ->
  SESSIONS st !! sid = Some l -> heap st !! l = Some msgs ->
  api_chat_history (VStr sid) st = (Ok (HistoryOk (map ui_of msgs)), st).
Proof.
  intros Hstrip Hne Hs Hh. unfold api_chat_history.
  rewrite (or_str_self _ Hne), Hstrip, Hne.
  unfold bind, list_read, gets, ret. rewrite Hs. cbn beta iota. rewrite Hh. reflexivity.
Qed.

(** X13: the page that continues a conversation shows the first answer
    exactly as the search page showed it: the transcript keeps the
    answer with its line breaks turned back into newlines, and the
    history route turns them into line breaks again. *)
Theorem history_shows_the_first_answer
    (data : gmap string val) (st st' : State W)
    (a : string) (results : list item) (sid : string) :
  let query := strip (or_str (get data "query") EmptyString) in
  api_ask data st = (Ok (AskOk a results (Some sid)), st') ->
  strip sid = sid -> is_empty sid = false ->
  exists t1 t2,
    api_chat_history (VStr sid) st'
    = (Ok (HistoryOk [ {| sender := "bot"; text := t1 |};
                       {| sender := "bot"; text := t2 |};
                       {| sender := "user"; text := replace query nl "<br>" |};
                       {| sender := "bot"; text := a |} ]), st').
Proof.
  intros query Hask Hstrip Hne.
  destruct (api_ask_effect data st) as [[_ H]|(answer & rs & full & sid0 & E & Hs & _ & Hh)];
    rewrite Hask in *; cbn [fst snd] in *.
  { discriminate. }
  injection E as -> _ ->.
  rewrite (api_chat_history_known sid0 st' (fresh (dom (heap st)))
             (initial_transcript query (replace answer "<br>" nl) full) Hstrip Hne).
  - unfold initial_transcript. cbn [map]. unfold ui_of. cbn [role content].
    rewrite br_round_trip.
    eexists _, _. reflexivity.
  - rewrite Hs. apply lookup_insert_eq.
  - rewrite Hh. apply lookup_insert_eq.
Qed.

Lemma api_ask_answer (data : gmap string val) (st : State W) a :
  (returned (fst (api_ask data st)) ≫= answer_of) = Some a ->
  exists answer, a = replace answer nl "<br>".
Proof.
  destruct (api_ask data st) as [o st'] eqn:Er. cbn [fst].
  unfold api_ask in Er.
  destruct (is_empty _); [injection Er as <- <-; discriminate|].
  unfold bind at 1 in Er.
  match type of Er with context [match ?blk st with _ => _ end] =>
    destruct (blk st) as [[[[answer results] full]|e] st1] end;
    [|injection Er as <- <-; discriminate].
  destruct (api_ask_finish (strip (or_str (get data "query") EmptyString))
              answer results full st1) as (sid & st3 & Hf & _).
  cbv zeta in Hf. rewrite Hf in Er. injection Er as <- <-.
  intros [= <-]. eauto.
Qed.

(** X14: no text that the three routes hand to a page holds a newline; the
    senders of a history are "user" and "bot". *)
Theorem shown_text_has_no_newline (st : State W) :
  (forall data a,
     (returned (fst (api_ask data st)) ≫= answer_of) = Some a -> contains nl a = false)
  /\ (forall data a,
        (returned (fst (api_chat data st)) ≫= answer_of) = Some a -> contains nl a = false)
  /\ (forall arg h,
        fst (api_chat_history arg st) = Ok (HistoryOk h) ->
        Forall (fun m => contains nl (text m) = false
                         /\ (sender m = "user" \/ sender m = "bot")) h).
Proof.
  split; [|split].
  - intros data a H.
    destruct (api_ask_answer data st a H) as (answer & ->).
    apply no_newline_after_replace.
  - intros data a H.
    destruct (is_empty (strip (or_str (get data "session_id") EmptyString))
              || is_empty (strip (or_str (get data "query") EmptyString))) eqn:Eb.
    { rewrite (proj1 (api_chat_rejects data st) Eb) in H. discriminate. }
    destruct (SESSIONS st !! strip (or_str (get data "session_id") EmptyString))
      as [l|] eqn:Es.
    2:{ rewrite (proj2 (api_chat_rejects data st) Eb Es) in H. discriminate. }
    apply orb_false_elim in Eb as [E1 E2].
    destruct (api_chat_effect data st l E1 E2 Es) as [(reply & E & _)|(e & E & _)];
      rewrite E in H; [|discriminate].
    injection H as <-. apply no_newline_after_replace.
  - intros arg h. unfold api_chat_history.
    destruct (is_empty _); [discriminate|].
    unfold bind, gets, list_read, ret.
    destruct (SESSIONS st !! _) as [l|]; [|discriminate].
    cbn [fst]. intros [= <-].
    induction (default [] (heap st !! l)) as [|msg msgs IH]; constructor; [|exact IH].
    unfold ui_of. cbn [text sender]. split; [apply no_newline_after_replace|].
    destruct (String.eqb _ _); auto.
Qed.

End Handlers.
End HistoryFacts.

Module BackendFacts.
Import Py Eff Summarizer PyFacts ReFacts.

Lemma strip_solid s : starts_solid s = true -> is_empty (strip s) = false.
Proof.
  destruct s as [|c s]; [discriminate|]. cbn [starts_solid]. intros Hc.
  apply negb_true_iff in Hc. unfold strip. cbn [lstrip]. rewrite Hc.
  cbn [rstrip]. rewrite Hc. reflexivity.
Qed.

Lemma strip_stripped_nonempty s :
  is_empty s = false -> strip s = s -> is_empty (strip s) = false.
Proof. intros H ->. exact H. Qed.

Section Backend.
Context {W : Type}.
Variable post_chat : list Message -> W -> outcome string * W.
Variable post_generate : string -> W -> outcome string * W.

Lemma ollama_chat_run (messages : list Message) (n : Net W) :
  exists out w,
    _ollama_chat post_chat messages n
    = (Ok out, {| ext := w; sent := (sent n ++ [messages])%list |})
    /\ (strip out = out \/ starts_solid out = true).
Proof.
  unfold _ollama_chat, try_except, bind, _post_json, ret.
  destruct (post_chat messages (ext n)) as [[c|e] w].
  - eexists _, _. split; [reflexivity|]. left. apply strip_idem.
  - eexists _, _. split; [reflexivity|]. right. reflexivity.
Qed.

(** X15: neither low-level call raises, whatever the HTTP exchange does.
    When the exchange brings a reply, the result is the text of the
    reply with the blanks at its ends stripped; when it raises, the
    result is the error text that ends with the exception.  A chat call
    adds exactly its own message list to the requests sent. *)
Theorem ollama_calls_never_raise (n : Net W) :
  (forall messages,
     _ollama_chat post_chat messages n
     = (Ok (match fst (post_chat messages (ext n)) with
            | Ok c => strip c
            | Raise e => "[ERROR] Failed to call Ollama chat: " ++ e
            end),
        {| ext := snd (post_chat messages (ext n));
           sent := (sent n ++ [messages])%list |}))
  /\ (forall prompt,
        _ollama_generate post_generate prompt n
        = (Ok (match fst (post_generate prompt (ext n)) with
               | Ok c => strip c
               | Raise e => "[ERROR] Failed to call Ollama generate: " ++ e
               end),
           {| ext := snd (post_generate prompt (ext n)); sent := sent n |})).
Proof.
  split.
  - intros messages. unfold _ollama_chat, try_except, bind, _post_json, ret.
    now destruct (post_chat messages (ext n)) as [[c|e] w].
  - intros prompt. unfold _ollama_generate, try_except, bind, ret.
    now destruct (post_generate prompt (ext n)) as [[c|e] w].
Qed.

Lemma nonempty_strip_out out :
  is_empty out = false -> (strip out = out \/ starts_solid out = true) ->
  is_empty (strip out) = false.
Proof.
  intros H [E|E]; [now apply strip_stripped_nonempty|now apply strip_solid].
Qed.

Lemma grounded_answer_nonempty (query : string) (sources : list item) (n : Net W) :
  exists out n',
    generate_answer_from_sources post_chat query sources n = (Ok out, n')
    /\ is_empty out = false.
Proof.
  unfold generate_answer_from_sources.
  destruct (is_empty_list (normalize sources)); [eexists _, _; split; reflexivity|].
  destruct (is_empty_list (blocks_from 1 (normalize sources)));
    [eexists _, _; split; reflexivity|].
  cbv zeta. unfold bind at 1.
  match goal with |- context [_ollama_chat post_chat ?msgs n] =>
    destruct (ollama_chat_run msgs n) as (out & w & -> & Hout) end.
  destruct (is_empty out) eqn:Ee; [eexists _, _; split; reflexivity|].
  destruct (contains "RAG_CONTEXT_INSUFFICIENT" out); [eexists _, _; split; reflexivity|].
  unfold ret. eexists _, _. split; [reflexivity|]. now apply nonempty_strip_out.
Qed.

Lemma general_answer_nonempty (query : string) (n : Net W) :
  exists out n',
    generate_general_answer post_chat query n = (Ok out, n') /\ is_empty out = false.
Proof.
  unfold generate_general_answer, bind.
  match goal with |- context [_ollama_chat post_chat ?msgs n] =>
    destruct (ollama_chat_run msgs n) as (out & w & -> & Hout) end.
  unfold ret, nonempty. eexists _, _. split; [reflexivity|].
  destruct (is_empty out) eqn:Ee; cbn [negb]; [reflexivity|].
  now apply nonempty_strip_out.
Qed.

(** X16: [generate_answer_from_sources] never raises and never returns the
    empty string.  Its result is the sentinel itself or a text in which
    the sentinel does not occur, so that a caller's test for equality
    with the sentinel misses no reply that mentions it.  It sends at
    most one request: the fixed system message and one user message
    that opens with the question. *)
Theorem grounded_answer_shape (query : string) (sources : list item) (n : Net W) :
  exists out n',
    generate_answer_from_sources post_chat query sources n = (Ok out, n')
    /\ is_empty out = false
    /\ (out = RAG_FAILURE_CODE \/ contains RAG_FAILURE_CODE out = false)
    /\ (n' = n
        \/ exists text,
             sent n' = (sent n ++ [[ {| role := "system"; content := grounded_system_msg |};
                                     {| role := "user"; content := text |} ]])%list
             /\ startswith text ("Question: " ++ query) = true).
Proof.
  unfold generate_answer_from_sources.
  destruct (is_empty_list (normalize sources)).
  { eexists _, _. split; [reflexivity|]. split; [reflexivity|]. split; auto. }
  destruct (is_empty_list (blocks_from 1 (normalize sources))).
  { eexists _, _. split; [reflexivity|]. split; [reflexivity|]. split; auto. }
  cbv zeta. unfold bind at 1.
  match goal with |- context [_ollama_chat post_chat ?msgs n] =>
    destruct (ollama_chat_run msgs n) as (out & w & -> & Hout) end.
  destruct (is_empty out) eqn:Ee.
  { unfold ret. eexists _, _. split; [reflexivity|]. split; [reflexivity|].
    split; [auto|]. right. eexists. split; [reflexivity|].
    rewrite <- app_assoc'. apply startswith_app. }
  destruct (contains "RAG_CONTEXT_INSUFFICIENT" out) eqn:Ec.
  { unfold ret. eexists _, _. split; [reflexivity|]. split; [reflexivity|].
    split; [auto|]. right. eexists. split; [reflexivity|].
    rewrite <- app_assoc'. apply startswith_app. }
  unfold ret. eexists _, _. split; [reflexivity|].
  split; [now apply nonempty_strip_out|].
  split.
  - right. unfold RAG_FAILURE_CODE. rewrite contains_strip by reflexivity. exact Ec.
  - right. eexists. split; [reflexivity|].
    rewrite <- app_assoc'. apply startswith_app.
Qed.

(** X17: [generate_general_answer] never raises, never returns the empty
    string, and sends exactly one request: its system message and the
    query as the only user message. *)
Theorem general_answer_shape (query : string) (n : Net W) :
  exists out w,
    generate_general_answer post_chat query n
    = (Ok out,
       {| ext := w;
          sent := (sent n ++ [[ {| role := "system";
                                   content := "You are a concise, friendly assistant." |};
                                {| role := "user"; content := query |} ]])%list |})
    /\ is_empty out = false.
Proof.
  unfold generate_general_answer, bind.
  match goal with |- context [_ollama_chat post_chat ?msgs n] =>
    destruct (ollama_chat_run msgs n) as (out & w & -> & Hout) end.
  unfold ret, nonempty. eexists _, _. split; [reflexivity|].
  destruct (is_empty out) eqn:Ee; cbn [negb]; [reflexivity|].
  now apply nonempty_strip_out.
Qed.

(** X18: [ChatBot.chat] never raises and sends exactly one request,
    whose reply it returns as [_ollama_chat] does.  The request is the
    history itself when the history opens with a system message, and
    the history with the default system message put in front when it is
    empty or opens with any other message; so the request always opens
    with a system message. *)
Theorem chat_request_shape (history : list Message) (n : Net W) :
  exists out w request,
    ChatBot_chat post_chat history n
    = (Ok out, {| ext := w; sent := (sent n ++ [request])%list |})
    /\ ChatBot_chat post_chat history n = _ollama_chat post_chat request n
    /\ (exists m rest, request = m :: rest /\ role m = "system")
    /\ (forall m rest, history = m :: rest -> role m = "system" -> request = history)
    /\ (history = [] \/ (exists m rest, history = m :: rest /\ role m <> "system") ->
        request = {| role := "system"; content := "You are a helpful assistant." |}
                  :: history).
Proof.
  unfold ChatBot_chat. cbv zeta.
  destruct history as [|m0 rest].
  - match goal with |- context [_ollama_chat post_chat ?msgs n] =>
      destruct (ollama_chat_run msgs n) as (out & w & E & _) end.
    eexists _, _, _. split; [exact E|]. split; [reflexivity|].
    split; [eexists _, _; split; reflexivity|].
    split; [discriminate|]. reflexivity.
  - destruct (String.eqb (role m0) "system") eqn:E.
    + match goal with |- context [_ollama_chat post_chat ?msgs n] =>
        destruct (ollama_chat_run msgs n) as (out & w & Er & _) end.
      eexists _, _, _. split; [exact Er|]. split; [reflexivity|].
      split; [eexists _, _; split; [reflexivity|now apply String.eqb_eq]|].
      split; [reflexivity|].
      intros [H|(m & r & [= <- <-] & Hne)]; [discriminate|].
      apply String.eqb_eq in E. contradiction.
    + match goal with |- context [_ollama_chat post_chat ?msgs n] =>
        destruct (ollama_chat_run msgs n) as (out & w & Er & _) end.
      eexists _, _, _. split; [exact Er|]. split; [reflexivity|].
      split; [eexists _, _; split; reflexivity|].
      split; [|reflexivity].
      intros m r [= <- <-] Hs. apply String.eqb_neq in E. contradiction.
Qed.

End Backend.
End BackendFacts.

Module NormalizeFacts.
Import Py Eff Summarizer PyFacts.

Lemma plain_of_text_blank s : is_empty (strip s) = true -> plain_of_text s = [].
Proof. unfold plain_of_text, nonempty. now intros ->. Qed.



End NormalizeFacts.

Module SearchFacts.
Import Py Eff App Search FetchFacts.


Section Provider.
Context {W : Type}.
Variable SERPAPI_API_KEY : val.
Variable get_dict : string -> Z -> W -> outcome serp_reply * W.

Lemma web_search_total (query : string) (count : Z) (w : W) :
  exists rs w', web_search SERPAPI_API_KEY get_dict query count w = (Ok rs, w').
Proof.
  unfold web_search. destruct (negb (truthy SERPAPI_API_KEY)); [eauto|].
  destruct (get_dict query count w) as [[reply|e] w']; [|eauto].
  destruct (has_error reply); [eauto|].
  destruct (extract_results _); eauto.
Qed.


End Provider.

Lemma get_result_dict_url t u s : get (result_dict t u s) "url" = u.
Proof. reflexivity. Qed.

Lemma result_fields_result_dict t u s :
  result_fields (IDict (result_dict t u s)) = (t, or_str u EmptyString, s).
Proof.
  unfold result_fields, result_dict, get_or, get, py_or.
  rewrite lookup_insert_eq.
  rewrite (lookup_insert_ne _ "title" "url"), lookup_insert_eq by discriminate.
  rewrite (lookup_insert_ne _ "title" "link"), (lookup_insert_ne _ "url" "link"),
    (lookup_insert_ne _ "snippet" "link"), lookup_empty by discriminate.
  rewrite (lookup_insert_ne _ "title" "snippet"), (lookup_insert_ne _ "url" "snippet"),
    lookup_insert_eq by discriminate.
  cbn [default from_option id].
  destruct (truthy u) eqn:E; [reflexivity|].
  cbn [or_str]. destruct u as [|x]; [reflexivity|].
  cbn [truthy] in E. cbn [or_str]. now rewrite E.
Qed.

(** X21: what [build_full_sources] reads from a search result comes from the
    provider's entry: the title and the snippet as they are, [None]
    when the entry has none, and the entry's "link" as the url. *)
Theorem search_results_feed_sources (items : list item) :
  match extract_results items with
  | Some rs =>
      Forall2 (fun it r =>
                 exists d, it = IDict d
                   /\ result_fields r
                      = (get d "title", or_str (get d "link") EmptyString, get d "snippet"))
              items rs
  | None => Exists (fun it => it = IOther) items
  end.
Proof.
  induction items as [|[d|] items IH]; cbn [extract_results].
  - constructor.
  - destruct (extract_results items) as [rs|].
    + constructor; [|exact IH]. exists d. split; [reflexivity|].
      apply result_fields_result_dict.
    + now apply Exists_cons_tl.
  - now apply Exists_cons_hd.
Qed.

End SearchFacts.

Module ProgramFacts.
Import Py Eff App Program BackendFacts AppFacts ReplaceFacts AskPathFacts SearchFacts.

Section Whole.
Context {W : Type}.
Variable post_chat : list Message -> W -> outcome string * W.
Variable SERPAPI_API_KEY : val.
Variable get_dict : string -> Z -> W -> outcome Search.serp_reply * W.
Variable download : string -> W -> outcome (option string) * W.
Variable extract_text : string -> W -> outcome (option string) * W.
Variable new_uuid : W -> string * W.

Lemma call_general query (st : State (Summarizer.Net W)) :
  exists out st',
    call (@generate_general_answer _
            (Assembly.whole post_chat SERPAPI_API_KEY get_dict download extract_text new_uuid)
            query) st
    = (Ok out, st')
    /\ is_empty out = false.
Proof.
  unfold call. cbn [generate_general_answer Assembly.whole collaborators].
  destruct (general_answer_nonempty post_chat query (world st)) as (out & w & -> & Hne).
  eexists _, _. split; [reflexivity|exact Hne].
Qed.

(** Once the query is read: with the search of [search.py] and the
    generators of [summarizer.py] in place, [api_ask] never raises,
    whatever the provider, the pages and the backend do: a blank query
    is answered with status 400 and every other query with an answer
    that is not empty. *)
Lemma ask_never_fails (data : gmap string val) (st : State (Summarizer.Net W)) :
  exists resp st',
    @api_ask _
      (Assembly.whole post_chat SERPAPI_API_KEY get_dict download extract_text new_uuid)
      data st
    = (Ok resp, st')
    /\ (is_empty (strip (or_str (get data "query") EmptyString)) = true ->
          status_of resp = 400 /\ st' = st)
    /\ (is_empty (strip (or_str (get data "query") EmptyString)) = false ->
          exists answer, answer_of resp = Some answer /\ is_empty answer = false).
Proof.
  destruct (@api_ask _
              (Assembly.whole post_chat SERPAPI_API_KEY get_dict download extract_text new_uuid)
              data st) as [o st'] eqn:Er.
  unfold api_ask in Er.
  destruct (is_empty (strip (or_str (get data "query") EmptyString))) eqn:Eq.
  { injection Er as <- <-. eexists _, _. split; [reflexivity|].
    split; [intros _; split; reflexivity|discriminate]. }
  unfold bind at 1 in Er.
  match type of Er with context [match ?blk st with _ => _ end] =>
    assert (Hblk : exists answer results full st1,
               blk st = (Ok (answer, results, full), st1) /\ is_empty answer = false)
  end.
  { destruct (Resolver.is_simple_logical_query _).
    - unfold bind.
      destruct (call_general (strip (or_str (get data "query") EmptyString)) st)
        as (out & st1 & -> & Hne).
      unfold ret. eexists _, _, _, _. split; [reflexivity|exact Hne].
    - unfold bind at 1. unfold call at 1. cbn [web_search Assembly.whole collaborators].
      unfold outside at 1.
      destruct (web_search_total SERPAPI_API_KEY get_dict
                  (strip (or_str (get data "query") EmptyString)) 6
                  (Summarizer.ext (world st))) as (rs & w' & ->).
      unfold bind at 1.
      match goal with |- context [build_full_sources rs ?s] =>
        destruct (@build_full_sources_total _
                    (Assembly.whole post_chat SERPAPI_API_KEY get_dict download
                       extract_text new_uuid) rs s) as (full & st1 & ->) end.
      destruct (negb (is_empty_list full) && (0 <? Z.of_nat (length rs))).
      + unfold bind at 1. unfold call at 1.
        cbn [generate_answer_from_sources Assembly.whole collaborators].
        destruct (grounded_answer_nonempty post_chat
                    (strip (or_str (get data "query") EmptyString))
                    (map IDict full) (world st1)) as (out & n' & -> & Hne).
        destruct (String.eqb out RAG_FAILURE_CODE).
        * unfold bind.
          match goal with |- context [call _ ?s] =>
            destruct (call_general (strip (or_str (get data "query") EmptyString)) s)
              as (out2 & st2 & -> & Hne2) end.
          unfold ret. eexists _, _, _, _. split; [reflexivity|exact Hne2].
        * unfold ret. eexists _, _, _, _. split; [reflexivity|exact Hne].
      + unfold bind.
        match goal with |- context [call _ ?s] =>
          destruct (call_general (strip (or_str (get data "query") EmptyString)) s)
            as (out2 & st2 & -> & Hne2) end.
        unfold ret. eexists _, _, _, _. split; [reflexivity|exact Hne2]. }
  destruct Hblk as (answer & results & full & st1 & Eb & Hne). rewrite Eb in Er.
  destruct (@api_ask_finish _
              (Assembly.whole post_chat SERPAPI_API_KEY get_dict download extract_text new_uuid)
              (strip (or_str (get data "query") EmptyString))
              answer results full st1) as (sid & st3 & Hf & _).
  cbv zeta in Hf. rewrite Hf in Er. injection Er as <- <-.
  eexists _, _. split; [reflexivity|]. split; [discriminate|].
  intros _. eexists. split; [reflexivity|].
  destruct answer as [|a answer]; [discriminate|].
  rewrite replace_nl_cons. now destruct (Ascii.eqb _ a).
Qed.

(** X22: the three files together, on the body as it arrives.  [api_ask]
    raises, with the state untouched, exactly when the body is a truthy
    value that is not an object or when its "query" is a truthy value
    that is not a string; it has no [try].  On every other body it
    answers, whatever the search provider, the pages and the backend
    do: with status 400 when the query is blank, and with an answer
    that is not empty otherwise. *)
Theorem ask_request_fails_only_unread (b : body) (st : State (Summarizer.Net W)) :
  (forall e,
     body_members b = Raise e
     \/ (exists data, body_members b = Ok data /\ text_member data "query" = Raise e) ->
     @api_ask_request _
       (Assembly.whole post_chat SERPAPI_API_KEY get_dict download extract_text new_uuid)
       b st
     = (Raise e, st))
  /\ (forall data query,
        body_members b = Ok data -> text_member data "query" = Ok query ->
        exists resp st',
          @api_ask_request _
            (Assembly.whole post_chat SERPAPI_API_KEY get_dict download extract_text new_uuid)
            b st
          = (Ok resp, st')
          /\ (is_empty query = true -> status_of resp = 400 /\ st' = st)
          /\ (is_empty query = false ->
                exists answer, answer_of resp = Some answer /\ is_empty answer = false))
  /\ ((exists e, body_members b = Raise e) <-> b = BValue true)
  /\ (forall data key,
        (exists e, text_member data key = Raise e) <->
        exists v, data !! key = Some v /\ json_truthy v = true
                  /\ forall s, v <> JString s).
Proof.
  split; [|split; [|split]].
  - intros e [Hb|(data & Hb & Hq)];
      unfold api_ask_request, bind, of_outcome; rewrite Hb; [reflexivity|].
    now rewrite Hq.
  - intros data query Hb Hq.
    unfold api_ask_request, bind, of_outcome. rewrite Hb, Hq.
    destruct (ask_never_fails (<["query" := VStr query]> ∅) st)
      as (resp & st' & E & H400 & Hans).
    assert (Eq : strip (or_str (get (<["query" := VStr query]> ∅) "query") EmptyString)
                 = query).
    { unfold get. rewrite lookup_insert_eq. cbn [default from_option id].
      apply RequestFacts.reread. eapply RequestFacts.text_member_stripped; eauto. }
    rewrite Eq in H400, Hans.
    exists resp, st'. split; [exact E|]. split; [exact H400|exact Hans].
  - destruct b as [m|[|]]; cbn [body_members]; split;
      try (intros [e H]; discriminate); try discriminate; eauto.
  - intros data key. apply RequestFacts.text_member_raises.
Qed.

End Whole.
End ProgramFacts.

(* ================================================================== *)
(** * The handlers in concrete worlds *)
(* ================================================================== *)

Module ScenarioFacts.
Import Py App Scenario.

(** C1: a follow-up during which the chat request to the backend times
    out.  [_ollama_chat] turns the exception into a reply text, the
    request is answered with that text, and the stored transcript has
    grown by the user's message and by the text. *)
Theorem C1_backend_failure_reaches_transcript :
  let before := after_ask 1 in
  let r := @api_chat _ (program 1) (follow_up "sid-1" "hello") before in
  option_map (@length Message) (history_of before "sid-1") = Some 4%nat
  /\ fst r = Ok (ChatOk "sid-1" "[ERROR] Failed to call Ollama chat: timed out")
  /\ history_of (snd r) "sid-1"
     = option_map
         (fun h => h ++ [ user_says "hello";
                          assistant_says "[ERROR] Failed to call Ollama chat: timed out" ])%list
         (history_of before "sid-1").
Proof. vm_compute. repeat split; reflexivity. Qed.

(** The same follow-up with a chat collaborator that raises: the
    request is answered with status 500 and the user's message stays in
    the stored transcript. *)
Lemma raising_chat_leaves_user_message :
  let before := after_ask 1 in
  let r := @api_chat _ raising_chat (follow_up "sid-1" "hello") before in
  fst r = Ok (Error 500
            "An error occurred while communicating with the model. Details: timed out")
  /\ history_of (snd r) "sid-1"
     = option_map (fun h => h ++ [ user_says "hello" ])%list (history_of before "sid-1").
Proof. vm_compute. repeat split; reflexivity. Qed.

(** On the fast paths nothing is appended before the reply is there:
    when the grounded-answer collaborator raises, the request is
    answered with status 500 and the transcript is what it was. *)
Lemma raising_grounded_leaves_transcript :
  let before := after_ask 1 in
  let r := @api_chat _ raising_grounded (follow_up "sid-1" "summarize link 2") before in
  let r' := @api_chat _ raising_grounded (follow_up "sid-1" "compare 1 and 2") before in
  (status_of <$> returned (fst r)) = Some 500
  /\ history_of (snd r) "sid-1" = history_of before "sid-1"
  /\ (status_of <$> returned (fst r')) = Some 500
  /\ history_of (snd r') "sid-1" = history_of before "sid-1".
Proof. cbv zeta. repeat split; vm_compute; reflexivity. Qed.

(** C2: a session whose first source was stored with no content and no
    snippet; "summarize link 1" selects it, the page is fetched and now
    yields 6001 characters, and the dict built for the model holds all
    of them. *)
Theorem C2_refetched_content_exceeds_cap :
  let before := after_ask 2 in
  let target := SOURCES before !! "sid-1" ≫= (fun stored => stored !! 0%nat) in
  let rebuilt :=
    target ≫= (fun t => returned (fst (@summarize_target _ (program 2) t before))) in
  Resolver.detect_link_index "summarize link 1" = Some 1
  /\ (content_length <$> target) = Some (Some 0)
  /\ ((fun t => get t "snippet") <$> target) = Some (VStr EmptyString)
  /\ (content_length <$> rebuilt) = Some (Some 6001)
  /\ MAX_CHARS_PER_SOURCE < 6001.
Proof. cbv zeta. repeat split; vm_compute; reflexivity. Qed.

(** C3: a first request while the backend is down.  The answer is the
    text that [_ollama_chat] makes of the exception; it does not start
    with "ERROR:", and a session is created from it. *)
Theorem C3_session_created_from_error_answer :
  let r := @api_ask _ (program 0) (ask "hello there") start in
  (answer_of <$> returned (fst r))
    = Some (Some "[ERROR] Failed to call Ollama chat: timed out")
  /\ (session_id_of <$> returned (fst r)) = Some (Some "sid-1")
  /\ startswith "[ERROR] Failed to call Ollama chat: timed out" "ERROR:" = false
  /\ history_of start "sid-1" = None
  /\ (skipn 2 <$> history_of (snd r) "sid-1")
     = Some [ user_says "hello there";
              assistant_says "[ERROR] Failed to call Ollama chat: timed out" ].
Proof. cbv zeta. repeat split; vm_compute; reflexivity. Qed.

(** The just-in-time fetch at work: "summarize link 1" makes the page be
    requested a second time and sends its 6001 characters to the model,
    and the stored source still has no content. *)
Lemma refetched_content_not_stored :
  let before := after_ask 2 in
  let r := @api_chat _ (program 2) (follow_up "sid-1" "summarize link 1") before in
  let first_source st := SOURCES st !! "sid-1" ≫= (fun stored => stored !! 0%nat) in
  downloads (Summarizer.ext (world before)) = 1%nat
  /\ downloads (Summarizer.ext (world (snd r))) = 2%nat
  /\ (map (fun m => 6001 <=? len (content m)) <$> last (Summarizer.sent (world (snd r))))
     = Some [false; true]
  /\ (content_length <$> first_source before) = Some (Some 0)
  /\ (content_length <$> first_source (snd r)) = Some (Some 0).
Proof. cbv zeta. repeat split; vm_compute; reflexivity. Qed.

(** C5 at work: the first pattern matches "summarize link 3" and its
    number is the answer. *)
Lemma C5_detect_link_index_witness :
  exists g,
    Re.group [(1%nat, "3")] 1 = Some g /\ isdigit g = true
    /\ Resolver.detect_link_index "summarize link 3"
       = (if 1 <=? int g then Some (int g) else None).
Proof.
  destruct ResolverFacts.C5_detect_link_index as (_ & _ & _ & _ & _ & _ & _ & H & _).
  apply (H "summarize link 3" [(1%nat, "3")]); vm_compute; reflexivity.
Defined.

(** C6 at work: the pair found in "first vs third" is read off the text
    "1 vs 3". *)
Lemma C6_detect_two_links_witness :
  exists before d1 w1 cn w2 d2 rest,
    Resolver.normalize_ordinals (strip (lower "first vs third")) Resolver.ORDINAL_TO_INDEX
      = before ++ d1 ++ w1 ++ cn ++ w2 ++ d2 ++ rest
    /\ isdigit d1 = true /\ all_char is_space w1 = true /\ In cn Resolver.connectors
    /\ all_char is_space w2 = true /\ isdigit d2 = true
    /\ 1 = int d1 /\ 3 = int d2.
Proof.
  destruct ResolverFacts.C6_detect_two_links as (_ & _ & _ & _ & _ & _ & H & _).
  apply (H "first vs third" 1 3). vm_compute; reflexivity.
Defined.

(** C7 at work: "2+2" has a marker, a digit and one token. *)
Lemma C7_bypass_iff_witness : Resolver.is_simple_logical_query "2+2" = true.
Proof.
  destruct ResolverFacts.C7_bypass_iff as (H & _).
  apply (H "2+2"). split; [|split].
  - exists "+". split; [simpl; tauto|vm_compute; reflexivity].
  - vm_compute; reflexivity.
  - vm_compute; lia.
Defined.

(** C8 at work: the backend finds the two sources insufficient, and
    the response carries the general answer and no sources. *)
Lemma C8_sentinel_falls_back_witness :
  exists sid st',
    @api_ask _ program_insufficient (ask "capital of France") start
    = (Ok (AskOk (replace "Paris." nl "<br>") [] sid), st')
    /\ (forall s, sid = Some s -> SOURCES st' !! s = Some []).
Proof.
  eapply (@AppFacts.C8_sentinel_falls_back _ program_insufficient
            (ask "capital of France") start).
  - vm_compute; reflexivity.
  - vm_compute; reflexivity.
  - vm_compute; reflexivity.
  - discriminate.
  - vm_compute; reflexivity.
  - vm_compute; reflexivity.
  - vm_compute; reflexivity.
Defined.

(** C10 at work: a list with a non-dict and a dict without text. *)
Lemma C10_no_usable_source_no_request_witness :
  Summarizer.generate_answer_from_sources (post_chat 1) "anything"
    [ IOther; IDict (<["title" := VStr "A"]> (<["content" := VStr EmptyString]> ∅)) ]
    (world start)
  = (Ok RAG_FAILURE_CODE, world start).
Proof.
  apply SummarizerFacts.C10_no_usable_source_no_request.
  repeat constructor; vm_compute; reflexivity.
Defined.


(** X3 at work: a follow-up on the session of [after_ask 2]. *)
Lemma follow_up_appends_witness :
  exists resp extra,
    fst (@api_chat _ (program 2) (follow_up "sid-1" "hello") (after_ask 2)) = Ok resp
    /\ history_of (snd (@api_chat _ (program 2) (follow_up "sid-1" "hello") (after_ask 2)))
         "sid-1"
       = Some (default [] (history_of (after_ask 2) "sid-1") ++ extra)%list
    /\ SESSIONS (snd (@api_chat _ (program 2) (follow_up "sid-1" "hello") (after_ask 2)))
       = SESSIONS (after_ask 2)
    /\ ((exists reply,
           resp = ChatOk "sid-1" (replace reply nl "<br>")
           /\ extra = [user_turn "hello"; assistant_turn reply])
        \/ (status_of resp = 500 /\ (extra = [] \/ extra = [user_turn "hello"]))).
Proof.
  apply (@SessionFacts.follow_up_appends _ (program 2) (follow_up "sid-1" "hello")
           (after_ask 2) (default [] (history_of (after_ask 2) "sid-1")));
    vm_compute; reflexivity.
Defined.

(** X4 at work: the store [two_sessions] holds the sessions "sid-1" and
    "sid-2"; a follow-up on "sid-2" adds two messages to its transcript
    and leaves the four messages of "sid-1" as they were. *)
Lemma sessions_are_isolated_witness :
  (length <$> history_of two_sessions "sid-1") = Some 4%nat
  /\ (length <$> history_of two_sessions "sid-2") = Some 4%nat
  /\ (length <$> history_of
                   (snd (@api_chat _ (program_numbered 3) (follow_up "sid-2" "hello")
                           two_sessions)) "sid-2") = Some 6%nat
  /\ ("sid-1" <> strip (or_str (get (follow_up "sid-2" "hello") "session_id") EmptyString) ->
      history_of (snd (@api_chat _ (program_numbered 3) (follow_up "sid-2" "hello")
                         two_sessions)) "sid-1"
      = history_of two_sessions "sid-1")
  /\ ((returned (fst (@api_ask _ (program_numbered 3) (follow_up "sid-2" "hello")
                        two_sessions))
         ≫= session_id_of) <> Some "sid-1" ->
       history_of (snd (@api_ask _ (program_numbered 3) (follow_up "sid-2" "hello")
                          two_sessions)) "sid-1"
       = history_of two_sessions "sid-1"
       /\ SOURCES (snd (@api_ask _ (program_numbered 3) (follow_up "sid-2" "hello")
                          two_sessions)) !! "sid-1"
          = SOURCES two_sessions !! "sid-1").
Proof.
  split; [vm_compute; reflexivity|].
  split; [vm_compute; reflexivity|].
  split; [vm_compute; reflexivity|].
  apply (@SessionFacts.sessions_are_isolated _ (program_numbered 3)
           (follow_up "sid-2" "hello") two_sessions "sid-1").
  unfold two_sessions.
  apply SessionFacts.api_ask_well_formed. apply SessionFacts.api_ask_well_formed.
  apply SessionFacts.well_formed_empty.
Defined.

(** X7 at work: "compare 1 and 2" on the session of [after_ask 2]. *)
Lemma comparison_uses_the_two_sources_witness :
  exists st',
    @api_chat _ (program 2) (follow_up "sid-1" "compare 1 and 2") (after_ask 2)
    = (Ok (ChatOk "sid-1" (replace "An answer [2]." nl "<br>")), st')
    /\ history_of st' "sid-1"
       = Some (default [] (history_of (after_ask 2) "sid-1")
               ++ [user_turn "compare 1 and 2"; assistant_turn "An answer [2]."])%list.
Proof.
  destruct (@PathFacts.comparison_uses_the_two_sources _ (program 2)
              (follow_up "sid-1" "compare 1 and 2") (after_ask 2)
              (default [] (history_of (after_ask 2) "sid-1"))
              (default [] (SOURCES (after_ask 2) !! "sid-1")) 1 2
              (default ∅ (default [] (SOURCES (after_ask 2) !! "sid-1") !! 0%nat))
              (default ∅ (default [] (SOURCES (after_ask 2) !! "sid-1") !! 1%nat))
              "An answer [2]."
              {| Summarizer.ext := {| downloads := 1; posts := 2 |};
                 Summarizer.sent :=
                   Summarizer.sent
                     (world (snd (@api_chat _ (program 2)
                                    (follow_up "sid-1" "compare 1 and 2") (after_ask 2)))) |})
    as (st' & H1 & _ & H3).
  - vm_compute; reflexivity.
  - vm_compute; reflexivity.
  - vm_compute; reflexivity.
  - vm_compute; reflexivity.
  - vm_compute; reflexivity.
  - vm_compute; reflexivity.
  - vm_compute; reflexivity.
  - vm_compute; reflexivity.
  - vm_compute; discriminate.
  - exists st'. split; [exact H1|exact H3].
Defined.

(** X12 at work: "summarize link 2" on the session of [after_ask 2],
    whose second source has a snippet. *)
Lemma summary_uses_the_stored_source_witness :
  exists st',
    @api_chat _ (program 2) (follow_up "sid-1" "summarize link 2") (after_ask 2)
    = (Ok (ChatOk "sid-1" (replace "An answer [2]." nl "<br>")), st')
    /\ history_of st' "sid-1"
       = Some (default [] (history_of (after_ask 2) "sid-1")
               ++ [user_turn "summarize link 2"; assistant_turn "An answer [2]."])%list.
Proof.
  destruct (@HistoryFacts.summary_uses_the_stored_source _ (program 2)
              (follow_up "sid-1" "summarize link 2") (after_ask 2)
              (default [] (history_of (after_ask 2) "sid-1"))
              (default [] (SOURCES (after_ask 2) !! "sid-1")) 2
              (default ∅ (default [] (SOURCES (after_ask 2) !! "sid-1") !! 1%nat))
              "An answer [2]."
              {| Summarizer.ext := {| downloads := 1; posts := 2 |};
                 Summarizer.sent :=
                   Summarizer.sent
                     (world (snd (@api_chat _ (program 2)
                                    (follow_up "sid-1" "summarize link 2") (after_ask 2)))) |})
    as (st' & H1 & _ & H3).
  - vm_compute; reflexivity.
  - vm_compute; reflexivity.
  - vm_compute; reflexivity.
  - vm_compute; reflexivity.
  - vm_compute; reflexivity.
  - vm_compute; reflexivity.
  - vm_compute; reflexivity.
  - vm_compute; reflexivity.
  - vm_compute; reflexivity.
  - vm_compute; discriminate.
  - exists st'. split; [exact H1|exact H3].
Defined.

(** X6 at work: "hello" names no source, and the chat collaborator is
    given the transcript. *)
Lemma unresolved_reference_goes_to_chat_witness :
  exists st',
    @api_chat _ (program 2) (follow_up "sid-1" "hello") (after_ask 2)
    = (Ok (ChatOk "sid-1" (replace "An answer [2]." nl "<br>")), st')
    /\ history_of st' "sid-1"
       = Some (default [] (history_of (after_ask 2) "sid-1")
               ++ [user_turn "hello"; assistant_turn "An answer [2]."])%list.
Proof.
  destruct (@PathFacts.unresolved_reference_goes_to_chat _ (program 2)
              (follow_up "sid-1" "hello") (after_ask 2)
              (default [] (history_of (after_ask 2) "sid-1"))
              "An answer [2]."
              (world (snd (@api_chat _ (program 2) (follow_up "sid-1" "hello")
                             (after_ask 2)))))
    as (st' & H1 & _ & H3).
  - vm_compute; reflexivity.
  - vm_compute; reflexivity.
  - vm_compute; reflexivity.
  - vm_compute; reflexivity.
  - vm_compute; reflexivity.
  - vm_compute; reflexivity.
  - exists st'. split; [exact H1|exact H3].
Defined.

(** X10 at work: "2+2" bypasses the search. *)
Lemma api_ask_without_retrieval_witness :
  exists sid st',
    @api_ask _ (program 1) (ask "2+2") start
    = (Ok (AskOk (replace "An answer [2]." nl "<br>") [] sid), st')
    /\ (forall s, sid = Some s -> SOURCES st' !! s = Some []).
Proof.
  destruct (@AskPathFacts.api_ask_without_retrieval _ (program 1) (ask "2+2") start
              (world start)
              (world (snd (@api_ask _ (program 1) (ask "2+2") start)))
              "An answer [2].")
    as (sid & st' & H1 & _ & _ & H4).
  - vm_compute; reflexivity.
  - left. split; vm_compute; reflexivity.
  - vm_compute; reflexivity.
  - exists sid, st'. split; [exact H1|]. intros s Hs. exact (proj1 (H4 s Hs)).
Defined.

(** X11 at work: the first request of the scenario; the response lists
    the two results, the session stores the two enriched sources. *)
Lemma api_ask_grounded_witness :
  exists sid st',
    @api_ask _ (program 1) (ask "latest news on chip exports") start
    = (Ok (AskOk (replace "An answer [2]." nl "<br>") results sid), st')
    /\ (forall s, sid = Some s ->
          SOURCES st' !! s
          = Some (default []
                    (returned (fst (@build_full_sources _ (program 1) results start))))).
Proof.
  destruct (@AskPathFacts.api_ask_grounded _ (program 1)
              (ask "latest news on chip exports") start
              (snd (@build_full_sources _ (program 1) results start))
              results (world start)
              (world (after_ask 1))
              (default [] (returned (fst (@build_full_sources _ (program 1) results start))))
              "An answer [2].")
    as (sid & st' & H1 & _ & H3).
  - vm_compute; reflexivity.
  - vm_compute; reflexivity.
  - vm_compute; reflexivity.
  - discriminate.
  - vm_compute; reflexivity.
  - vm_compute; reflexivity.
  - vm_compute; discriminate.
  - exists sid, st'. split; [exact H1|]. intros s Hs. exact (proj1 (H3 s Hs)).
Defined.

(** X13 at work: the history of the session of [after_ask 1] ends with
    the answer that the first response carried. *)
Lemma history_shows_the_first_answer_witness :
  exists t1 t2,
    api_chat_history (VStr "sid-1") (after_ask 1)
    = (Ok (HistoryOk
             [ {| sender := "bot"; text := t1 |};
               {| sender := "bot"; text := t2 |};
               {| sender := "user";
                  text := replace
                            (strip (or_str (get (ask "latest news on chip exports") "query")
                                      EmptyString))
                            nl "<br>" |};
               {| sender := "bot"; text := "An answer [2]." |} ]), after_ask 1).
Proof.
  apply (@HistoryFacts.history_shows_the_first_answer _ (program 1)
           (ask "latest news on chip exports") start (after_ask 1)
           "An answer [2]." results "sid-1").
  - vm_compute; reflexivity.
  - vm_compute; reflexivity.
  - vm_compute; reflexivity.
Defined.
End ScenarioFacts.
